(** * Frustum grid generator (pcdet/models/backbones_3d/f2v/frustum_grid_generator.py)

    A shallow embedding of [FrustumGridGenerator]: the construction of the
    voxel-centre grid and of the grid-to-LiDAR matrix, the batched
    transformation of the grid into image coordinates and depth bins, and the
    final normalisation with replacement of non-finite values.

    Numbers.  Tensor elements are modelled as exact extended rationals: a
    finite rational, plus or minus infinity, or NaN.  Arithmetic on finite
    values is exact (rounding and overflow of float32 are abstracted away, and
    there is a single zero, taken as positive in divisions); the behaviour of
    the IEEE special values, which the generator relies on for its
    out-of-bounds marking, is kept.

    Integers.  The grid size is a tensor of 64-bit integers; the voxel size
    is computed from it as it is, the mesh grid from its narrowing to 32
    bits, which is written out.  The statements about calls are made for
    grid sizes below [2^31], which the narrowing leaves as they are.

    Tensors.  A tensor is a shape together with a total indexing function;
    only the values at in-bounds indices are meaningful.  The torch and
    kornia operations used by the source are defined on this representation
    with the shape checks that make the real operations raise.

    Helpers.  [transform_utils.project_to_image], [grid_utils.normalize_coords]
    and [depth_utils.bin_depths] belong to the repository but not to the
    sources at hand; the first two are modelled from the specification, the
    third is a parameter of [transform_grid] and [forward], with the uniform
    discretisation as the instance used on concrete inputs. *)

From Stdlib Require Import String ZArith QArith Qcanon Qround List Lia Lqa Bool
  PeanoNat.
Import ListNotations.

Open Scope nat_scope.

(* ------------------------------------------------------------------ *)
(** ** Numbers *)

Module Num.

Inductive num : Type :=
| Fin (q : Qc)
| PInf
| NInf
| NaN.

Definition zero : num := Fin (Q2Qc 0).
Definition one : num := Fin (Q2Qc 1).
Definition half : num := Fin (Q2Qc (1 # 2)).

Definition of_Z (z : Z) : num := Fin (Q2Qc (inject_Z z)).
Definition of_nat (n : nat) : num := of_Z (Z.of_nat n).

(** [torch.isfinite] *)
Definition isfinite (x : num) : bool :=
  match x with Fin _ => true | _ => false end.

(** Sign of a number that is not NaN. *)
Definition sign (x : num) : comparison :=
  match x with
  | Fin q => (q ?= Q2Qc 0)%Qc
  | PInf => Gt
  | NInf => Lt
  | NaN => Eq
  end.

Definition sign_mul (a b : comparison) : comparison :=
  match a, b with
  | Eq, _ | _, Eq => Eq
  | Gt, Gt | Lt, Lt => Gt
  | _, _ => Lt
  end.

(** The infinity of a given sign; the sign [Eq] stands for an undefined
    form (0 times infinity, 0 / 0). *)
Definition inf_of (c : comparison) : num :=
  match c with Gt => PInf | Lt => NInf | Eq => NaN end.

Definition opp (x : num) : num :=
  match x with
  | Fin q => Fin (- q)%Qc
  | PInf => NInf
  | NInf => PInf
  | NaN => NaN
  end.

Definition add (x y : num) : num :=
  match x, y with
  | NaN, _ | _, NaN => NaN
  | Fin a, Fin b => Fin (a + b)%Qc
  | PInf, NInf | NInf, PInf => NaN
  | PInf, _ | _, PInf => PInf
  | NInf, _ | _, NInf => NInf
  end.

Definition sub (x y : num) : num := add x (opp y).

Definition mul (x y : num) : num :=
  match x, y with
  | NaN, _ | _, NaN => NaN
  | Fin a, Fin b => Fin (a * b)%Qc
  | _, _ => inf_of (sign_mul (sign x) (sign y))
  end.

Definition div (x y : num) : num :=
  match x, y with
  | NaN, _ | _, NaN => NaN
  | Fin a, Fin b =>
      if Qc_eq_bool b (Q2Qc 0) then inf_of (a ?= Q2Qc 0)%Qc
      else Fin (a / b)%Qc
  | Fin _, _ => zero
  | _, Fin b => match (b ?= Q2Qc 0)%Qc with Lt => opp x | _ => x end
  | _, _ => NaN
  end.

(** [torch.abs] and the comparison [>] (false on NaN). *)
Definition abs (x : num) : num :=
  match x with
  | Fin q => match (q ?= Q2Qc 0)%Qc with Lt => Fin (- q)%Qc | _ => x end
  | PInf | NInf => PInf
  | NaN => NaN
  end.

Definition gtb (x y : num) : bool :=
  match x, y with
  | NaN, _ | _, NaN => false
  | Fin a, Fin b => match (a ?= b)%Qc with Gt => true | _ => false end
  | PInf, PInf => false
  | PInf, _ => true
  | _, NInf => match x with NInf => false | _ => true end
  | _, _ => false
  end.

Definition ltb (x y : num) : bool := gtb y x.

(** Decidable equality, used to compare concrete values. *)
Definition eqb (x y : num) : bool :=
  match x, y with
  | Fin a, Fin b => Qc_eq_bool a b
  | PInf, PInf | NInf, NInf | NaN, NaN => true
  | _, _ => false
  end.

(** Largest integer not above a finite value. *)
Definition floor (q : Qc) : Z := Qfloor (this q).

End Num.

Export Num.

Declare Scope num_scope.
Delimit Scope num_scope with num.
Bind Scope num_scope with num.
Infix "+" := Num.add : num_scope.
Infix "-" := Num.sub : num_scope.
Infix "*" := Num.mul : num_scope.
Infix "/" := Num.div : num_scope.

(* ------------------------------------------------------------------ *)
(** ** Exceptions *)

Inductive exn : Type :=
| RuntimeError (msg : string)
| ValueError (msg : string)
| IndexError (msg : string).

Inductive result (A : Type) : Type :=
| Ok (a : A)
| Raise (e : exn).

Arguments Ok {A} a.
Arguments Raise {A} e.

Definition bind {A B : Type} (r : result A) (k : A -> result B) : result B :=
  match r with
  | Ok a => k a
  | Raise e => Raise e
  end.

Notation "x <- r ;; k" := (bind r (fun x => k))
  (at level 61, r at next level, right associativity).
Notation "' p <- r ;; k" := (bind r (fun x => let p := x in k))
  (at level 61, p pattern, r at next level, right associativity).


(* ------------------------------------------------------------------ *)
(** ** Tensors *)

Module Tensor.

Record tensor (A : Type) : Type := mk {
  shape : list nat;
  elem : list nat -> A
}.

Arguments mk {A} shape elem.
Arguments shape {A} t.
Arguments elem {A} t idx.

(** Number of elements of a shape. *)
Fixpoint numel (s : list nat) : nat :=
  match s with
  | [] => 1
  | n :: s' => n * numel s'
  end.

(** [idx] is a valid index for the shape [s]. *)
Fixpoint in_bounds (s idx : list nat) : bool :=
  match s, idx with
  | [], [] => true
  | n :: s', i :: idx' => (i <? n) && in_bounds s' idx'
  | _, _ => false
  end.

(** Row-major offset of an index, and the index of an offset. *)
Fixpoint ravel (s idx : list nat) : nat :=
  match s, idx with
  | _ :: s', i :: idx' => i * numel s' + ravel s' idx'
  | _, _ => 0
  end.

Fixpoint unravel (s : list nat) (k : nat) : list nat :=
  match s with
  | [] => []
  | _ :: s' => (k / numel s') :: unravel s' (k mod numel s')
  end.

(** The elements in row-major order (what [tensor.flatten().tolist()]
    shows). *)
Definition entries {A : Type} (t : tensor A) : list A :=
  map (fun k => elem t (unravel (shape t) k)) (seq 0 (numel (shape t))).

Definition tmap {A B : Type} (f : A -> B) (t : tensor A) : tensor B :=
  mk (shape t) (fun idx => f (elem t idx)).

(** A one-dimensional tensor holding the elements of a list. *)
Definition of_list {A : Type} (d : A) (l : list A) : tensor A :=
  mk [length l] (fun idx => nth (hd 0 idx) l d).

(** A matrix given by its rows. *)
Definition of_rows {A : Type} (d : A) (ncols : nat) (rows : list (list A))
  : tensor A :=
  mk [length rows; ncols]
     (fun idx => nth (nth 1 idx 0) (nth (hd 0 idx) rows []) d).

(** A batch of tensors of one shape [s], stacked along a new leading
    dimension. *)
Definition of_batch {A : Type} (d : A) (s : list nat) (ts : list (tensor A))
  : tensor A :=
  mk (length ts :: s)
     (fun idx => elem (nth (hd 0 idx) ts (mk s (fun _ => d))) (tl idx)).

Fixpoint shape_eqb (s1 s2 : list nat) : bool :=
  match s1, s2 with
  | [], [] => true
  | a :: s1', b :: s2' => (a =? b) && shape_eqb s1' s2'
  | _, _ => false
  end.

(** Broadcasting (right-aligned), on reversed shapes and indices. *)
Definition bdim (a b : nat) : option nat :=
  if b =? 1 then Some a
  else if a =? 1 then Some b
  else if a =? b then Some a
  else None.

Fixpoint broadcast_rev (r1 r2 : list nat) : option (list nat) :=
  match r1, r2 with
  | [], r => Some r
  | r, [] => Some r
  | a :: r1', b :: r2' =>
      match bdim a b, broadcast_rev r1' r2' with
      | Some n, Some r => Some (n :: r)
      | _, _ => None
      end
  end.

(** The index of an operand of reversed shape [r] that feeds the result
    element at reversed index [ridx]. *)
Fixpoint bindex_rev (r ridx : list nat) : list nat :=
  match r, ridx with
  | n :: r', i :: ridx' => (if n =? 1 then 0 else i) :: bindex_rev r' ridx'
  | _, _ => []
  end.

Definition bindex (s idx : list nat) : list nat :=
  rev (bindex_rev (rev s) (rev idx)).

End Tensor.

Export Tensor.

(* ------------------------------------------------------------------ *)
(** ** The torch operations used by the generator *)

Module torch.

Definition dim_error {A : Type} : result A :=
  Raise (RuntimeError "The size of tensor a must match the size of tensor b").

(** Elementwise binary operation with broadcasting. *)
Definition broadcast2 {A B C : Type} (f : A -> B -> C)
           (a : tensor A) (b : tensor B) : result (tensor C) :=
  match broadcast_rev (rev (shape a)) (rev (shape b)) with
  | Some r =>
      Ok (Tensor.mk (rev r)
            (fun idx => f (elem a (bindex (shape a) idx))
                          (elem b (bindex (shape b) idx))))
  | None => dim_error
  end.

Definition sub := broadcast2 Num.sub.
Definition div := broadcast2 Num.div.
Definition mul := broadcast2 Num.mul.

(** [torch.as_tensor(l)] of a sequence of Python integers: a tensor of
    64-bit integers; an integer that does not fit is refused. *)
Definition int64_range (z : Z) : bool :=
  ((- 2 ^ 63 <=? z) && (z <? 2 ^ 63))%Z.

Definition as_tensor (l : list Z) : result (tensor Z) :=
  if forallb int64_range l then Ok (of_list 0%Z l)
  else Raise (RuntimeError "Overflow when unpacking long").

(** [tensor.int()]: the conversion of 64-bit integers to 32-bit ones keeps
    the low 32 bits, read in two's complement. *)
Definition int32 (z : Z) : Z := ((z + 2 ^ 31) mod 2 ^ 32 - 2 ^ 31)%Z.

Definition int (t : tensor Z) : tensor Z := tmap int32 t.

(** [t += v] for a Python scalar [v]: every element is increased by [v]. *)
Definition add_scalar (t : tensor num) (v : num) : tensor num :=
  tmap (fun x => x + v)%num t.

(** [tensor.reshape(shape)] *)
Definition reshape {A : Type} (t : tensor A) (s : list nat)
  : result (tensor A) :=
  if numel (shape t) =? numel s then
    Ok (Tensor.mk s (fun idx => elem t (unravel (shape t) (ravel s idx))))
  else Raise (RuntimeError "shape is invalid for input size").

(** [t\[i\]]: the [i]-th slice along the leading dimension. *)
Definition select0 {A : Type} (t : tensor A) (i : nat) : tensor A :=
  Tensor.mk (tl (shape t)) (fun idx => elem t (i :: idx)).

(** Iterating over a tensor yields its slices along the leading
    dimension; this is what tuple unpacking consumes. *)
Definition unbind {A : Type} (t : tensor A) : list (tensor A) :=
  map (select0 t) (seq 0 (hd 0 (shape t))).

(** The value of a zero-dimensional tensor. *)
Definition item {A : Type} (t : tensor A) : A := elem t [].

(** Position of [j] in [dims]. *)
Fixpoint index_of (j : nat) (dims : list nat) : nat :=
  match dims with
  | [] => 0
  | d :: dims' => if d =? j then 0 else S (index_of j dims')
  end.

Definition is_permutation (dims : list nat) (rank : nat) : bool :=
  (length dims =? rank)
  && forallb (fun j => existsb (Nat.eqb j) dims) (seq 0 rank).

(** [tensor.permute(dims)]: dimension [i] of the result is dimension
    [dims\[i\]] of the argument. *)
Definition permute {A : Type} (t : tensor A) (dims : list nat)
  : result (tensor A) :=
  if is_permutation dims (length (shape t)) then
    Ok (Tensor.mk (map (fun d => nth d (shape t) 0) dims)
          (fun idx =>
             elem t (map (fun j => nth (index_of j dims) idx 0)
                         (seq 0 (length dims)))))
  else Raise (RuntimeError "permute: dims do not match the tensor").

(** [tensor.transpose(d0, d1)] *)
Definition transpose {A : Type} (t : tensor A) (d0 d1 : nat)
  : result (tensor A) :=
  permute t (map (fun d => if d =? d0 then d1 else if d =? d1 then d0 else d)
                 (seq 0 (length (shape t)))).

(** [tensor.unsqueeze(dim)] for a non-negative [dim], and
    [tensor.unsqueeze(-1)]. *)
Definition unsqueeze {A : Type} (t : tensor A) (dim : nat) : tensor A :=
  Tensor.mk (firstn dim (shape t) ++ 1 :: skipn dim (shape t))
            (fun idx => elem t (firstn dim idx ++ skipn (S dim) idx)).

Definition unsqueeze_last {A : Type} (t : tensor A) : tensor A :=
  Tensor.mk (shape t ++ [1]) (fun idx => elem t (removelast idx)).

(** [tensor.squeeze(dim=-1)]: drops the last dimension when it has
    size one. *)
Definition squeeze_last {A : Type} (t : tensor A) : tensor A :=
  match rev (shape t) with
  | 1 :: r => Tensor.mk (rev r) (fun idx => elem t (idx ++ [0]))
  | _ => t
  end.

(** [torch.linspace(start, end, steps)] *)
Definition linspace (start stop : num) (steps : Z) : result (tensor num) :=
  if (steps <? 0)%Z then
    Raise (RuntimeError "number of steps must be non-negative")
  else
    Ok (Tensor.mk [Z.to_nat steps]
          (fun idx =>
             if (steps =? 1)%Z then start
             else (start + of_nat (hd 0 idx)
                           * ((stop - start) / of_Z (steps - 1)))%num)).

(** [torch.meshgrid(\[a, b, c\])] of three one-dimensional tensors
    (matrix indexing). *)
Definition meshgrid3 {A : Type} (a b c : tensor A)
  : tensor A * tensor A * tensor A :=
  let s := [hd 0 (shape a); hd 0 (shape b); hd 0 (shape c)] in
  (Tensor.mk s (fun idx => elem a [nth 0 idx 0]),
   Tensor.mk s (fun idx => elem b [nth 1 idx 0]),
   Tensor.mk s (fun idx => elem c [nth 2 idx 0])).

(** [torch.stack(ts)] along a new leading dimension. *)
Definition stack {A : Type} (d : A) (ts : list (tensor A))
  : result (tensor A) :=
  match ts with
  | [] => Raise (RuntimeError "stack expects a non-empty TensorList")
  | t0 :: _ =>
      if forallb (fun t => shape_eqb (shape t) (shape t0)) ts
      then Ok (of_batch d (shape t0) ts)
      else Raise (RuntimeError "stack expects each tensor to be equal size")
  end.

Fixpoint sum_n (k : nat) (f : nat -> num) : num :=
  match k with
  | 0 => zero
  | S k' => (sum_n k' f + f k')%num
  end.

(** [a @ b] for operands with at least two dimensions: the leading
    (batch) dimensions broadcast, the last two are multiplied as
    matrices.  (The source never multiplies one-dimensional operands.) *)
Definition matmul (a b : tensor num) : result (tensor num) :=
  match rev (shape a), rev (shape b) with
  | k :: n :: ra, m :: k' :: rb =>
      if k =? k' then
        match broadcast_rev ra rb with
        | Some r =>
            Ok (Tensor.mk (rev r ++ [n; m])
                  (fun idx =>
                     match rev idx with
                     | j :: i :: bi =>
                         sum_n k (fun l =>
                           elem a (rev (bindex_rev ra bi) ++ [i; l])
                           * elem b (rev (bindex_rev rb bi) ++ [l; j]))%num
                     | _ => NaN
                     end))
        | None => dim_error
        end
      else Raise (RuntimeError "mat1 and mat2 shapes cannot be multiplied")
  | _, _ => Raise (RuntimeError "matmul: operands must be at least 2-D")
  end.

(** [tensor.repeat_interleave(repeats, dim=0)] *)
Definition repeat_interleave {A : Type} (t : tensor A) (repeats : nat)
  : tensor A :=
  match shape t with
  | [] => t
  | n :: s =>
      Tensor.mk (n * repeats :: s)
        (fun idx => elem t ((hd 0 idx / repeats) :: tl idx))
  end.

(** [torch.cat((a, b), dim=-1)] *)
Definition cat_last {A : Type} (a b : tensor A) : result (tensor A) :=
  match rev (shape a), rev (shape b) with
  | na :: ra, nb :: rb =>
      if shape_eqb ra rb then
        Ok (Tensor.mk (rev ra ++ [na + nb])
              (fun idx =>
                 let j := last idx 0 in
                 if j <? na then elem a idx
                 else elem b (removelast idx ++ [j - na])))
      else Raise (RuntimeError "Sizes of tensors must match except in dimension")
  | _, _ => Raise (RuntimeError "zero-dimensional tensor cannot be concatenated")
  end.

(** [torch.cat((a, b))] of two one-dimensional tensors. *)
Definition cat1 {A : Type} (a b : tensor A) : result (tensor A) :=
  cat_last a b.

(** [values, _ = torch.max(t, dim=0)] on an integer tensor.  A tensor
    without dimensions is its own maximum; a reduction over an empty
    dimension is refused with an [IndexError]. *)
Definition max_dim0 (t : tensor Z) : result (tensor Z) :=
  match shape t with
  | [] => Ok t
  | 0 :: _ =>
      Raise (IndexError
               "max(): Expected reduction dim 0 to have non-zero size.")
  | S n :: s =>
      Ok (Tensor.mk s
            (fun idx =>
               fold_left (fun m i => Z.max m (elem t (i :: idx)))
                         (seq 1 n) (elem t (0 :: idx))))
  end.

(** [~torch.isfinite(t)] and the masked assignment [t\[mask\] = v]. *)
Definition isfinite (t : tensor num) : tensor bool := tmap Num.isfinite t.

Definition logical_not (t : tensor bool) : tensor bool := tmap negb t.

Definition masked_assign (t : tensor num) (mask : tensor bool) (v : num)
  : tensor num :=
  Tensor.mk (shape t) (fun idx => if elem mask idx then v else elem t idx).

(** Slices along the last dimension: [t\[..., :-1\]], [t\[..., -1:\]],
    [t\[..., :k\]] and [t\[..., j\]]. *)
Definition narrow_last {A : Type} (t : tensor A) (start len : nat)
  : tensor A :=
  Tensor.mk (removelast (shape t) ++ [len])
    (fun idx => elem t (removelast idx ++ [start + last idx 0])).

Definition select_last {A : Type} (t : tensor A) (j : nat) : tensor A :=
  Tensor.mk (removelast (shape t)) (fun idx => elem t (idx ++ [j])).

End torch.

Export torch.

(* ------------------------------------------------------------------ *)
(** ** The kornia operations used by the generator

    kornia is a library outside this repository; its functions are
    transcribed from the release the source was written against (the one in
    which [transform_points] multiplies through broadcasting, which is why
    the source reshapes its matrices to [(B, 1, 1, 4, 4)]). *)

Module kornia.

Definition eps : num := Fin (Q2Qc (1 # 100000000)).

(** [create_meshgrid3d(depth, height, width, normalized_coordinates=False)]:
    a grid of shape [(1, depth, height, width, 3)]. *)
Definition create_meshgrid3d (depth height width : Z)
  : result (tensor num) :=
  xs <- linspace zero (of_Z (width - 1)) width ;;
  ys <- linspace zero (of_Z (height - 1)) height ;;
  zs <- linspace zero (of_Z (depth - 1)) depth ;;
  let '(gz, gx, gy) := meshgrid3 zs xs ys in
  base_grid <- stack NaN [gz; gx; gy] ;;
  base_grid <- transpose base_grid 1 2 ;;
  permute (unsqueeze base_grid 0) [0; 3; 4; 2; 1].

(** Appends the homogeneous coordinate [1] to every point. *)
Definition convert_points_to_homogeneous (points : tensor num)
  : result (tensor num) :=
  if length (shape points) <? 2 then
    Raise (ValueError "Input must be at least a 2D tensor")
  else
    let d := last (shape points) 0 in
    Ok (Tensor.mk (removelast (shape points) ++ [S d])
          (fun idx => if last idx 0 <? d then elem points idx else one)).

(** Divides every point by its last coordinate, except where that
    coordinate is within [eps] of zero, where the scale is one. *)
Definition convert_points_from_homogeneous (points : tensor num)
  : result (tensor num) :=
  if length (shape points) <? 2 then
    Raise (ValueError "Input must be at least a 2D tensor")
  else
    let d := last (shape points) 0 in
    let z_vec := narrow_last points (d - 1) 1 in
    let scale :=
      tmap (fun z => if gtb (abs z) eps then (one / z)%num else one) z_vec in
    torch.mul scale (narrow_last points 0 (d - 1)).

(** [transform_points(trans_01, points_1)] *)
Definition transform_points (trans_01 points_1 : tensor num)
  : result (tensor num) :=
  if negb (hd 0 (shape trans_01) =? hd 0 (shape points_1))
     && negb (hd 0 (shape trans_01) =? 1)
  then Raise (ValueError "Input batch size must be the same for both tensors or 1")
  else if negb (last (shape trans_01) 0 =? last (shape points_1) 0 + 1)
  then Raise (ValueError "Last input dimensions must differ by one unit")
  else
    points_1_h <- convert_points_to_homogeneous points_1 ;;
    points_0_h <- matmul (unsqueeze trans_01 1) (unsqueeze_last points_1_h) ;;
    let points_0_h := squeeze_last points_0_h in
    convert_points_from_homogeneous points_0_h.

End kornia.

(* ------------------------------------------------------------------ *)
(** ** The helpers of [pcdet.utils] *)

(** Depth discretisation configuration ([disc_cfg]). *)
Record DepthDiscConfig : Type := {
  mode : string;
  num_bins : Z;
  depth_min : Qc;
  depth_max : Qc
}.

Module transform_utils.

(** Modelled from the spec: [transform_utils.project_to_image] is not among
    the sources.  Per the spec (4.3) the camera-frame points are projected
    through the 3x4 matrix to homogeneous image coordinates [(u*w, v*w, w)],
    [u] and [v] are obtained by dividing by [w], a division by zero gives a
    signed infinity that is passed on, and [w] is kept as the depth of the
    point.  The projection matrix arrives as [(B, 1, 1, 3, 4)] and is
    broadcast over the points of camera [b]. *)
Definition project_to_image (project points : tensor num)
  : result (tensor num * tensor num) :=
  points <- kornia.convert_points_to_homogeneous points ;;
  points_t <- matmul (unsqueeze project 1) (unsqueeze_last points) ;;
  let points_t := squeeze_last points_t in
  points_img <- torch.div (narrow_last points_t 0 2) (narrow_last points_t 2 1) ;;
  let points_depth := select_last points_t 2 in
  Ok (points_img, points_depth).

End transform_utils.

Module grid_utils.

(** [torch.flip(t, dims=\[0\])] of a one-dimensional tensor. *)
Definition flip {A : Type} (t : tensor A) : tensor A :=
  Tensor.mk (shape t) (fun idx => elem t [hd 0 (shape t) - 1 - hd 0 idx]).

(** Modelled from the spec: [grid_utils.normalize_coords] is not among the
    sources.  Per the spec (4.5) every coordinate is normalised as
    [2 * raw / (reference_extent - 1) - 1]; the reference shape is
    [(num_bins, height, width)] and pairs with the coordinates
    [(u, v, depth_bin)] as [u] against width, [v] against height and
    [depth_bin] against [num_bins], that is in reverse order. *)
Definition normalize_coords (coords : tensor num) (shape : tensor Z)
  : result (tensor num) :=
  let extent := tmap (fun n => of_Z (n - 1)) (flip shape) in
  scaled <- torch.div (tmap (fun c => of_Z 2 * c)%num coords) extent ;;
  Ok (tmap (fun c => c - one)%num scaled).

End grid_utils.

Module depth_utils.

(** Modelled from the spec: [depth_utils.bin_depths] is an external
    collaborator of which the spec (4.4) fixes only the contract: a bin
    index in [\[0, num_bins)], monotone in the depth, out-of-range depths
    clamped to a boundary bin or flagged.  This is the uniform
    discretisation with that contract: bins of equal size over
    [\[depth_min, depth_max\]], depths outside clamped to the first or last
    bin, NaN flagged by NaN. *)
Definition uniform_bin (cfg : DepthDiscConfig) (depth : num) : num :=
  let last_bin := Z.max 0 (num_bins cfg - 1) in
  match depth with
  | Fin d =>
      let bin_size :=
        ((depth_max cfg - depth_min cfg) / Q2Qc (inject_Z (num_bins cfg)))%Qc in
      let index := Num.floor ((d - depth_min cfg) / bin_size)%Qc in
      of_Z (Z.max 0 (Z.min last_bin index))
  | PInf => of_Z last_bin
  | NInf => of_Z 0
  | NaN => NaN
  end.

End depth_utils.

Export transform_utils grid_utils depth_utils.

(* ------------------------------------------------------------------ *)
(** ** The generator *)

Record FrustumGridGenerator : Type := {
  grid_size : tensor Z;
  pc_range : list Qc;
  out_of_bounds_val : Z;
  disc_cfg : DepthDiscConfig;
  pc_min : tensor num;
  pc_max : tensor num;
  voxel_size : tensor num;
  depth : Z;
  width : Z;
  height : Z;
  voxel_grid : tensor num;
  grid_to_lidar : tensor num
}.

(** Unpacking of an iterable into three names. *)
Definition unpack3 {A : Type} (l : list A) : result (A * A * A) :=
  match l with
  | [a; b; c] => Ok (a, b, c)
  | _ => Raise (ValueError "wrong number of values to unpack (expected 3)")
  end.

(** [grid_to_lidar_unproject(pc_min, voxel_size)] *)
Definition grid_to_lidar_unproject (pc_min voxel_size : tensor num)
  : result (tensor num) :=
  '(x_size, y_size, z_size) <- unpack3 (map item (unbind voxel_size)) ;;
  '(x_min, y_min, z_min) <- unpack3 (map item (unbind pc_min)) ;;
  let unproject := of_rows NaN 4 [[x_size; zero; zero; x_min];
                                  [zero; y_size; zero; y_min];
                                  [zero; zero; z_size; z_min];
                                  [zero; zero; zero; one]] in
  Ok unproject.

(** [FrustumGridGenerator.__init__(grid_size, pc_range, disc_cfg)].  The
    voxel size is computed from the grid size as given, the mesh grid from
    the grid size narrowed to 32-bit integers by [grid_size.int()]. *)
Definition __init__ (grid_size : list Z) (pc_range : list Qc)
           (disc_cfg : DepthDiscConfig) : result FrustumGridGenerator :=
  self_grid_size <- as_tensor grid_size ;;
  let self_pc_range := pc_range in
  let self_out_of_bounds_val := (-2)%Z in
  (* Calculate voxel size *)
  pc_range <- reshape (of_list NaN (map Fin pc_range)) [2; 3] ;;
  let self_pc_min := select0 pc_range 0 in
  let self_pc_max := select0 pc_range 1 in
  extent <- torch.sub self_pc_max self_pc_min ;;
  self_voxel_size <- torch.div extent (tmap of_Z self_grid_size) ;;
  (* Create voxel grid *)
  '(self_depth, self_width, self_height) <-
     unpack3 (map item (unbind (int self_grid_size))) ;;
  voxel_grid <- kornia.create_meshgrid3d self_depth self_height self_width ;;
  voxel_grid <- permute voxel_grid [0; 1; 3; 2; 4] ;;
  (* Add offsets to center of voxel *)
  let voxel_grid := add_scalar voxel_grid half in
  self_grid_to_lidar <- grid_to_lidar_unproject self_pc_min self_voxel_size ;;
  Ok {| grid_size := self_grid_size;
        pc_range := self_pc_range;
        out_of_bounds_val := self_out_of_bounds_val;
        disc_cfg := disc_cfg;
        pc_min := self_pc_min;
        pc_max := self_pc_max;
        voxel_size := self_voxel_size;
        depth := self_depth;
        width := self_width;
        height := self_height;
        voxel_grid := voxel_grid;
        grid_to_lidar := self_grid_to_lidar |}.

(* ------------------------------------------------------------------ *)
(** ** Tensors as objects

    Tensors are mutable objects, and two of them can share their storage.
    Here a heap holds the storages; a tensor object names the cell of its
    storage and the views through which it reads it.  An operation that
    computes a tensor puts it in a new cell; [reshape] (of a contiguous
    tensor) and [unsqueeze] return a view of the storage of their argument;
    [tensor.to(device)] of a tensor on that device is the tensor itself; an
    assignment through an object changes the storage it names, for every
    object that shares it.  Only the floating-point tensors are kept on the
    heap: the integer tensor [image_shape] and the boolean mask are read and
    never assigned to. *)

Definition heap : Type := list (tensor num).

Definition load (c : nat) (h : heap) : tensor num :=
  nth c h (Tensor.mk [] (fun _ => NaN)).

Fixpoint store (c : nat) (t : tensor num) (h : heap) : heap :=
  match h, c with
  | [], _ => []
  | _ :: h', 0 => t :: h'
  | x :: h', S c' => x :: store c' t h'
  end.

Inductive step : Type :=
| Reshaped (s : list nat)
| Unsqueezed.

(** The steps of [path] are listed from the last one taken to the first. *)
Record obj : Type := {
  cell : nat;
  path : list step
}.

Definition whole (c : nat) : obj := {| cell := c; path := [] |}.

(** The storage of [t] read in row-major order under the shape [s]. *)
Definition reinterpret (t : tensor num) (s : list nat) : tensor num :=
  Tensor.mk s (fun idx => elem t (unravel (shape t) (ravel s idx))).

Definition seen (st : step) (t : tensor num) : tensor num :=
  match st with
  | Reshaped s => reinterpret t s
  | Unsqueezed => unsqueeze_last t
  end.

Fixpoint view_of (p : list step) (t : tensor num) : tensor num :=
  match p with
  | [] => t
  | st :: p' => seen st (view_of p' t)
  end.

(** The storage [t] after the tensor seen through [p] has been given the
    elements of [v]. *)
Fixpoint write_back (p : list step) (v t : tensor num) : tensor num :=
  match p with
  | [] => v
  | Reshaped _ :: p' =>
      write_back p' (reinterpret v (shape (view_of p' t))) t
  | Unsqueezed :: p' => write_back p' (squeeze_last v) t
  end.

Definition value (o : obj) (h : heap) : tensor num :=
  view_of (path o) (load (cell o) h).

Definition assign (o : obj) (v : tensor num) (h : heap) : heap :=
  store (cell o) (write_back (path o) v (load (cell o) h)) h.

(** Computations on the heap that may raise. *)
Definition M (A : Type) : Type := heap -> result A * heap.

Definition ret {A : Type} (a : A) : M A := fun h => (Ok a, h).

Definition lift {A : Type} (r : result A) : M A := fun h => (r, h).

Definition mbind {A B : Type} (m : M A) (k : A -> M B) : M B :=
  fun h =>
    match m h with
    | (Ok a, h') => k a h'
    | (Raise e, h') => (Raise e, h')
    end.

Notation "x <~ m ;; k" := (mbind m (fun x => k))
  (at level 61, m at next level, right associativity).
Notation "' p <~ m ;; k" := (mbind m (fun x => let p := x in k))
  (at level 61, p pattern, m at next level, right associativity).

Definition new (t : tensor num) : M obj :=
  fun h => (Ok (whole (length h)), h ++ [t]).

Definition read (o : obj) : M (tensor num) := fun h => (Ok (value o h), h).

Definition write (o : obj) (v : tensor num) : M unit :=
  fun h => (Ok tt, assign o v h).

(** What a call leaves to its caller: the tensor it returns, as it is in
    the heap, or the exception. *)
Definition outcome (r : result obj) (h : heap) : result (tensor num) :=
  match r with
  | Ok o => Ok (value o h)
  | Raise e => Raise e
  end.

(** The operations of the generator on objects.  Each one reads its
    arguments in the heap and applies the operation on values defined
    above. *)
Module Objects.

Definition fresh1 (f : tensor num -> result (tensor num)) (a : obj) : M obj :=
  x <~ read a ;;
  t <~ lift (f x) ;;
  new t.

Definition fresh2 (f : tensor num -> tensor num -> result (tensor num))
           (a b : obj) : M obj :=
  x <~ read a ;;
  y <~ read b ;;
  t <~ lift (f x y) ;;
  new t.

Definition matmul : obj -> obj -> M obj := fresh2 torch.matmul.

Definition reshape (a : obj) (s : list nat) : M obj :=
  x <~ read a ;;
  _ <~ lift (torch.reshape x s) ;;
  ret {| cell := cell a; path := Reshaped s :: path a |}.

Definition unsqueeze_last (a : obj) : M obj :=
  ret {| cell := cell a; path := Unsqueezed :: path a |}.

Definition repeat_interleave (a : obj) (repeats : nat) : M obj :=
  fresh1 (fun x => Ok (torch.repeat_interleave x repeats)) a.

Definition cat_last : obj -> obj -> M obj := fresh2 torch.cat_last.

Definition transform_points : obj -> obj -> M obj :=
  fresh2 kornia.transform_points.

(** The helpers that are modelled from the spec return new tensors and leave
    their arguments as they are. *)
Definition project_to_image (project points : obj) : M (obj * obj) :=
  p <~ read project ;;
  x <~ read points ;;
  '(points_img, points_depth) <~ lift (transform_utils.project_to_image p x) ;;
  points_img <~ new points_img ;;
  points_depth <~ new points_depth ;;
  ret (points_img, points_depth).

(** [normalize_coords] is modelled from the spec, which does not say whether
    the normalised coordinates are a new tensor or overwrite [coords]; both
    are covered, by [in_place]. *)
Definition normalize_coords (in_place : bool) (coords : obj)
           (shape : tensor Z) : M obj :=
  x <~ read coords ;;
  t <~ lift (grid_utils.normalize_coords x shape) ;;
  if in_place then _ <~ write coords t ;; ret coords else new t.

(** [mask = ~torch.isfinite(t); t\[mask\] = v]: an assignment into [t]. *)
Definition replace_not_finite (t : obj) (v : num) : M unit :=
  x <~ read t ;;
  let mask := logical_not (isfinite x) in
  write t (masked_assign x mask v).

End Objects.

Record instance : Type := {
  fields : FrustumGridGenerator;
  voxel_grid_ref : obj;
  grid_to_lidar_ref : obj
}.

(** Construction, with the two tensors of the generator placed in the
    heap. *)
Definition construct (grid_size : list Z) (pc_range : list Qc)
           (disc_cfg : DepthDiscConfig) : M instance :=
  g <~ lift (__init__ grid_size pc_range disc_cfg) ;;
  r_grid <~ new (voxel_grid g) ;;
  r_unproject <~ new (grid_to_lidar g) ;;
  ret {| fields := g;
         voxel_grid_ref := r_grid;
         grid_to_lidar_ref := r_unproject |}.

(* ------------------------------------------------------------------ *)
(** ** The methods called per batch *)

Section Forward.

(** The depth discretisation policy of [depth_utils.bin_depths], applied to
    every depth of the map. *)
Variable bin_depth : DepthDiscConfig -> num -> num.

Definition bin_depths (depth_map : tensor num) (cfg : DepthDiscConfig)
  : tensor num :=
  tmap (bin_depth cfg) depth_map.

(** [transform_grid(voxel_grid, grid_to_lidar, lidar_to_cam, cam_to_img)] *)
Definition transform_grid (self : FrustumGridGenerator)
           (voxel_grid grid_to_lidar lidar_to_cam cam_to_img : tensor num)
  : result (tensor num) :=
  let B := hd 0 (shape lidar_to_cam) in
  (* Create transformation matricies *)
  let V_G := grid_to_lidar in
  let C_V := lidar_to_cam in
  let I_C := cam_to_img in
  trans <- matmul C_V V_G ;;
  (* Reshape to match dimensions *)
  trans <- reshape trans [B; 1; 1; 4; 4] ;;
  let voxel_grid := repeat_interleave voxel_grid B in
  (* Transform to camera frame *)
  camera_grid <- kornia.transform_points trans voxel_grid ;;
  (* Project to image *)
  I_C <- reshape I_C [B; 1; 1; 3; 4] ;;
  '(image_grid, image_depths) <- project_to_image I_C camera_grid ;;
  (* Convert depths to depth bins *)
  let image_depths := bin_depths image_depths (disc_cfg self) in
  (* Stack to form frustum grid *)
  let image_depths := unsqueeze_last image_depths in
  cat_last image_grid image_depths.

(** [forward(lidar_to_cam, cam_to_img, image_shape)], on values: the grid
    that a call computes from the tensors it is given. *)
Definition forward (self : FrustumGridGenerator)
           (lidar_to_cam cam_to_img : tensor num) (image_shape : tensor Z)
  : result (tensor num) :=
  frustum_grid <- transform_grid self (voxel_grid self) (grid_to_lidar self)
                                 lidar_to_cam cam_to_img ;;
  (* Normalize grid *)
  image_shape <- max_dim0 image_shape ;;
  let image_depth := of_list 0%Z [num_bins (disc_cfg self)] in
  frustum_shape <- cat1 image_depth image_shape ;;
  frustum_grid <- normalize_coords frustum_grid frustum_shape ;;
  (* Replace any NaNs or infinites with out of bounds *)
  let mask := logical_not (isfinite frustum_grid) in
  Ok (masked_assign frustum_grid mask (of_Z (out_of_bounds_val self))).

(** The same two methods on objects.  [normalize_in_place] tells whether
    [normalize_coords] overwrites the grid it is given. *)
Variable normalize_in_place : bool.

Definition transform_grid_call (self : FrustumGridGenerator)
           (voxel_grid grid_to_lidar lidar_to_cam cam_to_img : obj) : M obj :=
  C <~ read lidar_to_cam ;;
  let B := hd 0 (shape C) in
  (* Create transformation matricies *)
  let V_G := grid_to_lidar in
  let C_V := lidar_to_cam in
  let I_C := cam_to_img in
  trans <~ Objects.matmul C_V V_G ;;
  (* Reshape to match dimensions *)
  trans <~ Objects.reshape trans [B; 1; 1; 4; 4] ;;
  voxel_grid <~ Objects.repeat_interleave voxel_grid B ;;
  (* Transform to camera frame *)
  camera_grid <~ Objects.transform_points trans voxel_grid ;;
  (* Project to image *)
  I_C <~ Objects.reshape I_C [B; 1; 1; 3; 4] ;;
  ' (image_grid, image_depths) <~ Objects.project_to_image I_C camera_grid ;;
  (* Convert depths to depth bins *)
  image_depths <~ Objects.fresh1
                    (fun d => Ok (bin_depths d (disc_cfg self))) image_depths ;;
  (* Stack to form frustum grid *)
  image_depths <~ Objects.unsqueeze_last image_depths ;;
  Objects.cat_last image_grid image_depths.

(** [self.voxel_grid.to(device)] and [self.grid_to_lidar.to(device)] are
    the tensors of the generator themselves. *)
Definition forward_call (self : instance) (lidar_to_cam cam_to_img : obj)
           (image_shape : tensor Z) : M obj :=
  frustum_grid <~ transform_grid_call (fields self) (voxel_grid_ref self)
                                      (grid_to_lidar_ref self)
                                      lidar_to_cam cam_to_img ;;
  (* Normalize grid *)
  image_shape <~ lift (max_dim0 image_shape) ;;
  let image_depth := of_list 0%Z [num_bins (disc_cfg (fields self))] in
  frustum_shape <~ lift (cat1 image_depth image_shape) ;;
  frustum_grid <~ Objects.normalize_coords normalize_in_place frustum_grid
                                           frustum_shape ;;
  (* Replace any NaNs or infinites with out of bounds *)
  _ <~ Objects.replace_not_finite frustum_grid
                                  (of_Z (out_of_bounds_val (fields self))) ;;
  ret frustum_grid.

End Forward.

(** An object whose storage is in the heap, and a heap that has grown from
    another without a change to what was there. *)
Definition valid (o : obj) (h : heap) : Prop := cell o < length h.

Definition extends (h h' : heap) : Prop :=
  length h <= length h'
  /\ forall c, c < length h -> load c h' = load c h.

(** The objects of the generator hold the tensors it was built with. *)
Definition intact (self : instance) (h : heap) : Prop :=
  valid (voxel_grid_ref self) h
  /\ valid (grid_to_lidar_ref self) h
  /\ value (voxel_grid_ref self) h = voxel_grid (fields self)
  /\ value (grid_to_lidar_ref self) h = grid_to_lidar (fields self).

(* ------------------------------------------------------------------ *)
(** ** The computation for one voxel

    What the batched pipeline computes, written for a single camera [b] and a
    single voxel [(x, y, z)] in the words of the spec: 4x4 and 3x4 matrices
    as functions of row and column, points as functions of the coordinate. *)

Module Pointwise.

Definition mat (t : tensor num) (b : nat) : nat -> nat -> num :=
  fun i j => elem t [b; i; j].

Definition mat2 (t : tensor num) : nat -> nat -> num :=
  fun i j => elem t [i; j].

Definition mat_mul (a b : nat -> nat -> num) : nat -> nat -> num :=
  fun i j => sum_n 4 (fun k => a i k * b k j)%num.

Definition mat_vec (a : nat -> nat -> num) (v : nat -> num) : nat -> num :=
  fun i => sum_n 4 (fun k => a i k * v k)%num.

Definition homogeneous (p : nat -> num) : nat -> num :=
  fun k => if k <? 3 then p k else one.

Definition dehomogenize (h : nat -> num) : nat -> num :=
  fun k => ((if gtb (Num.abs (h 3)) kornia.eps then one / h 3 else one)
            * h k)%num.

(** The centre of voxel [(x, y, z)] of the shared grid. *)
Definition voxel_center (vg : tensor num) (x y z : nat) : nat -> num :=
  fun k => elem vg [0; x; y; z; k].

(** Camera-frame coordinates: the combined matrix
    [lidar_to_cam\[b\] . grid_to_lidar] applied to the voxel centre. *)
Definition camera_point (V_G C_V vg : tensor num) (b x y z : nat)
  : nat -> num :=
  dehomogenize
    (mat_vec (mat_mul (mat C_V b) (mat2 V_G))
             (homogeneous (voxel_center vg x y z))).

(** Homogeneous image coordinates [(u*w, v*w, w)]. *)
Definition image_point (V_G C_V I_C vg : tensor num) (b x y z : nat)
  : nat -> num :=
  mat_vec (mat I_C b) (homogeneous (camera_point V_G C_V vg b x y z)).

(** Maximum of column [c] of the image shapes over the batch. *)
Definition batch_max (image_shape : tensor Z) (c : nat) : Z :=
  fold_left (fun m i => Z.max m (elem image_shape [i; c]))
            (seq 1 (hd 0 (shape image_shape) - 1))
            (elem image_shape [0; c]).

(** Reference extent of coordinate [c] of a triple [(u, v, depth_bin)]:
    the largest width for [u], the largest height for [v], the number of
    bins for [depth_bin]; image shapes are rows [(height, width)]. *)
Definition reference_extent (cfg : DepthDiscConfig) (image_shape : tensor Z)
           (c : nat) : Z :=
  match c with
  | 0 => batch_max image_shape 1
  | 1 => batch_max image_shape 0
  | _ => num_bins cfg
  end.

(** [2 * raw / (extent - 1) - 1] *)
Definition normalize (raw : num) (extent : Z) : num :=
  (of_Z 2 * raw / of_Z (extent - 1) - one)%num.

Definition sentinel : num := of_Z (-2).

Definition sentinelize (v : Z) (x : num) : num :=
  if Num.isfinite x then x else of_Z v.

(** A value that is finite and within [\[-1, 1\]]. *)
Definition in_range (x : num) : bool :=
  Num.isfinite x && negb (gtb x one) && negb (ltb x (of_Z (-1))).

(** A triple that is entirely in range or entirely the sentinel. *)
Definition coherent_triple (u v d : num) : bool :=
  (in_range u && in_range v && in_range d)
  || (Num.eqb u sentinel && Num.eqb v sentinel && Num.eqb d sentinel).

End Pointwise.

Export Pointwise.

(* ------------------------------------------------------------------ *)
(** ** What construction establishes *)

(** The facts about a generator built from a grid size [(X, Y, Z)], a point
    cloud range [(a, b, c)]-[(d, e, f)] and a discretisation [cfg]. *)
Record built (X Y Z : Z) (a b c d e f : Qc) (cfg : DepthDiscConfig)
       (g : FrustumGridGenerator) : Prop := {
  built_shape :
    shape (voxel_grid g) = [1; Z.to_nat X; Z.to_nat Y; Z.to_nat Z; 3];
  built_centers :
    forall i x y z,
      x < Z.to_nat X -> y < Z.to_nat Y -> z < Z.to_nat Z ->
      elem (voxel_grid g) [i; x; y; z; 0] = (of_nat x + half)%num
      /\ elem (voxel_grid g) [i; x; y; z; 1] = (of_nat y + half)%num
      /\ elem (voxel_grid g) [i; x; y; z; 2] = (of_nat z + half)%num;
  built_voxel_size :
    shape (voxel_size g) = [3]
    /\ elem (voxel_size g) [0] = ((Fin d - Fin a) / of_Z X)%num
    /\ elem (voxel_size g) [1] = ((Fin e - Fin b) / of_Z Y)%num
    /\ elem (voxel_size g) [2] = ((Fin f - Fin c) / of_Z Z)%num;
  built_grid_to_lidar :
    grid_to_lidar g
    = of_rows NaN 4
        [[elem (voxel_size g) [0]; zero; zero; Fin a];
         [zero; elem (voxel_size g) [1]; zero; Fin b];
         [zero; zero; elem (voxel_size g) [2]; Fin c];
         [zero; zero; zero; one]];
  built_out_of_bounds : out_of_bounds_val g = (-2)%Z;
  built_disc_cfg : disc_cfg g = cfg
}.

Arguments built_shape {X Y Z a b c d e f cfg g} _.
Arguments built_centers {X Y Z a b c d e f cfg g} _.
Arguments built_voxel_size {X Y Z a b c d e f cfg g} _.
Arguments built_grid_to_lidar {X Y Z a b c d e f cfg g} _.
Arguments built_out_of_bounds {X Y Z a b c d e f cfg g} _.
Arguments built_disc_cfg {X Y Z a b c d e f cfg g} _.

(* ------------------------------------------------------------------ *)
(** ** Concrete configurations and inputs *)

(** Evaluation of a test on the result of a computation that may raise. *)
Definition check {A : Type} (r : result A) (p : A -> bool) : bool :=
  match r with
  | Ok a => p a
  | Raise _ => false
  end.

Module Scenario.

Definition q (z : Z) : Qc := Q2Qc (inject_Z z).

(** [disc_cfg] with two bins over the depths [\[0, 2\]]. *)
Definition cfg : DepthDiscConfig :=
  {| mode := "UD"; num_bins := 2; depth_min := q 0; depth_max := q 2 |}.

Definition grid : list Z := [2; 2; 2]%Z.

(** [pc_range = \[0, 0, 0, 2, 2, 2\]] *)
Definition pc : list Qc := [q 0; q 0; q 0; q 2; q 2; q 2].

(** A range whose x extent is empty: [x_max = x_min = 0]. *)
Definition pc_flat : list Qc := [q 0; q 0; q 0; q 0; q 2; q 2].

Definition matrix (rows : list (list Qc)) : tensor num :=
  of_rows NaN 4 (map (map Fin) rows).

(** One camera with the identity as [lidar_to_cam]. *)
Definition identity : tensor num :=
  of_batch NaN [4; 4]
    [matrix [[q 1; q 0; q 0; q 0];
             [q 0; q 1; q 0; q 0];
             [q 0; q 0; q 1; q 0];
             [q 0; q 0; q 0; q 1]]].

(** One camera whose principal plane holds the centres of the first layer
    of voxels: the camera frame is the LiDAR frame moved by 1/2 along z. *)
Definition shifted : tensor num :=
  of_batch NaN [4; 4]
    [matrix [[q 1; q 0; q 0; q 0];
             [q 0; q 1; q 0; q 0];
             [q 0; q 0; q 1; (- Q2Qc (1 # 2))%Qc];
             [q 0; q 0; q 0; q 1]]].

(** [cam_to_img = \[\[1,0,0,0\],\[0,1,0,0\],\[0,0,1,0\]\]] for one camera,
    and for two. *)
Definition projection_matrix : tensor num :=
  matrix [[q 1; q 0; q 0; q 0];
          [q 0; q 1; q 0; q 0];
          [q 0; q 0; q 1; q 0]].

Definition projection : tensor num :=
  of_batch NaN [3; 4] [projection_matrix].

Definition projection2 : tensor num :=
  of_batch NaN [3; 4] [projection_matrix; projection_matrix].

(** Two cameras with the identity as [lidar_to_cam], and for both a
    [cam_to_img] with the principal point at [u = -1]: a point with
    [x = z] falls on the pixel column 0. *)
Definition identity2 : tensor num :=
  of_batch NaN [4; 4] [select0 identity 0; select0 identity 0].

Definition offset_matrix : tensor num :=
  matrix [[q 1; q 0; (- q 1)%Qc; q 0];
          [q 0; q 1; q 0; q 0];
          [q 0; q 0; q 1; q 0]].

Definition offset_projection2 : tensor num :=
  of_batch NaN [3; 4] [offset_matrix; offset_matrix].

(** [image_shape = \[\[2, 2\]\]], and the shapes of two cameras of
    different resolution. *)
Definition image_shape : tensor Z := of_rows 0%Z 2 [[2; 2]]%Z.

Definition image_shape2 : tensor Z := of_rows 0%Z 2 [[2; 2]; [4; 4]]%Z.

End Scenario.

(* ================================================================== *)
(** * Properties *)

Arguments Num.add : simpl never.
Arguments Num.sub : simpl never.
Arguments Num.mul : simpl never.
Arguments Num.div : simpl never.
Arguments Num.abs : simpl never.
Arguments Num.gtb : simpl never.
Arguments torch.int32 : simpl never.
Arguments torch.int64_range : simpl never.

(** ** Numbers *)

Lemma Qc_of_Z_neq0 (n : Z) : n <> 0%Z -> Q2Qc (inject_Z n) <> Q2Qc 0.
Proof.
  intros H E. apply Q2Qc_eq_iff in E. unfold Qeq in E. simpl in E. lia.
Qed.

Lemma Qc_eq_bool_neq (x y : Qc) : x <> y -> Qc_eq_bool x y = false.
Proof. intros H. unfold Qc_eq_bool. destruct (Qc_eq_dec x y); congruence. Qed.

Lemma Qc_eq_bool_refl (x : Qc) : Qc_eq_bool x x = true.
Proof. unfold Qc_eq_bool. destruct (Qc_eq_dec x x); congruence. Qed.

Lemma eqb_eq (x y : num) : Num.eqb x y = true -> x = y.
Proof.
  destruct x, y; simpl; try discriminate; auto.
  intros H. apply Qc_eq_bool_correct in H. congruence.
Qed.

Lemma eqb_neq (x y : num) : Num.eqb x y = false -> x <> y.
Proof.
  intros H E. subst. destruct y; simpl in H; try discriminate.
  rewrite Qc_eq_bool_refl in H. discriminate.
Qed.

Lemma Fin_inj (a b : Qc) : Fin a = Fin b -> a = b.
Proof.
  intros H. change a with (match Fin a with Fin q => q | _ => a end).
  rewrite H. reflexivity.
Qed.

Lemma div_fin (a b : Qc) :
  b <> Q2Qc 0 -> (Fin a / Fin b)%num = Fin (a / b)%Qc.
Proof. intros H. unfold Num.div. rewrite Qc_eq_bool_neq by assumption. reflexivity. Qed.

Lemma div_of_Z (a : Qc) (n : Z) :
  n <> 0%Z -> (Fin a / of_Z n)%num = Fin (a / Q2Qc (inject_Z n))%Qc.
Proof. intros H. apply div_fin, Qc_of_Z_neq0, H. Qed.

Lemma check_ok {A : Type} (r : result A) (p : A -> bool) :
  check r p = true -> exists a, r = Ok a /\ p a = true.
Proof. destruct r; simpl; [eauto | discriminate]. Qed.

(** ** Shapes, indices and broadcasting *)

Lemma shape_eqb_refl (s : list nat) : shape_eqb s s = true.
Proof. induction s; simpl; auto. rewrite Nat.eqb_refl; auto. Qed.

Lemma shape_eqb_eq (s1 s2 : list nat) : shape_eqb s1 s2 = true -> s1 = s2.
Proof.
  revert s2. induction s1 as [|a s1 IH]; intros [|b s2] H; simpl in H;
    try discriminate; auto.
  apply andb_true_iff in H as [H1 H2]. apply Nat.eqb_eq in H1.
  f_equal; auto.
Qed.

Lemma bsel (n i : nat) : i < n -> (if n =? 1 then 0 else i) = i.
Proof.
  intros H. destruct (n =? 1) eqn:E; auto. apply Nat.eqb_eq in E. lia.
Qed.

Lemma bdim_1_l (n : nat) : bdim 1 n = Some n.
Proof.
  unfold bdim. destruct (n =? 1) eqn:E; auto.
  apply Nat.eqb_eq in E. subst; auto.
Qed.

Lemma bdim_refl (n : nat) : bdim n n = Some n.
Proof.
  unfold bdim. destruct (n =? 1) eqn:E; auto. rewrite Nat.eqb_refl. auto.
Qed.

Lemma ravel_lt (s : list nat) :
  forall idx, in_bounds s idx = true -> ravel s idx < numel s.
Proof.
  induction s as [|n s IH]; intros [|i idx] H; simpl in *;
    try discriminate; try lia.
  apply andb_true_iff in H as [H1 H2]. apply Nat.ltb_lt in H1.
  specialize (IH _ H2). nia.
Qed.

Lemma unravel_ravel (s : list nat) :
  forall idx, in_bounds s idx = true -> unravel s (ravel s idx) = idx.
Proof.
  induction s as [|n s IH]; intros [|i idx] H; simpl in *;
    try discriminate; auto.
  apply andb_true_iff in H as [H1 H2].
  pose proof (ravel_lt s idx H2) as Hlt.
  assert (numel s <> 0) by lia.
  f_equal.
  - rewrite Nat.div_add_l by assumption.
    rewrite Nat.div_small by assumption. lia.
  - rewrite Nat.add_comm, Nat.Div0.mod_add, Nat.mod_small by assumption. auto.
Qed.

(** ** Reshaping *)

Lemma reshape_ok {A : Type} (t : tensor A) (s : list nat) :
  numel (shape t) = numel s -> exists r, reshape t s = Ok r.
Proof. intros H. unfold reshape. rewrite H, Nat.eqb_refl. eauto. Qed.

Lemma reshape_raise {A : Type} (t : tensor A) (s : list nat) :
  numel (shape t) <> numel s ->
  reshape t s = Raise (RuntimeError "shape is invalid for input size").
Proof.
  intros H. unfold reshape. apply Nat.eqb_neq in H. rewrite H. reflexivity.
Qed.

Lemma reshape_shape {A : Type} (t r : tensor A) (s : list nat) :
  reshape t s = Ok r -> shape r = s.
Proof.
  unfold reshape. destruct (numel (shape t) =? numel s); [|discriminate].
  intros E; inversion E; reflexivity.
Qed.

(** A reshape moves the element at an index to the index with the same
    row-major offset. *)
Lemma reshape_elem {A : Type} (t r : tensor A) (s idx idx' : list nat) :
  reshape t s = Ok r ->
  in_bounds (shape t) idx' = true ->
  ravel (shape t) idx' = ravel s idx ->
  elem r idx = elem t idx'.
Proof.
  unfold reshape. destruct (numel (shape t) =? numel s); [|discriminate].
  intros E Hb Hr. inversion E; subst r; clear E. simpl.
  rewrite <- Hr, unravel_ravel by assumption. reflexivity.
Qed.

(** ** The mesh grid *)

Lemma linspace_ok (n : Z) :
  (0 <= n)%Z ->
  exists t, linspace zero (of_Z (n - 1)) n = Ok t
    /\ shape t = [Z.to_nat n]
    /\ forall i, i < Z.to_nat n -> elem t [i] = of_nat i.
Proof.
  intros Hn. unfold linspace.
  destruct (n <? 0)%Z eqn:E; [lia|].
  eexists; split; [reflexivity | split; [reflexivity|]].
  intros i Hi. cbn [elem hd]. destruct (n =? 1)%Z eqn:E1.
  - apply Z.eqb_eq in E1. subst. assert (i = 0) by lia. subst. reflexivity.
  - apply Z.eqb_neq in E1.
    assert (Hn1 : (n - 1 <> 0)%Z) by lia.
    unfold of_nat, of_Z, Num.sub, zero.
    cbn [Num.opp]. unfold Num.add at 2. rewrite div_fin by (apply Qc_of_Z_neq0, Hn1).
    unfold Num.mul, Num.add. f_equal. field. apply Qc_of_Z_neq0, Hn1.
Qed.

Lemma linspace_raise (start stop : num) (n : Z) :
  (n < 0)%Z ->
  linspace start stop n
  = Raise (RuntimeError "number of steps must be non-negative").
Proof.
  intros Hn. unfold linspace. apply Z.ltb_lt in Hn. rewrite Hn. reflexivity.
Qed.

(** [create_meshgrid3d] has shape [(1, D, H, W, 3)] and holds at
    [(d, h, w)] the indices in the order (depth, width, height). *)
Lemma create_meshgrid3d_spec (d h w : Z) :
  (0 <= d)%Z -> (0 <= h)%Z -> (0 <= w)%Z ->
  exists t, kornia.create_meshgrid3d d h w = Ok t
    /\ shape t = [1; Z.to_nat d; Z.to_nat h; Z.to_nat w; 3]
    /\ forall i di hi wi,
         di < Z.to_nat d -> hi < Z.to_nat h -> wi < Z.to_nat w ->
         elem t [i; di; hi; wi; 0] = of_nat di
         /\ elem t [i; di; hi; wi; 1] = of_nat wi
         /\ elem t [i; di; hi; wi; 2] = of_nat hi.
Proof.
  intros Hd Hh Hw. unfold kornia.create_meshgrid3d.
  destruct (linspace_ok w Hw) as (xs & -> & Sx & Ex).
  destruct (linspace_ok h Hh) as (ys & -> & Sy & Ey).
  destruct (linspace_ok d Hd) as (zs & -> & Sz & Ez).
  simpl. unfold meshgrid3. rewrite Sx, Sy, Sz. simpl.
  rewrite !Nat.eqb_refl. simpl.
  eexists; split; [reflexivity | split; [reflexivity|]].
  intros i di hi wi Hdi Hhi Hwi. simpl. auto.
Qed.

(** ** Construction *)

Lemma permute_xzy_xyz (mesh : tensor num) (n0 n1 n2 n3 n4 : nat) :
  shape mesh = [n0; n1; n2; n3; n4] ->
  exists permuted, permute mesh [0; 1; 3; 2; 4] = Ok permuted
    /\ shape permuted = [n0; n1; n3; n2; n4]
    /\ forall i x y z c,
         elem permuted [i; x; y; z; c] = elem mesh [i; x; z; y; c].
Proof.
  intros S. unfold permute. rewrite S. simpl.
  eexists. split; [reflexivity|]. split; reflexivity.
Qed.

(** ** The narrowing of the grid size *)

Lemma int32_small (z : Z) : (- 2 ^ 31 <= z < 2 ^ 31)%Z -> int32 z = z.
Proof.
  intros H. unfold int32. rewrite Z.mod_small by lia. lia.
Qed.

Lemma int32_bounds (z : Z) : (- 2 ^ 31 <= int32 z < 2 ^ 31)%Z.
Proof.
  unfold int32.
  pose proof (Z.mod_pos_bound (z + 2 ^ 31) (2 ^ 32) ltac:(lia)). lia.
Qed.

Lemma int64_range_spec (z : Z) :
  int64_range z = true <-> (- 2 ^ 63 <= z < 2 ^ 63)%Z.
Proof.
  unfold int64_range. rewrite andb_true_iff, Z.leb_le, Z.ltb_lt. tauto.
Qed.

Lemma int64_range_small (z : Z) :
  (- 2 ^ 31 <= z < 2 ^ 31)%Z -> int64_range z = true.
Proof. intros H. apply int64_range_spec. lia. Qed.

Lemma as_tensor_ok (l : list Z) :
  forallb int64_range l = true -> as_tensor l = Ok (of_list 0%Z l).
Proof. intros H. unfold as_tensor. rewrite H. reflexivity. Qed.

Lemma as_tensor_raise (l : list Z) :
  forallb int64_range l = false ->
  as_tensor l = Raise (RuntimeError "Overflow when unpacking long").
Proof. intros H. unfold as_tensor. rewrite H. reflexivity. Qed.

(** Construction succeeds for every grid size of three 64-bit integers
    whose 32-bit narrowings are not negative and every range of six
    numbers; nothing else is checked.  The voxel grid has the narrowed
    sizes, the voxel size is computed from the sizes as given. *)
Lemma init_wrapped (X Y Z : Z) (a b c d e f : Qc) (cfg : DepthDiscConfig) :
  int64_range X = true -> int64_range Y = true -> int64_range Z = true ->
  (0 <= int32 X)%Z -> (0 <= int32 Y)%Z -> (0 <= int32 Z)%Z ->
  exists g mesh permuted,
    __init__ [X; Y; Z] [a; b; c; d; e; f] cfg = Ok g
    /\ kornia.create_meshgrid3d (int32 X) (int32 Z) (int32 Y) = Ok mesh
    /\ permute mesh [0; 1; 3; 2; 4] = Ok permuted
    /\ voxel_grid g = add_scalar permuted half
    /\ shape (voxel_grid g)
       = [1; Z.to_nat (int32 X); Z.to_nat (int32 Y); Z.to_nat (int32 Z); 3]
    /\ (forall i x y z,
          x < Z.to_nat (int32 X) -> y < Z.to_nat (int32 Y) ->
          z < Z.to_nat (int32 Z) ->
          elem (voxel_grid g) [i; x; y; z; 0] = (of_nat x + half)%num
          /\ elem (voxel_grid g) [i; x; y; z; 1] = (of_nat y + half)%num
          /\ elem (voxel_grid g) [i; x; y; z; 2] = (of_nat z + half)%num)
    /\ (shape (voxel_size g) = [3]
        /\ elem (voxel_size g) [0] = ((Fin d - Fin a) / of_Z X)%num
        /\ elem (voxel_size g) [1] = ((Fin e - Fin b) / of_Z Y)%num
        /\ elem (voxel_size g) [2] = ((Fin f - Fin c) / of_Z Z)%num)
    /\ grid_to_lidar g
       = of_rows NaN 4
           [[elem (voxel_size g) [0]; zero; zero; Fin a];
            [zero; elem (voxel_size g) [1]; zero; Fin b];
            [zero; zero; elem (voxel_size g) [2]; Fin c];
            [zero; zero; zero; one]]
    /\ out_of_bounds_val g = (-2)%Z
    /\ disc_cfg g = cfg.
Proof.
  intros RX RY RZ HX HY HZ.
  destruct (create_meshgrid3d_spec (int32 X) (int32 Z) (int32 Y) HX HZ HY)
    as (mesh & Hm & Sm & Em).
  destruct (permute_xzy_xyz mesh _ _ _ _ _ Sm) as (permuted & Hp & Sp & Ep).
  eexists; exists mesh, permuted.
  split.
  { unfold __init__. rewrite as_tensor_ok by (simpl; rewrite RX, RY, RZ; reflexivity).
    simpl. rewrite Hm. simpl. rewrite Hp. simpl. reflexivity. }
  split; [assumption|]. split; [assumption|]. split; [reflexivity|].
  split; [simpl; assumption|].
  split.
  { intros i x y z Hx Hy Hz. simpl. rewrite !Ep.
    destruct (Em i x z y Hx Hz Hy) as (E0 & E1 & E2).
    rewrite E0, E1, E2. auto. }
  split; [simpl; repeat split; reflexivity|].
  repeat split; reflexivity.
Qed.

(** For sizes that are 32-bit integers the narrowing changes nothing. *)
Lemma init_spec (X Y Z : Z) (a b c d e f : Qc) (cfg : DepthDiscConfig) :
  (0 <= X < 2 ^ 31)%Z -> (0 <= Y < 2 ^ 31)%Z -> (0 <= Z < 2 ^ 31)%Z ->
  exists g mesh permuted,
    __init__ [X; Y; Z] [a; b; c; d; e; f] cfg = Ok g
    /\ kornia.create_meshgrid3d X Z Y = Ok mesh
    /\ permute mesh [0; 1; 3; 2; 4] = Ok permuted
    /\ voxel_grid g = add_scalar permuted half
    /\ built X Y Z a b c d e f cfg g.
Proof.
  intros HX HY HZ.
  destruct (init_wrapped X Y Z a b c d e f cfg)
    as (g & mesh & permuted & Hg & Hm & Hp & Hv & Sg & Eg & Vg & Gg & Og & Cg);
    try (apply int64_range_small; lia);
    try (rewrite int32_small by lia; lia).
  rewrite !int32_small in * by lia.
  exists g, mesh, permuted. repeat (split; [assumption|]).
  constructor; assumption.
Qed.

(** A grid size with a component whose narrowing is negative is rejected
    by the mesh-grid primitive, which is asked for a negative number of
    steps. *)
Lemma init_negative (X Y Z : Z) (a b c d e f : Qc) (cfg : DepthDiscConfig) :
  int64_range X = true -> int64_range Y = true -> int64_range Z = true ->
  (int32 X < 0)%Z \/ (int32 Y < 0)%Z \/ (int32 Z < 0)%Z ->
  __init__ [X; Y; Z] [a; b; c; d; e; f] cfg
  = Raise (RuntimeError "number of steps must be non-negative").
Proof.
  intros RX RY RZ H. unfold __init__.
  rewrite as_tensor_ok by (simpl; rewrite RX, RY, RZ; reflexivity).
  simpl. unfold kornia.create_meshgrid3d.
  destruct (Z_lt_dec (int32 Y) 0) as [HY|HY].
  { rewrite (linspace_raise _ _ _ HY). reflexivity. }
  destruct (linspace_ok (int32 Y) ltac:(lia)) as (xs & -> & _).
  destruct (Z_lt_dec (int32 Z) 0) as [HZ|HZ].
  { rewrite (linspace_raise _ _ _ HZ). reflexivity. }
  destruct (linspace_ok (int32 Z) ltac:(lia)) as (ys & -> & _).
  assert (HX : (int32 X < 0)%Z) by lia.
  rewrite (linspace_raise _ _ _ HX). reflexivity.
Qed.

(** A grid size with a component that is not a 64-bit integer is refused
    before anything else is done. *)
Lemma init_overflow (grid_size : list Z) (pc_range : list Qc)
      (cfg : DepthDiscConfig) :
  forallb int64_range grid_size = false ->
  __init__ grid_size pc_range cfg
  = Raise (RuntimeError "Overflow when unpacking long").
Proof.
  intros H. unfold __init__. rewrite as_tensor_raise by assumption.
  reflexivity.
Qed.

(** What construction has accepted. *)
Lemma init_accepted (X Y Z : Z) (a b c d e f : Qc) (cfg : DepthDiscConfig)
      (g : FrustumGridGenerator) :
  __init__ [X; Y; Z] [a; b; c; d; e; f] cfg = Ok g ->
  int64_range X = true /\ int64_range Y = true /\ int64_range Z = true
  /\ (0 <= int32 X)%Z /\ (0 <= int32 Y)%Z /\ (0 <= int32 Z)%Z.
Proof.
  intros H.
  destruct (forallb int64_range [X; Y; Z]) eqn:R;
    [|rewrite init_overflow in H by assumption; discriminate].
  simpl in R. rewrite !andb_true_iff in R. destruct R as (RX & RY & RZ & _).
  repeat (split; [assumption|]).
  destruct (Z_lt_dec (int32 X) 0) as [HX|HX];
    [rewrite init_negative in H by auto; discriminate|].
  destruct (Z_lt_dec (int32 Y) 0) as [HY|HY];
    [rewrite init_negative in H by auto; discriminate|].
  destruct (Z_lt_dec (int32 Z) 0) as [HZ|HZ];
    [rewrite init_negative in H by auto; discriminate|].
  lia.
Qed.

Lemma init_inv (X Y Z : Z) (a b c d e f : Qc) (cfg : DepthDiscConfig)
      (g : FrustumGridGenerator) :
  (- 2 ^ 31 <= X < 2 ^ 31)%Z -> (- 2 ^ 31 <= Y < 2 ^ 31)%Z ->
  (- 2 ^ 31 <= Z < 2 ^ 31)%Z ->
  __init__ [X; Y; Z] [a; b; c; d; e; f] cfg = Ok g ->
  built X Y Z a b c d e f cfg g.
Proof.
  intros RX RY RZ H.
  assert (N : (0 <= X)%Z /\ (0 <= Y)%Z /\ (0 <= Z)%Z).
  { destruct (Z_lt_dec X 0) as [HX|HX];
      [rewrite init_negative in H
         by (try (apply int64_range_small; lia);
             rewrite !int32_small by lia; auto); discriminate|].
    destruct (Z_lt_dec Y 0) as [HY|HY];
      [rewrite init_negative in H
         by (try (apply int64_range_small; lia);
             rewrite !int32_small by lia; auto); discriminate|].
    destruct (Z_lt_dec Z 0) as [HZ|HZ];
      [rewrite init_negative in H
         by (try (apply int64_range_small; lia);
             rewrite !int32_small by lia; auto); discriminate|].
    lia. }
  destruct (init_spec X Y Z a b c d e f cfg)
    as (g' & _ & _ & Hg & _ & _ & _ & Hb); try lia.
  rewrite Hg in H. inversion H; subst. exact Hb.
Qed.

(** ** The stages of [transform_grid] *)

(** [C_V @ V_G], reshaped to [(B, 1, 1, 4, 4)], holds for every camera the
    product of its matrix with the grid-to-LiDAR matrix. *)
Lemma trans_spec (C_V V_G : tensor num) (B : nat) :
  shape C_V = [B; 4; 4] -> shape V_G = [4; 4] ->
  exists prod trans,
    matmul C_V V_G = Ok prod /\ reshape prod [B; 1; 1; 4; 4] = Ok trans
    /\ shape trans = [B; 1; 1; 4; 4]
    /\ (forall b i j, b < B ->
          elem prod [b; i; j] = mat_mul (mat C_V b) (mat2 V_G) i j)
    /\ forall b i j, b < B -> i < 4 -> j < 4 ->
         elem trans [b; 0; 0; i; j] = mat_mul (mat C_V b) (mat2 V_G) i j.
Proof.
  intros SC SV.
  assert (Hm : exists prod, matmul C_V V_G = Ok prod /\ shape prod = [B; 4; 4]
            /\ forall b i j, b < B ->
                 elem prod [b; i; j] = mat_mul (mat C_V b) (mat2 V_G) i j).
  { unfold matmul. rewrite SC, SV. simpl.
    eexists; split; [reflexivity | split; [reflexivity|]].
    intros b i j Hb. simpl. rewrite (bsel B b Hb). reflexivity. }
  destruct Hm as (prod & Hm & Sp & Ep).
  destruct (reshape_ok prod [B; 1; 1; 4; 4]) as (trans & Ht).
  { rewrite Sp. simpl. lia. }
  exists prod, trans. split; [assumption|]. split; [assumption|].
  split; [eapply reshape_shape; eauto|]. split; [assumption|].
  intros b i j Hb Hi Hj. rewrite <- Ep by assumption.
  eapply reshape_elem; eauto.
  - rewrite Sp. simpl. rewrite !andb_true_iff, !Nat.ltb_lt. auto.
  - rewrite Sp. simpl. lia.
Qed.

(** The shared grid, of leading dimension one, is repeated for every
    camera. *)
Lemma repeat_interleave_spec (vg : tensor num) (B X Y Z : nat) :
  shape vg = [1; X; Y; Z; 3] ->
  shape (repeat_interleave vg B) = [B; X; Y; Z; 3]
  /\ forall b x y z c, b < B ->
       elem (repeat_interleave vg B) [b; x; y; z; c] = elem vg [0; x; y; z; c].
Proof.
  intros S. unfold repeat_interleave. rewrite S. simpl. rewrite Nat.add_0_r.
  split; [reflexivity|]. intros b x y z c Hb.
  rewrite Nat.div_small by assumption. reflexivity.
Qed.

Lemma transform_points_spec (trans pts : tensor num) (B X Y Z : nat) :
  shape trans = [B; 1; 1; 4; 4] -> shape pts = [B; X; Y; Z; 3] ->
  exists out, kornia.transform_points trans pts = Ok out
    /\ shape out = [B; X; Y; Z; 3]
    /\ forall b x y z c, b < B -> x < X -> y < Y -> z < Z -> c < 3 ->
         elem out [b; x; y; z; c]
         = dehomogenize
             (mat_vec (fun i j => elem trans [b; 0; 0; i; j])
                      (homogeneous (fun k => elem pts [b; x; y; z; k]))) c.
Proof.
  intros St Sp. unfold kornia.transform_points. rewrite St, Sp.
  simpl. rewrite Nat.eqb_refl. simpl.
  unfold kornia.convert_points_to_homogeneous. rewrite Sp. simpl.
  unfold matmul. simpl. rewrite St. simpl.
  rewrite !bdim_1_l, bdim_refl. simpl.
  unfold kornia.convert_points_from_homogeneous, squeeze_last. simpl.
  unfold torch.mul, broadcast2. simpl. rewrite !bdim_refl. simpl.
  eexists; split; [reflexivity | split; [reflexivity|]].
  intros b x y z c Hb Hx Hy Hz Hc.
  unfold bindex. simpl.
  rewrite !(bsel B b Hb), !(bsel X x Hx), !(bsel Y y Hy), !(bsel Z z Hz).
  destruct c as [|[|[|c]]]; try lia; reflexivity.
Qed.

Lemma project_to_image_spec (proj pts : tensor num) (B X Y Z : nat) :
  shape proj = [B; 1; 1; 3; 4] -> shape pts = [B; X; Y; Z; 3] ->
  exists img dep, project_to_image proj pts = Ok (img, dep)
    /\ shape img = [B; X; Y; Z; 2] /\ shape dep = [B; X; Y; Z]
    /\ forall b x y z, b < B -> x < X -> y < Y -> z < Z ->
         let h := mat_vec (fun i j => elem proj [b; 0; 0; i; j])
                          (homogeneous (fun k => elem pts [b; x; y; z; k])) in
         elem img [b; x; y; z; 0] = (h 0 / h 2)%num
         /\ elem img [b; x; y; z; 1] = (h 1 / h 2)%num
         /\ elem dep [b; x; y; z] = h 2.
Proof.
  intros St Sp. unfold project_to_image.
  unfold kornia.convert_points_to_homogeneous. rewrite Sp. simpl.
  unfold matmul. simpl. rewrite St. simpl.
  rewrite !bdim_1_l, bdim_refl. simpl.
  unfold squeeze_last. simpl.
  unfold torch.div, broadcast2. simpl. rewrite !bdim_refl. simpl.
  eexists; eexists;
    split; [reflexivity | split; [reflexivity | split; [reflexivity|]]].
  intros b x y z Hb Hx Hy Hz.
  unfold bindex. simpl.
  rewrite !(bsel B b Hb), !(bsel X x Hx), !(bsel Y y Hy), !(bsel Z z Hz).
  repeat split; reflexivity.
Qed.

Section Pipeline.

Variable bin_depth : DepthDiscConfig -> num -> num.

(** The whole of [transform_grid]: it returns, and every element of its
    result is the per-voxel computation. *)
Lemma transform_grid_spec (self : FrustumGridGenerator)
      (vg V_G C_V I_C : tensor num) (B X Y Z : nat) :
  shape vg = [1; X; Y; Z; 3] -> shape V_G = [4; 4] ->
  shape C_V = [B; 4; 4] -> shape I_C = [B; 3; 4] ->
  exists out, transform_grid bin_depth self vg V_G C_V I_C = Ok out
    /\ shape out = [B; X; Y; Z; 3]
    /\ forall b x y z, b < B -> x < X -> y < Y -> z < Z ->
         let h := image_point V_G C_V I_C vg b x y z in
         elem out [b; x; y; z; 0] = (h 0 / h 2)%num
         /\ elem out [b; x; y; z; 1] = (h 1 / h 2)%num
         /\ elem out [b; x; y; z; 2] = bin_depth (disc_cfg self) (h 2).
Proof.
  intros Sg SV SC SI.
  destruct (trans_spec C_V V_G B SC SV)
    as (prod & trans & Hm & Hr & St & _ & Et).
  destruct (repeat_interleave_spec vg B X Y Z Sg) as (Srep & Erep).
  destruct (transform_points_spec trans _ B X Y Z St Srep)
    as (cam & Hc & Scam & Ecam).
  destruct (reshape_ok I_C [B; 1; 1; 3; 4]) as (proj & Hp).
  { rewrite SI. simpl. lia. }
  pose proof (reshape_shape _ _ _ Hp) as Sproj.
  destruct (project_to_image_spec proj cam B X Y Z Sproj Scam)
    as (img & dep & Hi & Simg & Sdep & Ei).
  unfold transform_grid. rewrite SC. simpl. rewrite Hm. simpl.
  rewrite Hr. simpl. rewrite Hc. simpl. rewrite Hp. simpl.
  rewrite Hi. simpl.
  unfold cat_last, unsqueeze_last, bin_depths. simpl.
  rewrite Simg, Sdep. simpl. rewrite !Nat.eqb_refl. simpl.
  eexists; split; [reflexivity | split; [reflexivity|]].
  intros b x y z Hb Hx Hy Hz. simpl.
  destruct (Ei b x y z Hb Hx Hy Hz) as (E0 & E1 & E2).
  assert (Hh : forall i, i < 3 ->
            mat_vec (fun i j => elem proj [b; 0; 0; i; j])
                    (homogeneous (fun k => elem cam [b; x; y; z; k])) i
            = image_point V_G C_V I_C vg b x y z i).
  { intros i Hi3. unfold image_point, mat_vec, homogeneous, mat. simpl.
    assert (Hcam : forall k, k < 3 ->
              elem cam [b; x; y; z; k] = camera_point V_G C_V vg b x y z k).
    { intros k Hk. rewrite Ecam by assumption.
      unfold camera_point, dehomogenize, mat_vec, homogeneous, voxel_center.
      simpl. rewrite !Erep by assumption. rewrite !Et by lia. reflexivity. }
    rewrite !Hcam by lia.
    assert (Hproj : forall j, j < 4 ->
              elem proj [b; 0; 0; i; j] = elem I_C [b; i; j]).
    { intros j Hj. eapply reshape_elem; eauto.
      - rewrite SI. simpl. rewrite !andb_true_iff, !Nat.ltb_lt. auto.
      - rewrite SI. simpl. lia. }
    rewrite !Hproj by lia. reflexivity. }
  rewrite E0, E1, E2. rewrite !Hh by lia. auto.
Qed.

(** A batch of projection matrices that does not match the batch of
    camera matrices makes the reshape of [transform_grid] raise. *)
Lemma transform_grid_mismatch (self : FrustumGridGenerator)
      (vg V_G C_V I_C : tensor num) (B B' X Y Z : nat) :
  shape vg = [1; X; Y; Z; 3] -> shape V_G = [4; 4] ->
  shape C_V = [B; 4; 4] -> shape I_C = [B'; 3; 4] -> B' <> B ->
  transform_grid bin_depth self vg V_G C_V I_C
  = Raise (RuntimeError "shape is invalid for input size").
Proof.
  intros Sg SV SC SI Hne.
  destruct (trans_spec C_V V_G B SC SV)
    as (prod & trans & Hm & Hr & St & _ & _).
  destruct (repeat_interleave_spec vg B X Y Z Sg) as (Srep & _).
  destruct (transform_points_spec trans _ B X Y Z St Srep)
    as (cam & Hc & _ & _).
  unfold transform_grid. rewrite SC. simpl. rewrite Hm. simpl.
  rewrite Hr. simpl. rewrite Hc. simpl.
  rewrite reshape_raise; [reflexivity|].
  rewrite SI. simpl. lia.
Qed.

(** The whole of [forward]: every element of the result is the raw
    coordinate, normalised against its reference extent, with the
    out-of-bounds value in place of a normalised value that is not
    finite. *)
Lemma forward_spec (self : FrustumGridGenerator)
      (C_V I_C : tensor num) (image_shape : tensor Z) (B X Y Z n : nat) :
  shape (voxel_grid self) = [1; X; Y; Z; 3] ->
  shape (grid_to_lidar self) = [4; 4] ->
  shape C_V = [B; 4; 4] -> shape I_C = [B; 3; 4] ->
  shape image_shape = [S n; 2] ->
  exists raw out,
    transform_grid bin_depth self (voxel_grid self) (grid_to_lidar self)
                   C_V I_C = Ok raw
    /\ forward bin_depth self C_V I_C image_shape = Ok out
    /\ shape out = [B; X; Y; Z; 3]
    /\ forall b x y z c, b < B -> x < X -> y < Y -> z < Z -> c < 3 ->
         elem out [b; x; y; z; c]
         = sentinelize (out_of_bounds_val self)
             (normalize (elem raw [b; x; y; z; c])
                        (reference_extent (disc_cfg self) image_shape c)).
Proof.
  intros Sg SV SC SI Sh.
  destruct (transform_grid_spec self _ _ _ _ B X Y Z Sg SV SC SI)
    as (raw & Hraw & Sraw & _).
  exists raw. unfold forward. rewrite Hraw. simpl.
  unfold max_dim0. rewrite Sh. simpl.
  unfold cat1, cat_last. simpl.
  unfold normalize_coords, torch.div, broadcast2. simpl.
  rewrite Sraw. simpl.
  eexists; split; [reflexivity | split; [reflexivity | split; [reflexivity|]]].
  intros b x y z c Hb Hx Hy Hz Hc. unfold bindex. simpl.
  rewrite !(bsel B b Hb), !(bsel X x Hx), !(bsel Y y Hy), !(bsel Z z Hz).
  unfold sentinelize, normalize, reference_extent, batch_max.
  rewrite Sh. simpl. rewrite Nat.sub_0_r.
  destruct c as [|[|[|c]]]; try lia; simpl;
    match goal with
    | |- (if negb (Num.isfinite ?a) then _ else _) = _ =>
        destruct (Num.isfinite a)
    end; reflexivity.
Qed.

Lemma forward_mismatch (self : FrustumGridGenerator)
      (C_V I_C : tensor num) (image_shape : tensor Z) (B B' X Y Z : nat) :
  shape (voxel_grid self) = [1; X; Y; Z; 3] ->
  shape (grid_to_lidar self) = [4; 4] ->
  shape C_V = [B; 4; 4] -> shape I_C = [B'; 3; 4] -> B' <> B ->
  forward bin_depth self C_V I_C image_shape
  = Raise (RuntimeError "shape is invalid for input size").
Proof.
  intros Sg SV SC SI Hne. unfold forward.
  rewrite (transform_grid_mismatch self _ _ _ _ B B' X Y Z Sg SV SC SI Hne).
  reflexivity.
Qed.

End Pipeline.

(** ** Construction: voxel grid, voxel size and grid-to-LiDAR matrix *)

Lemma Qc_of_Z_pos (n : Z) : (0 < n)%Z -> (Q2Qc 0 < Q2Qc (inject_Z n))%Qc.
Proof.
  intros H. unfold Qclt, Q2Qc. cbn [this]. rewrite !Qred_correct.
  unfold Qlt. simpl. lia.
Qed.

(** An extent [hi - lo] that is not positive gives a voxel size that is not
    positive. *)
Lemma voxel_size_nonpos (lo hi : Qc) (n : Z) :
  (0 < n)%Z -> (hi <= lo)%Qc ->
  exists v, ((Fin hi - Fin lo) / of_Z n)%num = Fin v /\ (v <= Q2Qc 0)%Qc.
Proof.
  intros Hn Hle. exists ((hi - lo) / Q2Qc (inject_Z n))%Qc. split.
  - unfold Num.sub. cbn [Num.opp]. unfold Num.add.
    rewrite div_of_Z by lia. reflexivity.
  - pose proof (Qc_of_Z_pos n Hn) as Hp.
    apply Qcmult_lt_0_le_reg_r with (z := Q2Qc (inject_Z n)); [assumption|].
    assert (Hz : Q2Qc (inject_Z n) <> Q2Qc 0) by (apply Qc_of_Z_neq0; lia).
    replace ((hi - lo) / Q2Qc (inject_Z n) * Q2Qc (inject_Z n))%Qc
      with (hi + - lo)%Qc by (field; assumption).
    rewrite Qcmult_0_l. rewrite <- (Qcplus_opp_r lo).
    apply Qcplus_le_compat; [assumption | apply Qcle_refl].
Qed.

(** C5, as the code has it: the mesh grid is built from [grid_size.int()];
    a grid size of [2^32] along x is narrowed to 0, and the voxel grid has
    shape [\[1, 0, 1, 1, 3\]], not [\[1, 2^32, 1, 1, 3\]]. *)
Lemma wrapped_grid_size_gives_empty_grid :
  exists g, __init__ [2 ^ 32; 1; 1]%Z Scenario.pc Scenario.cfg = Ok g
    /\ shape (voxel_grid g) = [1; 0; 1; 1; 3].
Proof.
  destruct (check_ok (__init__ [2 ^ 32; 1; 1]%Z Scenario.pc Scenario.cfg)
              (fun g => shape_eqb (shape (voxel_grid g)) [1; 0; 1; 1; 3]))
    as (g & Hg & Hs); [vm_compute; reflexivity|].
  exists g. split; [exact Hg | apply shape_eqb_eq, Hs].
Qed.

(** C5, amended: the voxel grid built by [__init__] has the sizes of the
    grid size narrowed to 32-bit integers, [\[1, X', Y', Z', 3\]], and
    holds at [(x, y, z)] the centre [(x + 0.5, y + 0.5, z + 0.5)]; the grid
    is the mesh grid of kornia, permuted from (X, Z, Y) to (X, Y, Z) order,
    and only then offset by 0.5.  For a grid size [(X, Y, Z)] of 32-bit
    integers the shape is [\[1, X, Y, Z, 3\]]. *)
Theorem voxel_grid_centers (X Y Z : Z) (a b c d e f : Qc)
        (cfg : DepthDiscConfig) :
  (- 2 ^ 63 <= X < 2 ^ 63)%Z -> (- 2 ^ 63 <= Y < 2 ^ 63)%Z ->
  (- 2 ^ 63 <= Z < 2 ^ 63)%Z ->
  (0 <= int32 X)%Z -> (0 <= int32 Y)%Z -> (0 <= int32 Z)%Z ->
  exists g mesh permuted,
    __init__ [X; Y; Z] [a; b; c; d; e; f] cfg = Ok g
    /\ kornia.create_meshgrid3d (int32 X) (int32 Z) (int32 Y) = Ok mesh
    /\ permute mesh [0; 1; 3; 2; 4] = Ok permuted
    /\ voxel_grid g = add_scalar permuted half
    /\ shape (voxel_grid g)
       = [1; Z.to_nat (int32 X); Z.to_nat (int32 Y); Z.to_nat (int32 Z); 3]
    /\ (forall x y z,
          x < Z.to_nat (int32 X) -> y < Z.to_nat (int32 Y) ->
          z < Z.to_nat (int32 Z) ->
          elem (voxel_grid g) [0; x; y; z; 0] = (of_nat x + half)%num
          /\ elem (voxel_grid g) [0; x; y; z; 1] = (of_nat y + half)%num
          /\ elem (voxel_grid g) [0; x; y; z; 2] = (of_nat z + half)%num)
    /\ ((0 <= X < 2 ^ 31)%Z -> (0 <= Y < 2 ^ 31)%Z -> (0 <= Z < 2 ^ 31)%Z ->
        shape (voxel_grid g) = [1; Z.to_nat X; Z.to_nat Y; Z.to_nat Z; 3]).
Proof.
  intros RX RY RZ HX HY HZ.
  apply int64_range_spec in RX. apply int64_range_spec in RY.
  apply int64_range_spec in RZ.
  destruct (init_wrapped X Y Z a b c d e f cfg RX RY RZ HX HY HZ)
    as (g & mesh & permuted & Hg & Hm & Hp & Hv & Sg & Eg & _).
  exists g, mesh, permuted. repeat (split; [assumption|]).
  split; [intros x y z Hx Hy Hz; apply Eg; assumption|].
  intros SX SY SZ. rewrite Sg, !int32_small by lia. reflexivity.
Qed.

Lemma voxel_grid_centers_witness :
  exists g,
    __init__ [2; 3; 4]%Z Scenario.pc Scenario.cfg = Ok g
    /\ shape (voxel_grid g) = [1; 2; 3; 4; 3]
    /\ elem (voxel_grid g) [0; 1; 2; 3; 0] = (of_nat 1 + half)%num
    /\ elem (voxel_grid g) [0; 1; 2; 3; 1] = (of_nat 2 + half)%num
    /\ elem (voxel_grid g) [0; 1; 2; 3; 2] = (of_nat 3 + half)%num.
Proof.
  destruct (voxel_grid_centers 2 3 4 (Scenario.q 0) (Scenario.q 0)
              (Scenario.q 0) (Scenario.q 2) (Scenario.q 2) (Scenario.q 2)
              Scenario.cfg)
    as (g & _ & _ & Hg & _ & _ & _ & _ & Eg & Sg);
    try lia; try (rewrite int32_small by lia; lia).
  exists g. split; [exact Hg|]. split; [apply Sg; lia|].
  apply (Eg 1 2 3); rewrite int32_small by lia; simpl; lia.
Defined.

(** C4: for a configuration with a positive grid size that construction
    accepts, as it does every one of 32-bit integers, the voxel size is
    [(pc_max - pc_min) / grid_size] on every axis, and the grid-to-LiDAR
    matrix maps the homogeneous index coordinate [(gx, gy, gz, 1)] to
    [(gx * vx + x_min, gy * vy + y_min, gz * vz + z_min, 1)]; in particular
    it maps [(0.5, 0.5, 0.5, 1)] to [pc_min + 0.5 * voxel_size]. *)
Theorem voxel_size_and_grid_to_lidar (X Y Z : Z) (a b c d e f : Qc)
        (cfg : DepthDiscConfig) :
  (0 < X)%Z -> (0 < Y)%Z -> (0 < Z)%Z ->
  ((X < 2 ^ 31)%Z -> (Y < 2 ^ 31)%Z -> (Z < 2 ^ 31)%Z ->
   exists g, __init__ [X; Y; Z] [a; b; c; d; e; f] cfg = Ok g)
  /\ forall g,
       __init__ [X; Y; Z] [a; b; c; d; e; f] cfg = Ok g ->
       exists vx vy vz,
         vx = ((d - a) / Q2Qc (inject_Z X))%Qc
         /\ vy = ((e - b) / Q2Qc (inject_Z Y))%Qc
         /\ vz = ((f - c) / Q2Qc (inject_Z Z))%Qc
         /\ elem (voxel_size g) [0] = Fin vx
         /\ elem (voxel_size g) [1] = Fin vy
         /\ elem (voxel_size g) [2] = Fin vz
         /\ (forall gx gy gz : Qc,
               let image :=
                 mat_vec (mat2 (grid_to_lidar g))
                         (homogeneous
                            (fun k => Fin (nth k [gx; gy; gz] (Q2Qc 0)))) in
               image 0 = Fin (gx * vx + a)%Qc
               /\ image 1 = Fin (gy * vy + b)%Qc
               /\ image 2 = Fin (gz * vz + c)%Qc
               /\ image 3 = one)
         /\ (let h := Q2Qc (1 # 2) in
             let image :=
               mat_vec (mat2 (grid_to_lidar g))
                       (homogeneous
                          (fun k => Fin (nth k [h; h; h] (Q2Qc 0)))) in
             image 0 = Fin (a + h * vx)%Qc
             /\ image 1 = Fin (b + h * vy)%Qc
             /\ image 2 = Fin (c + h * vz)%Qc).
Proof.
  intros HX HY HZ. split.
  { intros SX SY SZ.
    destruct (init_spec X Y Z a b c d e f cfg) as (g & _ & _ & Hg & _);
      try lia.
    exists g. exact Hg. }
  intros g Hg.
  destruct (init_accepted X Y Z a b c d e f cfg g Hg)
    as (RX & RY & RZ & NX & NY & NZ).
  destruct (init_wrapped X Y Z a b c d e f cfg RX RY RZ NX NY NZ)
    as (g' & _ & _ & Hg' & _ & _ & _ & _ & _ & (_ & V0 & V1 & V2) & Gg & _).
  assert (g' = g) by congruence. subst g'.
  assert (E0 : elem (voxel_size g) [0] = Fin ((d - a) / Q2Qc (inject_Z X))%Qc).
  { rewrite V0. unfold Num.sub. cbn [Num.opp]. unfold Num.add.
    apply div_of_Z. lia. }
  assert (E1 : elem (voxel_size g) [1] = Fin ((e - b) / Q2Qc (inject_Z Y))%Qc).
  { rewrite V1. unfold Num.sub. cbn [Num.opp]. unfold Num.add.
    apply div_of_Z. lia. }
  assert (E2 : elem (voxel_size g) [2] = Fin ((f - c) / Q2Qc (inject_Z Z))%Qc).
  { rewrite V2. unfold Num.sub. cbn [Num.opp]. unfold Num.add.
    apply div_of_Z. lia. }
  eexists; eexists; eexists.
  split; [reflexivity|]. split; [reflexivity|].
  split; [reflexivity|]. split; [exact E0|]. split; [exact E1|].
  split; [exact E2|].
  assert (Hmap : forall gx gy gz : Qc,
            let image :=
              mat_vec (mat2 (grid_to_lidar g))
                      (homogeneous (fun k => Fin (nth k [gx; gy; gz] (Q2Qc 0)))) in
            image 0 = Fin (gx * ((d - a) / Q2Qc (inject_Z X)) + a)%Qc
            /\ image 1 = Fin (gy * ((e - b) / Q2Qc (inject_Z Y)) + b)%Qc
            /\ image 2 = Fin (gz * ((f - c) / Q2Qc (inject_Z Z)) + c)%Qc
            /\ image 3 = one).
  { intros gx gy gz. rewrite Gg, E0, E1, E2.
    unfold mat_vec, mat2, homogeneous, zero, one. simpl.
    unfold Num.mul, Num.add, zero. cbn iota beta.
    repeat split; f_equal; ring. }
  split; [exact Hmap|].
  cbv zeta. destruct (Hmap (Q2Qc (1 # 2)) (Q2Qc (1 # 2)) (Q2Qc (1 # 2)))
    as (M0 & M1 & M2 & _).
  rewrite M0, M1, M2. repeat split; f_equal; ring.
Qed.

Lemma voxel_size_and_grid_to_lidar_witness :
  exists g vx,
    __init__ [2; 2; 2]%Z Scenario.pc Scenario.cfg = Ok g
    /\ vx = ((Scenario.q 2 - Scenario.q 0) / Q2Qc (inject_Z 2))%Qc
    /\ elem (voxel_size g) [0] = Fin vx
    /\ (let h := Q2Qc (1 # 2) in
        mat_vec (mat2 (grid_to_lidar g))
                (homogeneous (fun k => Fin (nth k [h; h; h] (Q2Qc 0)))) 0
        = Fin (Scenario.q 0 + h * vx)%Qc).
Proof.
  destruct (voxel_size_and_grid_to_lidar 2 2 2 (Scenario.q 0) (Scenario.q 0)
              (Scenario.q 0) (Scenario.q 2) (Scenario.q 2) (Scenario.q 2)
              Scenario.cfg) as (Hex & Hall); try lia.
  destruct Hex as (g & Hg); try lia.
  destruct (Hall g Hg) as (vx & vy & vz & Ex & _ & _ & V0 & _ & _ & _ & Hh).
  exists g, vx. split; [exact Hg|]. split; [exact Ex|]. split; [exact V0|].
  apply Hh.
Defined.

(** C2, as the code has it: a point cloud range whose maximum equals its
    minimum on the x axis is accepted, and the generator built from it has a
    voxel size of zero on that axis. *)
Lemma construction_accepts_empty_extent :
  exists g, __init__ Scenario.grid Scenario.pc_flat Scenario.cfg = Ok g
    /\ elem (voxel_size g) [0] = zero.
Proof.
  destruct (check_ok (__init__ Scenario.grid Scenario.pc_flat Scenario.cfg)
              (fun g => Num.eqb (elem (voxel_size g) [0]) zero))
    as (g & Hg & Hv); [vm_compute; reflexivity|].
  exists g. split; [exact Hg | apply eqb_eq, Hv].
Qed.

(** C2, amended: construction validates neither the grid size nor the point
    cloud range.  The mesh grid is asked for [grid_size.int()] steps, and
    construction fails exactly when one of these 32-bit narrowings is
    negative; a component between [-2^31] and [2^31 - 1] is narrowed to
    itself.  Otherwise it returns a generator whose voxel grid has the
    narrowed sizes and whose voxel size is [(pc_max - pc_min) / grid_size]
    on every axis, and with a positive grid size that voxel size is zero or
    negative on every axis whose maximum does not exceed its minimum. *)
Theorem construction_validates_only_steps (X Y Z : Z) (a b c d e f : Qc)
        (cfg : DepthDiscConfig) :
  (- 2 ^ 63 <= X < 2 ^ 63)%Z -> (- 2 ^ 63 <= Y < 2 ^ 63)%Z ->
  (- 2 ^ 63 <= Z < 2 ^ 63)%Z ->
  ((int32 X < 0)%Z \/ (int32 Y < 0)%Z \/ (int32 Z < 0)%Z ->
   __init__ [X; Y; Z] [a; b; c; d; e; f] cfg
   = Raise (RuntimeError "number of steps must be non-negative"))
  /\ ((0 <= int32 X)%Z -> (0 <= int32 Y)%Z -> (0 <= int32 Z)%Z ->
      exists g, __init__ [X; Y; Z] [a; b; c; d; e; f] cfg = Ok g
        /\ shape (voxel_grid g)
           = [1; Z.to_nat (int32 X); Z.to_nat (int32 Y); Z.to_nat (int32 Z);
              3]
        /\ elem (voxel_size g) [0] = ((Fin d - Fin a) / of_Z X)%num
        /\ elem (voxel_size g) [1] = ((Fin e - Fin b) / of_Z Y)%num
        /\ elem (voxel_size g) [2] = ((Fin f - Fin c) / of_Z Z)%num
        /\ ((0 < X)%Z -> (d <= a)%Qc ->
            exists v, elem (voxel_size g) [0] = Fin v /\ (v <= Q2Qc 0)%Qc)
        /\ ((0 < Y)%Z -> (e <= b)%Qc ->
            exists v, elem (voxel_size g) [1] = Fin v /\ (v <= Q2Qc 0)%Qc)
        /\ ((0 < Z)%Z -> (f <= c)%Qc ->
            exists v, elem (voxel_size g) [2] = Fin v /\ (v <= Q2Qc 0)%Qc))
  /\ (forall n, (- 2 ^ 31 <= n < 2 ^ 31)%Z -> int32 n = n).
Proof.
  intros RX RY RZ.
  apply int64_range_spec in RX. apply int64_range_spec in RY.
  apply int64_range_spec in RZ.
  split; [apply init_negative; assumption|].
  split; [|apply int32_small].
  intros HX HY HZ.
  destruct (init_wrapped X Y Z a b c d e f cfg RX RY RZ HX HY HZ)
    as (g & _ & _ & Hg & _ & _ & _ & Sg & _ & (_ & V0 & V1 & V2) & _).
  exists g. split; [exact Hg|]. split; [exact Sg|].
  split; [exact V0|]. split; [exact V1|]. split; [exact V2|].
  split; [|split]; intros Hpos Hle.
  - rewrite V0. apply voxel_size_nonpos; assumption.
  - rewrite V1. apply voxel_size_nonpos; assumption.
  - rewrite V2. apply voxel_size_nonpos; assumption.
Qed.

Lemma construction_validates_only_steps_witness :
  exists g, __init__ [2; 2; 2]%Z Scenario.pc_flat Scenario.cfg = Ok g
    /\ exists v, elem (voxel_size g) [0] = Fin v /\ (v <= Q2Qc 0)%Qc.
Proof.
  destruct (construction_validates_only_steps 2 2 2
              (Scenario.q 0) (Scenario.q 0) (Scenario.q 0)
              (Scenario.q 0) (Scenario.q 2) (Scenario.q 2) Scenario.cfg)
    as (_ & H & _); try lia.
  destruct H as (g & Hg & _ & _ & _ & _ & H0 & _);
    try (rewrite int32_small by lia; lia).
  exists g. split; [exact Hg|]. apply H0; [lia|].
  unfold Qcle, Qle. simpl. lia.
Defined.

(** ** Calls *)

Section Calls.

Variable bin_depth : DepthDiscConfig -> num -> num.

(** A call on a generator built from a grid size of three 32-bit integers
    without negative component returns; its result is described element by
    element. *)
Lemma forward_built (Nx Ny Nz : nat) (x_min y_min z_min x_max y_max z_max : Qc) (cfg : DepthDiscConfig)
      (C_V I_C : tensor num) (image_shape : tensor Z) (B n : nat) :
  (Z.of_nat Nx < 2 ^ 31)%Z -> (Z.of_nat Ny < 2 ^ 31)%Z ->
  (Z.of_nat Nz < 2 ^ 31)%Z ->
  shape C_V = [B; 4; 4] -> shape I_C = [B; 3; 4] ->
  shape image_shape = [S n; 2] ->
  exists g raw out,
    __init__ [Z.of_nat Nx; Z.of_nat Ny; Z.of_nat Nz] [x_min; y_min; z_min; x_max; y_max; z_max] cfg = Ok g
    /\ built (Z.of_nat Nx) (Z.of_nat Ny) (Z.of_nat Nz) x_min y_min z_min x_max y_max z_max cfg g
    /\ transform_grid bin_depth g (voxel_grid g) (grid_to_lidar g) C_V I_C
       = Ok raw
    /\ forward bin_depth g C_V I_C image_shape = Ok out
    /\ shape out = [B; Nx; Ny; Nz; 3]
    /\ forall b x y z c, b < B -> x < Nx -> y < Ny -> z < Nz -> c < 3 ->
         elem out [b; x; y; z; c]
         = sentinelize (-2)
             (normalize (elem raw [b; x; y; z; c])
                        (reference_extent cfg image_shape c)).
Proof.
  intros FX FY FZ SC SI Sh.
  destruct (init_spec (Z.of_nat Nx) (Z.of_nat Ny) (Z.of_nat Nz) x_min y_min z_min x_max y_max z_max cfg)
    as (g & _ & _ & Hg & _ & _ & _ & Hb); try lia.
  pose proof (built_shape Hb) as Sg. rewrite !Nat2Z.id in Sg.
  assert (SV : shape (grid_to_lidar g) = [4; 4])
    by (rewrite (built_grid_to_lidar Hb); reflexivity).
  destruct (forward_spec bin_depth g C_V I_C image_shape B Nx Ny Nz n
              Sg SV SC SI Sh) as (raw & out & Hraw & Hout & So & Eo).
  exists g, raw, out. repeat (split; [assumption|]).
  intros b x y z k Hb' Hx Hy Hz Hk.
  rewrite (Eo b x y z k) by assumption.
  rewrite (built_out_of_bounds Hb), (built_disc_cfg Hb). reflexivity.
Qed.

(** C3, amended: when the leading dimensions of [lidar_to_cam] and
    [cam_to_img] differ, the call fails with a shape error (the reshape of
    [cam_to_img] to [(B, 1, 1, 3, 4)] is invalid for its size).  The
    leading dimension of [image_shape] is not compared with them: the
    shapes are reduced by a maximum over that dimension, and whatever
    their number, as long as there is one, the call returns an array of
    shape [\[B, X, Y, Z, 3\]]. *)
Theorem batch_dimension_checks (Nx Ny Nz : nat) (x_min y_min z_min x_max y_max z_max : Qc)
        (cfg : DepthDiscConfig) (C_V I_C : tensor num)
        (image_shape : tensor Z) (B B' n : nat) :
  (Z.of_nat Nx < 2 ^ 31)%Z -> (Z.of_nat Ny < 2 ^ 31)%Z ->
  (Z.of_nat Nz < 2 ^ 31)%Z ->
  shape C_V = [B; 4; 4] -> shape I_C = [B'; 3; 4] ->
  shape image_shape = [S n; 2] ->
  exists g,
    __init__ [Z.of_nat Nx; Z.of_nat Ny; Z.of_nat Nz] [x_min; y_min; z_min; x_max; y_max; z_max] cfg = Ok g
    /\ (B' <> B ->
        forward bin_depth g C_V I_C image_shape
        = Raise (RuntimeError "shape is invalid for input size"))
    /\ (B' = B ->
        exists out, forward bin_depth g C_V I_C image_shape = Ok out
          /\ shape out = [B; Nx; Ny; Nz; 3]).
Proof.
  intros FX FY FZ SC SI Sh.
  destruct (init_spec (Z.of_nat Nx) (Z.of_nat Ny) (Z.of_nat Nz) x_min y_min z_min x_max y_max z_max cfg)
    as (g & _ & _ & Hg & _ & _ & _ & Hb); try lia.
  pose proof (built_shape Hb) as Sg. rewrite !Nat2Z.id in Sg.
  assert (SV : shape (grid_to_lidar g) = [4; 4])
    by (rewrite (built_grid_to_lidar Hb); reflexivity).
  exists g. split; [exact Hg|]. split.
  - intros Hne.
    apply (forward_mismatch bin_depth g C_V I_C image_shape B B' Nx Ny Nz);
      assumption.
  - intros ->.
    destruct (forward_spec bin_depth g C_V I_C image_shape B Nx Ny Nz n
                Sg SV SC SI Sh) as (raw & out & _ & Hout & So & _).
    exists out. split; assumption.
Qed.

End Calls.

Lemma batch_dimension_checks_witness :
  exists g,
    __init__ [2; 2; 2]%Z Scenario.pc Scenario.cfg = Ok g
    /\ (2 <> 1 ->
        forward uniform_bin g Scenario.identity Scenario.projection2
                Scenario.image_shape2
        = Raise (RuntimeError "shape is invalid for input size"))
    /\ (2 = 1 ->
        exists out, forward uniform_bin g Scenario.identity Scenario.projection2
                            Scenario.image_shape2 = Ok out
          /\ shape out = [1; 2; 2; 2; 3]).
Proof.
  apply (batch_dimension_checks uniform_bin 2 2 2
           (Scenario.q 0) (Scenario.q 0) (Scenario.q 0)
           (Scenario.q 2) (Scenario.q 2) (Scenario.q 2) Scenario.cfg
           Scenario.identity Scenario.projection2 Scenario.image_shape2
           1 2 1); reflexivity.
Defined.

(** C3, as the code has it: one camera matrix, one projection matrix and
    the image shapes of two cameras; the call returns an array. *)
Lemma forward_accepts_extra_image_shapes :
  hd 0 (shape Scenario.identity) = 1
  /\ hd 0 (shape Scenario.projection) = 1
  /\ hd 0 (shape Scenario.image_shape2) = 2
  /\ exists g out,
       __init__ Scenario.grid Scenario.pc Scenario.cfg = Ok g
       /\ forward uniform_bin g Scenario.identity Scenario.projection
                  Scenario.image_shape2 = Ok out
       /\ shape out = [1; 2; 2; 2; 3].
Proof.
  repeat (split; [reflexivity|]).
  destruct (check_ok (__init__ Scenario.grid Scenario.pc Scenario.cfg)
              (fun g => check (forward uniform_bin g Scenario.identity
                                       Scenario.projection Scenario.image_shape2)
                              (fun out => shape_eqb (shape out) [1; 2; 2; 2; 3])))
    as (g & Hg & H); [vm_compute; reflexivity|].
  destruct (check_ok _ _ H) as (out & Hout & Hs).
  exists g, out. split; [exact Hg|]. split; [exact Hout|].
  apply shape_eqb_eq, Hs.
Qed.

(** ** The transformation of the grid *)

Lemma mul_zero_fin (v : Qc) : (zero * Fin v)%num = zero.
Proof. unfold Num.mul, zero. f_equal. ring. Qed.

Lemma mul_one_l (x : num) : (one * x)%num = x.
Proof.
  destruct x; try reflexivity. unfold Num.mul, one. f_equal. ring.
Qed.

Lemma add_zero_l (x : num) : (zero + x)%num = x.
Proof. destruct x; try reflexivity. unfold Num.add, zero. f_equal. ring. Qed.

Lemma add_zero_r (x : num) : (x + zero)%num = x.
Proof. destruct x; try reflexivity. unfold Num.add, zero. f_equal. ring. Qed.

Lemma dehomogenize_affine (h : nat -> num) :
  h 3 = one -> forall k, dehomogenize h k = h k.
Proof.
  intros H k. unfold dehomogenize. rewrite H.
  replace (gtb (Num.abs one) kornia.eps) with true by (vm_compute; reflexivity).
  replace (one / one)%num with one by (symmetry; apply eqb_eq; vm_compute; reflexivity).
  apply mul_one_l.
Qed.

(** With a positive grid size the grid-to-LiDAR matrix is finite and affine. *)
Lemma built_grid_to_lidar_affine (X Y Z : Z) (a b c d e f : Qc)
      (cfg : DepthDiscConfig) (g : FrustumGridGenerator) :
  (0 < X)%Z -> (0 < Y)%Z -> (0 < Z)%Z ->
  built X Y Z a b c d e f cfg g ->
  (forall i j, i < 3 -> j < 4 -> exists v, mat2 (grid_to_lidar g) i j = Fin v)
  /\ forall j, j < 4 ->
       mat2 (grid_to_lidar g) 3 j = if j =? 3 then one else zero.
Proof.
  intros HX HY HZ Hb.
  destruct (built_voxel_size Hb) as (_ & V0 & V1 & V2).
  rewrite (built_grid_to_lidar Hb), V0, V1, V2.
  unfold Num.sub. cbn [Num.opp]. unfold Num.add.
  rewrite !div_of_Z by lia. unfold mat2, zero, one.
  split.
  - intros i j Hi Hj.
    destruct i as [|[|[|i]]]; try lia;
      destruct j as [|[|[|[|j]]]]; try lia; simpl; eauto.
  - intros j Hj. destruct j as [|[|[|[|j]]]]; try lia; reflexivity.
Qed.

Lemma affine_product_bottom_row (A V : nat -> nat -> num) :
  (forall j, j < 4 -> A 3 j = if j =? 3 then one else zero) ->
  (forall i j, i < 3 -> j < 4 -> exists v, V i j = Fin v) ->
  (forall j, j < 4 -> V 3 j = if j =? 3 then one else zero) ->
  forall j, j < 4 -> mat_mul A V 3 j = if j =? 3 then one else zero.
Proof.
  intros HA HV HV3 j Hj. unfold mat_mul. simpl.
  rewrite (HA 0), (HA 1), (HA 2), (HA 3) by lia. simpl.
  destruct (HV 0 j) as (v0 & ->); try lia.
  destruct (HV 1 j) as (v1 & ->); try lia.
  destruct (HV 2 j) as (v2 & ->); try lia.
  rewrite !mul_zero_fin, !add_zero_l, mul_one_l. apply HV3, Hj.
Qed.

Lemma affine_image_w (M : nat -> nat -> num) (p : nat -> num) :
  (forall j, j < 4 -> M 3 j = if j =? 3 then one else zero) ->
  (forall k, k < 3 -> exists v, p k = Fin v) ->
  mat_vec M (homogeneous p) 3 = one.
Proof.
  intros HM Hp. unfold mat_vec, homogeneous. simpl.
  rewrite (HM 0), (HM 1), (HM 2), (HM 3) by lia. simpl.
  destruct (Hp 0) as (v0 & ->); try lia.
  destruct (Hp 1) as (v1 & ->); try lia.
  destruct (Hp 2) as (v2 & ->); try lia.
  rewrite !mul_zero_fin, !add_zero_l, mul_one_l. reflexivity.
Qed.

Lemma built_center_finite (X Y Z : Z) (a b c d e f : Qc)
      (cfg : DepthDiscConfig) (g : FrustumGridGenerator) (x y z : nat) :
  built X Y Z a b c d e f cfg g ->
  x < Z.to_nat X -> y < Z.to_nat Y -> z < Z.to_nat Z ->
  forall k, k < 3 -> exists v, voxel_center (voxel_grid g) x y z k = Fin v.
Proof.
  intros Hb Hx Hy Hz k Hk. unfold voxel_center.
  destruct (built_centers Hb 0 x y z Hx Hy Hz) as (E0 & E1 & E2).
  destruct k as [|[|[|k]]]; try lia;
    [rewrite E0 | rewrite E1 | rewrite E2]; unfold of_nat, of_Z, half, Num.add; eauto.
Qed.


Section Transformation.

Variable bin_depth : DepthDiscConfig -> num -> num.

(** C6: for every camera [b], [transform_grid] forms the product
    [lidar_to_cam\[b\] . grid_to_lidar], in that order, applies it to the
    centre of every voxel of the one shared grid, projects the result with
    [cam_to_img\[b\]], and returns an array whose leading dimension is the
    camera and whose next three are (X, Y, Z) as in the voxel grid.  (The
    application goes through homogeneous coordinates; for a camera matrix
    with bottom row (0, 0, 0, 1) the camera-frame point is exactly the
    product applied to the centre.) *)
Theorem transform_grid_per_voxel (Nx Ny Nz : nat)
        (x_min y_min z_min x_max y_max z_max : Qc) (cfg : DepthDiscConfig)
        (C_V I_C : tensor num) (B : nat) :
  (Z.of_nat Nx < 2 ^ 31)%Z -> (Z.of_nat Ny < 2 ^ 31)%Z ->
  (Z.of_nat Nz < 2 ^ 31)%Z ->
  shape C_V = [B; 4; 4] -> shape I_C = [B; 3; 4] ->
  exists g prod out,
    __init__ [Z.of_nat Nx; Z.of_nat Ny; Z.of_nat Nz]
             [x_min; y_min; z_min; x_max; y_max; z_max] cfg = Ok g
    /\ matmul C_V (grid_to_lidar g) = Ok prod
    /\ (forall k i j, k < B ->
          elem prod [k; i; j]
          = mat_mul (mat C_V k) (mat2 (grid_to_lidar g)) i j)
    /\ transform_grid bin_depth g (voxel_grid g) (grid_to_lidar g) C_V I_C
       = Ok out
    /\ shape (voxel_grid g) = [1; Nx; Ny; Nz; 3]
    /\ shape out = [B; Nx; Ny; Nz; 3]
    /\ forall k x y z, k < B -> x < Nx -> y < Ny -> z < Nz ->
         let combined := mat_mul (mat C_V k) (mat2 (grid_to_lidar g)) in
         let center := voxel_center (voxel_grid g) x y z in
         let cam := dehomogenize (mat_vec combined (homogeneous center)) in
         let h := mat_vec (mat I_C k) (homogeneous cam) in
         elem out [k; x; y; z; 0] = (h 0 / h 2)%num
         /\ elem out [k; x; y; z; 1] = (h 1 / h 2)%num
         /\ elem out [k; x; y; z; 2] = bin_depth cfg (h 2)
         /\ ((forall j, j < 4 ->
                mat C_V k 3 j = if j =? 3 then one else zero) ->
             forall c, cam c = mat_vec combined (homogeneous center) c).
Proof.
  intros FX FY FZ SC SI.
  destruct (init_spec (Z.of_nat Nx) (Z.of_nat Ny) (Z.of_nat Nz)
              x_min y_min z_min x_max y_max z_max cfg)
    as (g & _ & _ & Hg & _ & _ & _ & Hb); try lia.
  pose proof (built_shape Hb) as Sg. rewrite !Nat2Z.id in Sg.
  assert (SV : shape (grid_to_lidar g) = [4; 4])
    by (rewrite (built_grid_to_lidar Hb); reflexivity).
  destruct (trans_spec C_V (grid_to_lidar g) B SC SV)
    as (prod & _ & Hm & _ & _ & Ep & _).
  destruct (transform_grid_spec bin_depth g (voxel_grid g) (grid_to_lidar g)
              C_V I_C B Nx Ny Nz Sg SV SC SI) as (out & Hout & So & Eo).
  exists g, prod, out. repeat (split; [assumption|]).
  intros k x y z Hk Hx Hy Hz. cbv zeta.
  destruct (Eo k x y z Hk Hx Hy Hz) as (E0 & E1 & E2).
  rewrite (built_disc_cfg Hb) in E2.
  repeat (split; [assumption|]).
  intros Hrow c. apply dehomogenize_affine.
  assert (PX : (0 < Z.of_nat Nx)%Z) by lia.
  assert (PY : (0 < Z.of_nat Ny)%Z) by lia.
  assert (PZ : (0 < Z.of_nat Nz)%Z) by lia.
  destruct (built_grid_to_lidar_affine _ _ _ _ _ _ _ _ _ _ g PX PY PZ Hb)
    as (Hfin & Hbot).
  apply affine_image_w.
  - apply affine_product_bottom_row; assumption.
  - apply (built_center_finite _ _ _ _ _ _ _ _ _ _ g x y z Hb); lia.
Qed.

End Transformation.

Lemma transform_grid_per_voxel_witness :
  exists g prod out,
    __init__ [Z.of_nat 2; Z.of_nat 2; Z.of_nat 2]
             [Scenario.q 0; Scenario.q 0; Scenario.q 0;
              Scenario.q 2; Scenario.q 2; Scenario.q 2] Scenario.cfg = Ok g
    /\ matmul Scenario.identity (grid_to_lidar g) = Ok prod
    /\ (forall k i j, k < 1 ->
          elem prod [k; i; j]
          = mat_mul (mat Scenario.identity k) (mat2 (grid_to_lidar g)) i j)
    /\ transform_grid uniform_bin g (voxel_grid g) (grid_to_lidar g)
                      Scenario.identity Scenario.projection = Ok out
    /\ shape (voxel_grid g) = [1; 2; 2; 2; 3]
    /\ shape out = [1; 2; 2; 2; 3]
    /\ forall k x y z, k < 1 -> x < 2 -> y < 2 -> z < 2 ->
         let combined :=
           mat_mul (mat Scenario.identity k) (mat2 (grid_to_lidar g)) in
         let center := voxel_center (voxel_grid g) x y z in
         let cam := dehomogenize (mat_vec combined (homogeneous center)) in
         let h := mat_vec (mat Scenario.projection k) (homogeneous cam) in
         elem out [k; x; y; z; 0] = (h 0 / h 2)%num
         /\ elem out [k; x; y; z; 1] = (h 1 / h 2)%num
         /\ elem out [k; x; y; z; 2] = uniform_bin Scenario.cfg (h 2)
         /\ ((forall j, j < 4 ->
                mat Scenario.identity k 3 j = if j =? 3 then one else zero) ->
             forall c, cam c = mat_vec combined (homogeneous center) c).
Proof.
  apply (transform_grid_per_voxel uniform_bin 2 2 2
           (Scenario.q 0) (Scenario.q 0) (Scenario.q 0)
           (Scenario.q 2) (Scenario.q 2) (Scenario.q 2) Scenario.cfg
           Scenario.identity Scenario.projection 1); reflexivity.
Defined.

(** ** Normalisation and the out-of-bounds value *)

Lemma fold_max_ge (f : nat -> Z) (l : list nat) :
  forall m, (m <= fold_left (fun m i => Z.max m (f i)) l m)%Z
            /\ forall i, In i l ->
                 (f i <= fold_left (fun m i => Z.max m (f i)) l m)%Z.
Proof.
  induction l as [|k l IH]; intros m; simpl.
  - split; [lia | intros i []].
  - destruct (IH (Z.max m (f k))) as [H1 H2]. split; [lia|].
    intros i [->|Hi]; [lia | auto].
Qed.

Lemma fold_max_attained (f : nat -> Z) (l : list nat) :
  forall m, fold_left (fun m i => Z.max m (f i)) l m = m
            \/ exists i, In i l
                 /\ fold_left (fun m i => Z.max m (f i)) l m = f i.
Proof.
  induction l as [|k l IH]; intros m; simpl; [auto|].
  destruct (IH (Z.max m (f k))) as [H | (i & Hi & H)].
  - rewrite H. destruct (Z.max_spec m (f k)) as [[_ E] | [_ E]]; rewrite E.
    + right. exists k. auto.
    + left. reflexivity.
  - right. exists i. auto.
Qed.

(** [batch_max] is the maximum over all the cameras of the batch. *)
Lemma batch_max_spec (image_shape : tensor Z) (n c : nat) :
  shape image_shape = [S n; 2] ->
  (forall i, i < S n -> (elem image_shape [i; c] <= batch_max image_shape c)%Z)
  /\ exists i, i < S n /\ batch_max image_shape c = elem image_shape [i; c].
Proof.
  intros Sh. unfold batch_max. rewrite Sh. simpl. rewrite Nat.sub_0_r.
  set (f := fun i => elem image_shape [i; c]).
  change (fold_left _ (seq 1 n) _)
    with (fold_left (fun m i => Z.max m (f i)) (seq 1 n) (f 0)).
  destruct (fold_max_ge f (seq 1 n) (f 0)) as [H0 Hl].
  split.
  - intros [|i] Hi; [exact H0|]. apply Hl. apply in_seq. lia.
  - destruct (fold_max_attained f (seq 1 n) (f 0)) as [H | (i & Hi & H)].
    + exists 0. split; [lia | exact H].
    + exists i. apply in_seq in Hi. split; [lia | exact H].
Qed.

Lemma normalize_of_Z (p m : Z) :
  (m - 1 <> 0)%Z ->
  normalize (of_Z p) m
  = Fin (Q2Qc (inject_Z 2) * Q2Qc (inject_Z p) / Q2Qc (inject_Z (m - 1))
         - Q2Qc 1)%Qc.
Proof.
  intros H. unfold normalize, of_Z, one. unfold Num.mul.
  rewrite div_fin by (apply Qc_of_Z_neq0, H). reflexivity.
Qed.

(** The last pixel [w - 1] of an image of width (or height) [w], normalised
    against a larger extent [m], is neither 1 nor -1. *)
Lemma normalize_smaller_boundary (w m : Z) :
  (1 < w)%Z -> (w < m)%Z ->
  normalize (of_Z (w - 1)) m <> one
  /\ normalize (of_Z (w - 1)) m <> of_Z (-1).
Proof.
  intros Hw Hm. rewrite normalize_of_Z by lia.
  set (A := Q2Qc (inject_Z (w - 1))). set (M := Q2Qc (inject_Z (m - 1))).
  set (two := Q2Qc (inject_Z 2)).
  assert (HM : M <> Q2Qc 0) by (apply Qc_of_Z_neq0; lia).
  assert (HA : A <> Q2Qc 0) by (apply Qc_of_Z_neq0; lia).
  assert (H2 : two <> Q2Qc 0) by (apply Qc_of_Z_neq0; lia).
  assert (HAM : A <> M).
  { intros E. apply Q2Qc_eq_iff in E. unfold Qeq in E. simpl in E. lia. }
  assert (Htwo : two = (Q2Qc 1 + Q2Qc 1)%Qc)
    by (apply Qc_is_canon; reflexivity).
  assert (Hm1 : Q2Qc (inject_Z (-1)) = (- Q2Qc 1)%Qc)
    by (apply Qc_is_canon; reflexivity).
  split; intros E; unfold one, of_Z in E; apply Fin_inj in E.
  - apply HAM.
    assert (E' : (two * A = two * M)%Qc).
    { replace (two * A)%Qc with ((two * A / M - Q2Qc 1) * M + M)%Qc
        by (field; assumption).
      rewrite E. rewrite Htwo. ring. }
    apply (f_equal (fun t => (/ two * t)%Qc)) in E'.
    rewrite !Qcmult_assoc, Qcmult_inv_l, !Qcmult_1_l in E' by assumption.
    exact E'.
  - assert (E' : (two * A = Q2Qc 0)%Qc).
    { replace (two * A)%Qc with ((two * A / M - Q2Qc 1) * M + M)%Qc
        by (field; assumption).
      rewrite E. rewrite Hm1. ring. }
    apply Qcmult_integral in E'. tauto.
Qed.

(** The pixel 0 is normalised to -1 against every extent other than 1. *)
Lemma normalize_zero (m : Z) :
  (m - 1 <> 0)%Z -> normalize (of_Z 0) m = of_Z (-1).
Proof.
  intros H. rewrite normalize_of_Z by assumption. unfold of_Z.
  apply f_equal, Qc_is_canon. unfold Qcdiv. rewrite Qcmult_0_r, Qcmult_0_l.
  reflexivity.
Qed.

Lemma sentinelize_cases (v : Z) (x : num) :
  (Num.isfinite x = true -> sentinelize v x = x)
  /\ (Num.isfinite x = false -> sentinelize v x = of_Z v)
  /\ Num.isfinite (sentinelize v x) = true.
Proof. unfold sentinelize. destruct x; simpl; auto; repeat split; auto; discriminate. Qed.

Section Normalisation.

Variable bin_depth : DepthDiscConfig -> num -> num.

(** C7, amended: every coordinate of the result of [forward] is normalised
    as [2 * raw / (extent - 1) - 1], the extent being the largest image
    width of the batch for [u], the largest image height of the batch for
    [v] and [num_bins] for the depth bin (and a normalised value that is
    not finite is replaced, see C10).  So the last pixel [w - 1] of a
    camera whose width or height [w] is smaller than the largest of the
    batch is not sent to 1 (nor to -1); its first pixel 0 is sent to -1
    exactly, whatever the other cameras of the batch. *)
Theorem normalization_against_batch_maximum (Nx Ny Nz : nat)
        (x_min y_min z_min x_max y_max z_max : Qc) (cfg : DepthDiscConfig)
        (C_V I_C : tensor num) (image_shape : tensor Z) (B n : nat) :
  (Z.of_nat Nx < 2 ^ 31)%Z -> (Z.of_nat Ny < 2 ^ 31)%Z ->
  (Z.of_nat Nz < 2 ^ 31)%Z ->
  shape C_V = [B; 4; 4] -> shape I_C = [B; 3; 4] ->
  shape image_shape = [S n; 2] ->
  exists g raw out,
    __init__ [Z.of_nat Nx; Z.of_nat Ny; Z.of_nat Nz]
             [x_min; y_min; z_min; x_max; y_max; z_max] cfg = Ok g
    /\ transform_grid bin_depth g (voxel_grid g) (grid_to_lidar g) C_V I_C
       = Ok raw
    /\ forward bin_depth g C_V I_C image_shape = Ok out
    /\ (forall r m, normalize r m = (of_Z 2 * r / of_Z (m - 1) - one)%num)
    /\ (forall k x y z, k < B -> x < Nx -> y < Ny -> z < Nz ->
          elem out [k; x; y; z; 0]
          = sentinelize (-2) (normalize (elem raw [k; x; y; z; 0])
                                        (batch_max image_shape 1))
          /\ elem out [k; x; y; z; 1]
             = sentinelize (-2) (normalize (elem raw [k; x; y; z; 1])
                                           (batch_max image_shape 0))
          /\ elem out [k; x; y; z; 2]
             = sentinelize (-2) (normalize (elem raw [k; x; y; z; 2])
                                           (num_bins cfg)))
    /\ (forall c i, i < S n ->
          (elem image_shape [i; c] <= batch_max image_shape c)%Z)
    /\ (forall c, exists i,
          i < S n /\ batch_max image_shape c = elem image_shape [i; c])
    /\ (forall k x y z i c, k < B -> x < Nx -> y < Ny -> z < Nz ->
          i < S n -> c < 2 ->
          let w := elem image_shape [i; 1 - c] in
          (1 < w)%Z -> (w < batch_max image_shape (1 - c))%Z ->
          elem raw [k; x; y; z; c] = of_Z (w - 1) ->
          elem out [k; x; y; z; c] <> one
          /\ elem out [k; x; y; z; c] <> of_Z (-1))
    /\ (forall k x y z c, k < B -> x < Nx -> y < Ny -> z < Nz -> c < 2 ->
          (1 < batch_max image_shape (1 - c))%Z ->
          elem raw [k; x; y; z; c] = of_Z 0 ->
          elem out [k; x; y; z; c] = of_Z (-1)).
Proof.
  intros FX FY FZ SC SI Sh.
  destruct (forward_built bin_depth Nx Ny Nz x_min y_min z_min x_max y_max
              z_max cfg C_V I_C image_shape B n FX FY FZ SC SI Sh)
    as (g & raw & out & Hg & _ & Hraw & Hout & _ & Eo).
  exists g, raw, out. repeat (split; [assumption|]).
  split; [reflexivity|].
  split.
  { intros k x y z Hk Hx Hy Hz.
    rewrite !(Eo k x y z) by (assumption || lia). auto. }
  split; [intros c i Hi; apply (batch_max_spec image_shape n c Sh); assumption|].
  split; [intros c; apply (batch_max_spec image_shape n c Sh)|].
  assert (Hext : forall c, c < 2 ->
            reference_extent cfg image_shape c
            = batch_max image_shape (1 - c))
    by (intros [|[|c]] Hc; [reflexivity | reflexivity | lia]).
  split.
  - intros k x y z i c Hk Hx Hy Hz Hi Hc w Hw Hlt Hr.
    rewrite (Eo k x y z c) by (assumption || lia). rewrite Hr.
    rewrite Hext by assumption.
    destruct (sentinelize_cases (-2)
                (normalize (of_Z (w - 1)) (batch_max image_shape (1 - c))))
      as (Hfin & _ & _).
    rewrite Hfin by (rewrite normalize_of_Z by lia; reflexivity).
    apply normalize_smaller_boundary; assumption.
  - intros k x y z c Hk Hx Hy Hz Hc Hm Hr.
    rewrite (Eo k x y z c) by (assumption || lia). rewrite Hr.
    rewrite Hext by assumption.
    rewrite normalize_zero by lia. reflexivity.
Qed.

(** C7, as the code has it: two cameras of widths 2 and 4 in one batch.
    The centre of voxel (0, 0, 0) falls on the pixel column 0 of the
    smaller camera, the lower boundary of its image, and its normalised
    [u] is exactly -1 although a larger camera is present. *)
Lemma smaller_camera_first_pixel_is_minus_one :
  elem Scenario.image_shape2 [0; 1] = 2%Z
  /\ batch_max Scenario.image_shape2 1 = 4%Z
  /\ exists g raw out,
       __init__ Scenario.grid Scenario.pc Scenario.cfg = Ok g
       /\ transform_grid uniform_bin g (voxel_grid g) (grid_to_lidar g)
                         Scenario.identity2 Scenario.offset_projection2
          = Ok raw
       /\ elem raw [0; 0; 0; 0; 0] = of_Z 0
       /\ forward uniform_bin g Scenario.identity2
                  Scenario.offset_projection2 Scenario.image_shape2 = Ok out
       /\ elem out [0; 0; 0; 0; 0] = of_Z (-1).
Proof.
  split; [reflexivity|]. split; [reflexivity|].
  destruct (check_ok (__init__ Scenario.grid Scenario.pc Scenario.cfg)
              (fun g =>
                 check (transform_grid uniform_bin g (voxel_grid g)
                          (grid_to_lidar g) Scenario.identity2
                          Scenario.offset_projection2)
                       (fun raw =>
                          Num.eqb (elem raw [0; 0; 0; 0; 0]) (of_Z 0)
                          && check (forward uniform_bin g Scenario.identity2
                                      Scenario.offset_projection2
                                      Scenario.image_shape2)
                               (fun out =>
                                  Num.eqb (elem out [0; 0; 0; 0; 0])
                                          (of_Z (-1))))))
    as (g & Hg & H); [vm_compute; reflexivity|].
  destruct (check_ok _ _ H) as (raw & Hraw & H').
  apply andb_true_iff in H'. destruct H' as (Hr & H').
  destruct (check_ok _ _ H') as (out & Hout & Ho).
  exists g, raw, out. split; [exact Hg|]. split; [exact Hraw|].
  split; [apply eqb_eq, Hr|]. split; [exact Hout|]. apply eqb_eq, Ho.
Qed.

(** C10: the replacement at the end of [forward] falls on the normalised
    values that are not finite and on no other: a finite normalised value
    is returned as it is, whether or not it lies in [\[-1, 1\]], and a
    value that is NaN or infinite is returned as -2. *)
Theorem sentinel_replaces_exactly_non_finite (Nx Ny Nz : nat)
        (x_min y_min z_min x_max y_max z_max : Qc) (cfg : DepthDiscConfig)
        (C_V I_C : tensor num) (image_shape : tensor Z) (B n : nat) :
  (Z.of_nat Nx < 2 ^ 31)%Z -> (Z.of_nat Ny < 2 ^ 31)%Z ->
  (Z.of_nat Nz < 2 ^ 31)%Z ->
  shape C_V = [B; 4; 4] -> shape I_C = [B; 3; 4] ->
  shape image_shape = [S n; 2] ->
  exists g raw out,
    __init__ [Z.of_nat Nx; Z.of_nat Ny; Z.of_nat Nz]
             [x_min; y_min; z_min; x_max; y_max; z_max] cfg = Ok g
    /\ transform_grid bin_depth g (voxel_grid g) (grid_to_lidar g) C_V I_C
       = Ok raw
    /\ forward bin_depth g C_V I_C image_shape = Ok out
    /\ forall k x y z c, k < B -> x < Nx -> y < Ny -> z < Nz -> c < 3 ->
         let normalized :=
           normalize (elem raw [k; x; y; z; c])
                     (reference_extent cfg image_shape c) in
         (Num.isfinite normalized = true ->
          elem out [k; x; y; z; c] = normalized)
         /\ (Num.isfinite normalized = false ->
             elem out [k; x; y; z; c] = of_Z (-2)).
Proof.
  intros FX FY FZ SC SI Sh.
  destruct (forward_built bin_depth Nx Ny Nz x_min y_min z_min x_max y_max
              z_max cfg C_V I_C image_shape B n FX FY FZ SC SI Sh)
    as (g & raw & out & Hg & _ & Hraw & Hout & _ & Eo).
  exists g, raw, out. repeat (split; [assumption|]).
  intros k x y z c Hk Hx Hy Hz Hc normalized. subst normalized.
  rewrite (Eo k x y z c) by assumption.
  destruct (sentinelize_cases (-2)
              (normalize (elem raw [k; x; y; z; c])
                         (reference_extent cfg image_shape c)))
    as (H1 & H2 & _).
  split; assumption.
Qed.

(** C1, amended: every element of the result of [forward] is finite; it is
    the normalised coordinate, or else -2, which stands for a normalised
    coordinate that is NaN or infinite.  (The replacement is made element
    by element: the three elements of a triple are not replaced
    together, and a finite element need not lie in [\[-1, 1\]].) *)
Theorem output_elements_finite (Nx Ny Nz : nat)
        (x_min y_min z_min x_max y_max z_max : Qc) (cfg : DepthDiscConfig)
        (C_V I_C : tensor num) (image_shape : tensor Z) (B n : nat) :
  (Z.of_nat Nx < 2 ^ 31)%Z -> (Z.of_nat Ny < 2 ^ 31)%Z ->
  (Z.of_nat Nz < 2 ^ 31)%Z ->
  shape C_V = [B; 4; 4] -> shape I_C = [B; 3; 4] ->
  shape image_shape = [S n; 2] ->
  exists g raw out,
    __init__ [Z.of_nat Nx; Z.of_nat Ny; Z.of_nat Nz]
             [x_min; y_min; z_min; x_max; y_max; z_max] cfg = Ok g
    /\ transform_grid bin_depth g (voxel_grid g) (grid_to_lidar g) C_V I_C
       = Ok raw
    /\ forward bin_depth g C_V I_C image_shape = Ok out
    /\ shape out = [B; Nx; Ny; Nz; 3]
    /\ forall k x y z c, k < B -> x < Nx -> y < Ny -> z < Nz -> c < 3 ->
         let normalized :=
           normalize (elem raw [k; x; y; z; c])
                     (reference_extent cfg image_shape c) in
         Num.isfinite (elem out [k; x; y; z; c]) = true
         /\ (elem out [k; x; y; z; c] = normalized
             \/ (Num.isfinite normalized = false
                 /\ elem out [k; x; y; z; c] = of_Z (-2))).
Proof.
  intros FX FY FZ SC SI Sh.
  destruct (forward_built bin_depth Nx Ny Nz x_min y_min z_min x_max y_max
              z_max cfg C_V I_C image_shape B n FX FY FZ SC SI Sh)
    as (g & raw & out & Hg & _ & Hraw & Hout & So & Eo).
  exists g, raw, out. repeat (split; [assumption|]).
  intros k x y z c Hk Hx Hy Hz Hc normalized. subst normalized.
  rewrite (Eo k x y z c) by assumption.
  destruct (sentinelize_cases (-2)
              (normalize (elem raw [k; x; y; z; c])
                         (reference_extent cfg image_shape c)))
    as (H1 & H2 & H3).
  split; [exact H3|].
  destruct (Num.isfinite (normalize (elem raw [k; x; y; z; c])
                                    (reference_extent cfg image_shape c)));
    [left; auto | right; auto].
Qed.

End Normalisation.

Lemma normalization_against_batch_maximum_witness :
  shape Scenario.identity = [1; 4; 4]
  /\ shape Scenario.projection = [1; 3; 4]
  /\ shape Scenario.image_shape2 = [2; 2]
  /\ exists g raw out,
       __init__ [2; 2; 2]%Z Scenario.pc Scenario.cfg = Ok g
       /\ transform_grid uniform_bin g (voxel_grid g) (grid_to_lidar g)
                         Scenario.identity Scenario.projection = Ok raw
       /\ forward uniform_bin g Scenario.identity Scenario.projection
                  Scenario.image_shape2 = Ok out
       /\ elem out [0; 0; 0; 0; 0]
          = sentinelize (-2) (normalize (elem raw [0; 0; 0; 0; 0])
                                        (batch_max Scenario.image_shape2 1)).
Proof.
  repeat (split; [reflexivity|]).
  destruct (normalization_against_batch_maximum uniform_bin 2 2 2
              (Scenario.q 0) (Scenario.q 0) (Scenario.q 0)
              (Scenario.q 2) (Scenario.q 2) (Scenario.q 2) Scenario.cfg
              Scenario.identity Scenario.projection Scenario.image_shape2 1 1
              eq_refl eq_refl eq_refl eq_refl eq_refl eq_refl)
    as (g & raw & out & Hg & Hraw & Hout & _ & H & _).
  exists g, raw, out. repeat (split; [assumption|]).
  apply (H 0 0 0 0); lia.
Defined.

Lemma sentinel_replaces_exactly_non_finite_witness :
  shape Scenario.shifted = [1; 4; 4]
  /\ shape Scenario.projection = [1; 3; 4]
  /\ shape Scenario.image_shape = [1; 2]
  /\ exists g raw out,
       __init__ [2; 2; 2]%Z Scenario.pc Scenario.cfg = Ok g
       /\ transform_grid uniform_bin g (voxel_grid g) (grid_to_lidar g)
                         Scenario.shifted Scenario.projection = Ok raw
       /\ forward uniform_bin g Scenario.shifted Scenario.projection
                  Scenario.image_shape = Ok out
       /\ let normalized :=
            normalize (elem raw [0; 0; 0; 0; 0])
                      (reference_extent Scenario.cfg Scenario.image_shape 0) in
          (Num.isfinite normalized = true ->
           elem out [0; 0; 0; 0; 0] = normalized)
          /\ (Num.isfinite normalized = false ->
              elem out [0; 0; 0; 0; 0] = of_Z (-2)).
Proof.
  repeat (split; [reflexivity|]).
  destruct (sentinel_replaces_exactly_non_finite uniform_bin 2 2 2
              (Scenario.q 0) (Scenario.q 0) (Scenario.q 0)
              (Scenario.q 2) (Scenario.q 2) (Scenario.q 2) Scenario.cfg
              Scenario.shifted Scenario.projection Scenario.image_shape 1 0
              eq_refl eq_refl eq_refl eq_refl eq_refl eq_refl)
    as (g & raw & out & Hg & Hraw & Hout & H).
  exists g, raw, out. repeat (split; [assumption|]).
  apply (H 0 0 0 0 0); lia.
Defined.

Lemma output_elements_finite_witness :
  shape Scenario.shifted = [1; 4; 4]
  /\ shape Scenario.projection = [1; 3; 4]
  /\ shape Scenario.image_shape = [1; 2]
  /\ exists g raw out,
       __init__ [2; 2; 2]%Z Scenario.pc Scenario.cfg = Ok g
       /\ transform_grid uniform_bin g (voxel_grid g) (grid_to_lidar g)
                         Scenario.shifted Scenario.projection = Ok raw
       /\ forward uniform_bin g Scenario.shifted Scenario.projection
                  Scenario.image_shape = Ok out
       /\ shape out = [1; 2; 2; 2; 3]
       /\ Num.isfinite (elem out [0; 0; 0; 0; 0]) = true.
Proof.
  repeat (split; [reflexivity|]).
  destruct (output_elements_finite uniform_bin 2 2 2
              (Scenario.q 0) (Scenario.q 0) (Scenario.q 0)
              (Scenario.q 2) (Scenario.q 2) (Scenario.q 2) Scenario.cfg
              Scenario.shifted Scenario.projection Scenario.image_shape 1 0
              eq_refl eq_refl eq_refl eq_refl eq_refl eq_refl)
    as (g & raw & out & Hg & Hraw & Hout & So & H).
  exists g, raw, out. repeat (split; [assumption|]).
  apply (H 0 0 0 0 0); lia.
Defined.

(** C1, as the code has it: a camera whose principal plane holds the centre
    of voxel (0, 0, 0).  The projective division by the zero depth makes
    [u] and [v] infinite, and they are replaced by -2; the depth 0 falls in
    bin 0, which is normalised to -1 and kept.  The triple is neither all
    in range nor all the out-of-bounds value. *)
Lemma mixed_triple :
  exists g out,
    __init__ Scenario.grid Scenario.pc Scenario.cfg = Ok g
    /\ forward uniform_bin g Scenario.shifted Scenario.projection
               Scenario.image_shape = Ok out
    /\ elem out [0; 0; 0; 0; 0] = of_Z (-2)
    /\ elem out [0; 0; 0; 0; 1] = of_Z (-2)
    /\ elem out [0; 0; 0; 0; 2] = of_Z (-1)
    /\ coherent_triple (elem out [0; 0; 0; 0; 0]) (elem out [0; 0; 0; 0; 1])
                       (elem out [0; 0; 0; 0; 2]) = false.
Proof.
  destruct (check_ok (__init__ Scenario.grid Scenario.pc Scenario.cfg)
              (fun g =>
                 check (forward uniform_bin g Scenario.shifted
                                Scenario.projection Scenario.image_shape)
                       (fun out =>
                          Num.eqb (elem out [0; 0; 0; 0; 0]) (of_Z (-2))
                          && Num.eqb (elem out [0; 0; 0; 0; 1]) (of_Z (-2))
                          && Num.eqb (elem out [0; 0; 0; 0; 2]) (of_Z (-1))
                          && negb (coherent_triple
                                     (elem out [0; 0; 0; 0; 0])
                                     (elem out [0; 0; 0; 0; 1])
                                     (elem out [0; 0; 0; 0; 2])))))
    as (g & Hg & H); [vm_compute; reflexivity|].
  destruct (check_ok _ _ H) as (out & Hout & Hc).
  rewrite !andb_true_iff, negb_true_iff in Hc.
  destruct Hc as (((H0 & H1) & H2) & H3).
  exists g, out. split; [exact Hg|]. split; [exact Hout|].
  repeat split; try (apply eqb_eq; assumption). exact H3.
Qed.

(** A finite coordinate outside the image is kept: voxel (0, 1, 0), seen by
    the identity camera, has [v = 3] in an image of height 2, which is
    normalised to 5. *)
Lemma finite_out_of_range_kept :
  exists g out,
    __init__ Scenario.grid Scenario.pc Scenario.cfg = Ok g
    /\ forward uniform_bin g Scenario.identity Scenario.projection
               Scenario.image_shape = Ok out
    /\ elem out [0; 0; 1; 0; 1] = of_Z 5.
Proof.
  destruct (check_ok (__init__ Scenario.grid Scenario.pc Scenario.cfg)
              (fun g =>
                 check (forward uniform_bin g Scenario.identity
                                Scenario.projection Scenario.image_shape)
                       (fun out => Num.eqb (elem out [0; 0; 1; 0; 1]) (of_Z 5))))
    as (g & Hg & H); [vm_compute; reflexivity|].
  destruct (check_ok _ _ H) as (out & Hout & Hc).
  exists g, out. split; [exact Hg|]. split; [exact Hout|].
  apply eqb_eq, Hc.
Qed.

(** ** Calls on the heap *)

Lemma load_app_new (t : tensor num) (h : heap) :
  load (length h) (h ++ [t]) = t.
Proof. unfold load. rewrite nth_middle. reflexivity. Qed.

Lemma load_app_old (c : nat) (t : tensor num) (h : heap) :
  c < length h -> load c (h ++ [t]) = load c h.
Proof. intros H. unfold load. apply app_nth1, H. Qed.

Lemma length_store (c : nat) (t : tensor num) (h : heap) :
  length (store c t h) = length h.
Proof.
  revert c. induction h as [|x h IH]; intros [|c]; simpl; auto.
Qed.

Lemma load_store_same (c : nat) (t : tensor num) (h : heap) :
  c < length h -> load c (store c t h) = t.
Proof.
  unfold load. revert c. induction h as [|x h IH]; intros [|c] H; simpl in *;
    try lia; auto. apply IH. lia.
Qed.

Lemma load_store_other (c c' : nat) (t : tensor num) (h : heap) :
  c' <> c -> load c' (store c t h) = load c' h.
Proof.
  unfold load. revert c c'.
  induction h as [|x h IH]; intros [|c] [|c'] H; simpl; auto; try lia.
Qed.

Lemma reshape_reinterpret (x t : tensor num) (s : list nat) :
  torch.reshape x s = Ok t -> t = reinterpret x s.
Proof.
  unfold torch.reshape. destruct (numel (shape x) =? numel s); [|discriminate].
  intros E. inversion E. reflexivity.
Qed.

(** *** Growth of the heap *)

Lemma extends_refl (h : heap) : extends h h.
Proof. split; auto. Qed.

Lemma extends_trans (h1 h2 h3 : heap) :
  extends h1 h2 -> extends h2 h3 -> extends h1 h3.
Proof.
  intros (L1 & E1) (L2 & E2). split; [lia|].
  intros c Hc. rewrite E2 by lia. apply E1, Hc.
Qed.

Lemma extends_app (h : heap) (t : tensor num) : extends h (h ++ [t]).
Proof.
  split; [rewrite length_app; lia|].
  intros c Hc. apply load_app_old, Hc.
Qed.

Lemma extends_value (o : obj) (h h' : heap) :
  valid o h -> extends h h' -> value o h' = value o h.
Proof. intros V (_ & E). unfold value. rewrite E by exact V. reflexivity. Qed.

Lemma extends_valid (o : obj) (h h' : heap) :
  valid o h -> extends h h' -> valid o h'.
Proof. unfold valid. intros V (L & _). lia. Qed.

Lemma value_new (t : tensor num) (h : heap) :
  value (whole (length h)) (h ++ [t]) = t.
Proof. unfold value. simpl. apply load_app_new. Qed.

Lemma value_view (o : obj) (st : step) (h : heap) :
  value {| cell := cell o; path := st :: path o |} h = seen st (value o h).
Proof. reflexivity. Qed.

Lemma valid_new (t : tensor num) (h : heap) :
  valid (whole (length h)) (h ++ [t]).
Proof. unfold valid. simpl. rewrite length_app. simpl. lia. Qed.

Lemma length_assign (o : obj) (v : tensor num) (h : heap) :
  length (assign o v h) = length h.
Proof. apply length_store. Qed.

Lemma value_assign_same (o : obj) (v : tensor num) (h : heap) :
  path o = [] -> valid o h -> value o (assign o v h) = v.
Proof.
  intros P V. unfold value, assign. rewrite P. simpl.
  apply load_store_same, V.
Qed.

Lemma load_assign_other (o : obj) (v : tensor num) (h : heap) (c : nat) :
  c <> cell o -> load c (assign o v h) = load c h.
Proof. intros H. apply load_store_other, H. Qed.

(** *** The steps of a computation *)

Lemma run_read {A : Type} (o : obj) (k : tensor num -> M A) (h : heap) :
  (x <~ read o ;; k x) h = k (value o h) h.
Proof. reflexivity. Qed.

Lemma run_lift {A B : Type} (r : result A) (k : A -> M B) (h : heap) :
  (x <~ lift r ;; k x) h
  = match r with Ok a => k a h | Raise e => (Raise e, h) end.
Proof. destruct r; reflexivity. Qed.

Lemma run_fresh1 {A : Type} (f : tensor num -> result (tensor num)) (a : obj)
      (k : obj -> M A) (h : heap) :
  (x <~ Objects.fresh1 f a ;; k x) h
  = match f (value a h) with
    | Ok t => k (whole (length h)) (h ++ [t])
    | Raise e => (Raise e, h)
    end.
Proof.
  unfold Objects.fresh1, mbind, read, lift, new.
  destruct (f (value a h)); reflexivity.
Qed.

Lemma run_fresh2 {A : Type}
      (f : tensor num -> tensor num -> result (tensor num)) (a b : obj)
      (k : obj -> M A) (h : heap) :
  (x <~ Objects.fresh2 f a b ;; k x) h
  = match f (value a h) (value b h) with
    | Ok t => k (whole (length h)) (h ++ [t])
    | Raise e => (Raise e, h)
    end.
Proof.
  unfold Objects.fresh2, mbind, read, lift, new.
  destruct (f (value a h) (value b h)); reflexivity.
Qed.

Lemma run_reshape {A : Type} (a : obj) (s : list nat) (k : obj -> M A)
      (h : heap) :
  (x <~ Objects.reshape a s ;; k x) h
  = match torch.reshape (value a h) s with
    | Ok _ => k {| cell := cell a; path := Reshaped s :: path a |} h
    | Raise e => (Raise e, h)
    end.
Proof.
  unfold Objects.reshape, mbind, read, lift, ret.
  destruct (torch.reshape (value a h) s); reflexivity.
Qed.

Lemma run_project {A : Type} (p x : obj) (k : obj * obj -> M A) (h : heap) :
  (r <~ Objects.project_to_image p x ;; k r) h
  = match project_to_image (value p h) (value x h) with
    | Ok (g, d) =>
        k (whole (length h), whole (length (h ++ [g]))) ((h ++ [g]) ++ [d])
    | Raise e => (Raise e, h)
    end.
Proof.
  unfold Objects.project_to_image, mbind, read, lift, new, ret.
  destruct (project_to_image (value p h) (value x h)) as [[g d]|e];
    reflexivity.
Qed.

Lemma extends_assign (o : obj) (v : tensor num) (h0 h : heap) :
  extends h0 h -> length h0 <= cell o -> extends h0 (assign o v h).
Proof.
  intros (L & E) Hc. split; [rewrite length_assign; exact L|].
  intros c Hlt. rewrite load_assign_other by lia. apply E, Hlt.
Qed.

Lemma valid_assign (o o' : obj) (v : tensor num) (h : heap) :
  valid o h -> valid o (assign o' v h).
Proof. unfold valid. rewrite length_assign. auto. Qed.

Ltac sizes :=
  unfold valid, whole in *; cbn [cell] in *;
  rewrite ?length_app in *; cbn [length] in *; lia.

Ltac grown :=
  split;
  [ rewrite ?length_app; cbn [length]; lia
  | let c := fresh "c" in let Hc := fresh "Hc" in
    intros c Hc;
    repeat (rewrite load_app_old by (rewrite ?length_app; cbn [length]; lia));
    reflexivity ].

Section CallFacts.

Variable bin_depth : DepthDiscConfig -> num -> num.
Variable normalize_in_place : bool.

Lemma value_app_old (o : obj) (t : tensor num) (h : heap) :
  valid o h -> value o (h ++ [t]) = value o h.
Proof. intros V. apply extends_value; [exact V | apply extends_app]. Qed.

Lemma transform_grid_call_spec (self : FrustumGridGenerator)
      (vg gl L I : obj) (h : heap) :
  valid vg h -> valid gl h -> valid L h -> valid I h ->
  let '(r, h') := transform_grid_call bin_depth self vg gl L I h in
  extends h h'
  /\ match r with
     | Ok o =>
         path o = [] /\ length h <= cell o < length h'
         /\ transform_grid bin_depth self (value vg h) (value gl h)
                           (value L h) (value I h) = Ok (value o h')
     | Raise e =>
         transform_grid bin_depth self (value vg h) (value gl h)
                        (value L h) (value I h) = Raise e
     end.
Proof.
  intros Vv Vg VL VI.
  unfold transform_grid_call, transform_grid.
  rewrite run_read. cbv zeta.
  unfold Objects.matmul, Objects.repeat_interleave, Objects.transform_points,
    Objects.cat_last, Objects.unsqueeze_last.
  rewrite run_fresh2.
  destruct (matmul (value L h) (value gl h)) as [t1|e]; simpl bind;
    [|split; [apply extends_refl | reflexivity]].
  rewrite run_reshape, value_new.
  destruct (torch.reshape t1 [hd 0 (shape (value L h)); 1; 1; 4; 4])
    as [t2|e] eqn:E2; simpl bind; [|split; [grown | reflexivity]].
  apply reshape_reinterpret in E2. subst t2.
  rewrite run_fresh1.
  rewrite (value_app_old vg) by assumption.
  rewrite run_fresh2.
  rewrite value_view, value_app_old, value_new, value_new by apply valid_new.
  cbn [seen].
  destruct (kornia.transform_points _ _) as [t3|e]; simpl bind;
    [|split; [grown | reflexivity]].
  rewrite run_reshape.
  rewrite !(value_app_old I) by sizes.
  destruct (torch.reshape (value I h) _) as [t4|e] eqn:E4; simpl bind;
    [|split; [grown | reflexivity]].
  apply reshape_reinterpret in E4. subst t4.
  rewrite run_project.
  rewrite value_view. cbn [seen].
  rewrite !(value_app_old I) by sizes. rewrite value_new.
  destruct (project_to_image _ _) as [[g d]|e]; simpl bind;
    [|split; [grown | reflexivity]].
  cbv beta iota zeta.
  rewrite run_fresh1, value_new.
  unfold mbind at 1, ret at 1.
  unfold Objects.fresh2, mbind, read, lift, new.
  rewrite value_view. cbn [seen cell path whole].
  rewrite value_app_old by sizes. rewrite value_new.
  rewrite !value_app_old by sizes. rewrite value_new.
  destruct (torch.cat_last g _) as [t5|e]; [|split; [grown | reflexivity]].
  split; [grown|]. split; [reflexivity|]. split; [sizes|].
  rewrite value_new. reflexivity.
Qed.

Lemma forward_call_spec (self : instance) (L I : obj)
      (image_shape : tensor Z) (h : heap) :
  intact self h -> valid L h -> valid I h ->
  let '(r, h') := forward_call bin_depth normalize_in_place self L I
                               image_shape h in
  extends h h'
  /\ outcome r h' = forward bin_depth (fields self) (value L h) (value I h)
                            image_shape
  /\ match r with
     | Ok o => path o = [] /\ length h <= cell o < length h'
     | Raise _ => True
     end.
Proof.
  intros (Vv & Vg & Ev & Eg) VL VI.
  pose proof (transform_grid_call_spec (fields self)
                (voxel_grid_ref self) (grid_to_lidar_ref self) L I h
                Vv Vg VL VI) as T.
  unfold forward_call, forward. unfold mbind at 1.
  destruct (transform_grid_call bin_depth (fields self) (voxel_grid_ref self)
              (grid_to_lidar_ref self) L I h) as (r0, h0).
  rewrite Ev, Eg in T. destruct T as (X0 & T).
  destruct r0 as [o|e]; [|rewrite T; auto].
  destruct T as (Po & Co & ->). simpl bind.
  rewrite run_lift.
  destruct (max_dim0 image_shape) as [mx|e]; simpl bind; [|auto].
  rewrite run_lift.
  destruct (cat1 _ mx) as [fs|e]; simpl bind; [|auto].
  unfold Objects.normalize_coords. unfold mbind at 1.
  rewrite run_read, run_lift.
  destruct (grid_utils.normalize_coords (value o h0) fs) as [t|e]; simpl bind;
    [|auto].
  assert (Vo : valid o h0) by (unfold valid; lia).
  unfold Objects.replace_not_finite.
  destruct normalize_in_place.
  - unfold mbind, write, read, ret.
    rewrite value_assign_same by assumption.
    split; [|split].
    + apply extends_assign; [|lia]. apply extends_assign; [assumption | lia].
    + simpl. rewrite value_assign_same
        by (try assumption; apply valid_assign; assumption).
      reflexivity.
    + rewrite !length_assign. auto.
  - unfold mbind, write, read, ret, new.
    rewrite value_new.
    split; [|split].
    + apply extends_assign; [|simpl; lia].
      apply (extends_trans h h0); [assumption | apply extends_app].
    + simpl. rewrite value_assign_same
        by (try reflexivity; apply valid_new).
      reflexivity.
    + rewrite length_assign, length_app. simpl. split; [reflexivity | lia].
Qed.

End CallFacts.

Lemma construct_intact (grid_size : list Z) (pc_range : list Qc)
      (cfg : DepthDiscConfig) (h0 h : heap) (self : instance) :
  construct grid_size pc_range cfg h0 = (Ok self, h) ->
  __init__ grid_size pc_range cfg = Ok (fields self)
  /\ intact self h /\ extends h0 h.
Proof.
  unfold construct. rewrite run_lift.
  destruct (__init__ grid_size pc_range cfg) as [g|e]; [|discriminate].
  unfold mbind, new, ret. intros E. inversion E; subst; clear E.
  split; [reflexivity|]. split; [|grown].
  unfold intact. cbn [fields voxel_grid_ref grid_to_lidar_ref].
  rewrite value_new, value_app_old, value_new by apply valid_new.
  repeat split; sizes.
Qed.

Lemma intact_extends (self : instance) (h h' : heap) :
  intact self h -> extends h h' -> intact self h'.
Proof.
  intros (Vv & Vg & Ev & Eg) X. unfold intact.
  rewrite !(extends_value _ h h') by assumption.
  repeat split; try assumption; eapply extends_valid; eassumption.
Qed.

Lemma outcome_extends (r : result obj) (h h' : heap) :
  match r with Ok o => valid o h | Raise _ => True end ->
  extends h h' -> outcome r h' = outcome r h.
Proof.
  destruct r as [o|e]; simpl; [|reflexivity].
  intros V X. rewrite (extends_value o h h') by assumption. reflexivity.
Qed.

(** C8: the grid that a call returns is a function of the configuration the
    generator was built from and of the values of the three arguments.  A
    call writes into no tensor that existed before it, although
    [transform_grid] is handed the tensors of the generator themselves and
    views [cam_to_img], and whether or not the normalisation works in
    place: the tensor that the masked assignment changes descends from the
    one that [torch.cat] has created.  So the tensors of the generator and
    the arguments are as they were after the call, a second call with the
    same arguments returns the same grid and leaves the first one as it
    was, and so does a call on another generator built from the same
    configuration, with other tensors that hold the same values. *)
Theorem forward_deterministic (bin_depth : DepthDiscConfig -> num -> num)
        (normalize_in_place : bool)
        (grid_size : list Z) (pc_range : list Qc) (cfg : DepthDiscConfig)
        (image_shape : tensor Z) (h h' : heap) (self self' : instance)
        (lidar_to_cam cam_to_img lidar_to_cam' cam_to_img' : obj) :
  __init__ grid_size pc_range cfg = Ok (fields self) -> intact self h ->
  __init__ grid_size pc_range cfg = Ok (fields self') -> intact self' h' ->
  valid lidar_to_cam h -> valid cam_to_img h ->
  valid lidar_to_cam' h' -> valid cam_to_img' h' ->
  value lidar_to_cam' h' = value lidar_to_cam h ->
  value cam_to_img' h' = value cam_to_img h ->
  let '(r1, h1) := forward_call bin_depth normalize_in_place self
                                lidar_to_cam cam_to_img image_shape h in
  let '(r2, h2) := forward_call bin_depth normalize_in_place self
                                lidar_to_cam cam_to_img image_shape h1 in
  let '(r3, h3) := forward_call bin_depth normalize_in_place self'
                                lidar_to_cam' cam_to_img' image_shape h' in
  outcome r1 h1 = forward bin_depth (fields self) (value lidar_to_cam h)
                          (value cam_to_img h) image_shape
  /\ outcome r2 h2 = outcome r1 h1
  /\ outcome r3 h3 = outcome r1 h1
  /\ outcome r1 h2 = outcome r1 h1
  /\ intact self h2
  /\ value lidar_to_cam h2 = value lidar_to_cam h
  /\ value cam_to_img h2 = value cam_to_img h.
Proof.
  intros Hg Hi Hg' Hi' VL VI VL' VI' EL EI.
  assert (Hf : fields self' = fields self) by congruence.
  pose proof (forward_call_spec bin_depth normalize_in_place self
                lidar_to_cam cam_to_img image_shape h Hi VL VI) as H1.
  destruct (forward_call bin_depth normalize_in_place self lidar_to_cam
              cam_to_img image_shape h) as (r1, h1).
  destruct H1 as (X1 & O1 & F1).
  pose proof (intact_extends self h h1 Hi X1) as Hi1.
  pose proof (extends_valid _ _ _ VL X1) as VL1.
  pose proof (extends_valid _ _ _ VI X1) as VI1.
  pose proof (forward_call_spec bin_depth normalize_in_place self
                lidar_to_cam cam_to_img image_shape h1 Hi1 VL1 VI1) as H2.
  destruct (forward_call bin_depth normalize_in_place self lidar_to_cam
              cam_to_img image_shape h1) as (r2, h2).
  destruct H2 as (X2 & O2 & _).
  pose proof (forward_call_spec bin_depth normalize_in_place self'
                lidar_to_cam' cam_to_img' image_shape h' Hi' VL' VI') as H3.
  destruct (forward_call bin_depth normalize_in_place self' lidar_to_cam'
              cam_to_img' image_shape h') as (r3, h3).
  destruct H3 as (_ & O3 & _).
  rewrite (extends_value _ h h1) in O2 by assumption.
  rewrite (extends_value _ h h1) in O2 by assumption.
  rewrite EL, EI, Hf in O3.
  split; [exact O1|]. split; [congruence|]. split; [congruence|].
  split.
  { apply outcome_extends; [|exact X2].
    destruct r1 as [o|e]; [|exact I]. unfold valid. lia. }
  split; [apply (intact_extends self h1 h2 Hi1 X2)|].
  pose proof (extends_trans h h1 h2 X1 X2) as X.
  split; apply extends_value; assumption.
Qed.

Lemma forward_deterministic_witness :
  exists g,
    __init__ Scenario.grid Scenario.pc Scenario.cfg = Ok g
    /\ let h := [Scenario.identity; Scenario.projection;
                 voxel_grid g; grid_to_lidar g] in
       let self := {| fields := g; voxel_grid_ref := whole 2;
                      grid_to_lidar_ref := whole 3 |} in
       let '(r1, h1) := forward_call uniform_bin true self (whole 0) (whole 1)
                                     Scenario.image_shape h in
       let '(r2, h2) := forward_call uniform_bin true self (whole 0) (whole 1)
                                     Scenario.image_shape h1 in
       outcome r2 h2 = outcome r1 h1
       /\ outcome r1 h2 = outcome r1 h1
       /\ intact self h2.
Proof.
  destruct (init_spec 2 2 2 (Scenario.q 0) (Scenario.q 0) (Scenario.q 0)
              (Scenario.q 2) (Scenario.q 2) (Scenario.q 2) Scenario.cfg)
    as (g & _ & _ & Hg & _); try lia.
  exists g. split; [exact Hg|]. cbv zeta.
  assert (Hi : intact {| fields := g; voxel_grid_ref := whole 2;
                         grid_to_lidar_ref := whole 3 |}
                      [Scenario.identity; Scenario.projection;
                       voxel_grid g; grid_to_lidar g]).
  { unfold intact, valid. simpl. repeat split; lia. }
  assert (V0 : valid (whole 0) [Scenario.identity; Scenario.projection;
                                voxel_grid g; grid_to_lidar g])
    by (unfold valid; simpl; lia).
  assert (V1 : valid (whole 1) [Scenario.identity; Scenario.projection;
                                voxel_grid g; grid_to_lidar g])
    by (unfold valid; simpl; lia).
  pose proof (forward_deterministic uniform_bin true Scenario.grid Scenario.pc
                Scenario.cfg Scenario.image_shape
                [Scenario.identity; Scenario.projection;
                 voxel_grid g; grid_to_lidar g]
                [Scenario.identity; Scenario.projection;
                 voxel_grid g; grid_to_lidar g]
                {| fields := g; voxel_grid_ref := whole 2;
                   grid_to_lidar_ref := whole 3 |}
                {| fields := g; voxel_grid_ref := whole 2;
                   grid_to_lidar_ref := whole 3 |}
                (whole 0) (whole 1) (whole 0) (whole 1)
                Hg Hi Hg Hi V0 V1 V0 V1 eq_refl eq_refl) as D.
  destruct (forward_call uniform_bin true _ (whole 0) (whole 1)
              Scenario.image_shape _) as (r1, h1).
  destruct (forward_call uniform_bin true _ (whole 0) (whole 1)
              Scenario.image_shape h1) as (r2, h2).
  cbv beta iota in D. destruct D as (_ & D2 & _ & D4 & D5 & _).
  cbv beta iota. split; [exact D2|]. split; [exact D4 | exact D5].
Defined.

(** ** The end-to-end scenario *)

(** C9, as the code has it: in the scenario the image coordinate of voxel
    (0, 0, 0) is not (0.5, 0.5). *)
Lemma scenario_image_coordinate_not_half :
  exists g raw,
    __init__ Scenario.grid Scenario.pc Scenario.cfg = Ok g
    /\ transform_grid uniform_bin g (voxel_grid g) (grid_to_lidar g)
                      Scenario.identity Scenario.projection = Ok raw
    /\ elem raw [0; 0; 0; 0; 0] <> half
    /\ elem raw [0; 0; 0; 0; 1] <> half.
Proof.
  destruct (check_ok (__init__ Scenario.grid Scenario.pc Scenario.cfg)
              (fun g =>
                 check (transform_grid uniform_bin g (voxel_grid g)
                          (grid_to_lidar g) Scenario.identity
                          Scenario.projection)
                       (fun raw =>
                          negb (Num.eqb (elem raw [0; 0; 0; 0; 0]) half)
                          && negb (Num.eqb (elem raw [0; 0; 0; 0; 1]) half))))
    as (g & Hg & H); [vm_compute; reflexivity|].
  destruct (check_ok _ _ H) as (raw & Hraw & Hc).
  rewrite andb_true_iff, !negb_true_iff in Hc. destruct Hc as (H0 & H1).
  exists g, raw. split; [exact Hg|]. split; [exact Hraw|].
  split; apply eqb_neq; assumption.
Qed.

(** C9, amended: in the scenario (grid size (2, 2, 2), range
    [\[0, 0, 0, 2, 2, 2\]], identity camera, the projection
    [\[\[1,0,0,0\],\[0,1,0,0\],\[0,0,1,0\]\]], image shape [\[2, 2\]], two
    bins) the voxel size is (1, 1, 1); voxel (0, 0, 0) has the centre
    (0.5, 0.5, 0.5), which projects to the homogeneous image coordinates
    (0.5, 0.5, 0.5), that is, after the division by the depth 0.5, to the
    image coordinate (1, 1); the depth 0.5 falls in bin 0; and the triple
    (1, 1, 0) is normalised against the extents (2, 2, 2) to (1, 1, -1). *)
Theorem end_to_end_scenario :
  exists g raw out,
    __init__ Scenario.grid Scenario.pc Scenario.cfg = Ok g
    /\ (elem (voxel_size g) [0] = one /\ elem (voxel_size g) [1] = one
        /\ elem (voxel_size g) [2] = one)
    /\ (let world :=
          mat_vec (mat2 (grid_to_lidar g))
                  (homogeneous (voxel_center (voxel_grid g) 0 0 0)) in
        world 0 = half /\ world 1 = half /\ world 2 = half)
    /\ (let h := image_point (grid_to_lidar g) Scenario.identity
                             Scenario.projection (voxel_grid g) 0 0 0 0 in
        h 0 = half /\ h 1 = half /\ h 2 = half)
    /\ transform_grid uniform_bin g (voxel_grid g) (grid_to_lidar g)
                      Scenario.identity Scenario.projection = Ok raw
    /\ (elem raw [0; 0; 0; 0; 0] = one /\ elem raw [0; 0; 0; 0; 1] = one
        /\ elem raw [0; 0; 0; 0; 2] = zero)
    /\ uniform_bin Scenario.cfg half = zero
    /\ forward uniform_bin g Scenario.identity Scenario.projection
               Scenario.image_shape = Ok out
    /\ (reference_extent Scenario.cfg Scenario.image_shape 0 = 2%Z
        /\ reference_extent Scenario.cfg Scenario.image_shape 1 = 2%Z
        /\ reference_extent Scenario.cfg Scenario.image_shape 2 = 2%Z)
    /\ (elem out [0; 0; 0; 0; 0] = one /\ elem out [0; 0; 0; 0; 1] = one
        /\ elem out [0; 0; 0; 0; 2] = of_Z (-1)).
Proof.
  destruct (check_ok (__init__ Scenario.grid Scenario.pc Scenario.cfg)
    (fun g =>
       let world :=
         mat_vec (mat2 (grid_to_lidar g))
                 (homogeneous (voxel_center (voxel_grid g) 0 0 0)) in
       let h := image_point (grid_to_lidar g) Scenario.identity
                            Scenario.projection (voxel_grid g) 0 0 0 0 in
       Num.eqb (elem (voxel_size g) [0]) one
       && Num.eqb (elem (voxel_size g) [1]) one
       && Num.eqb (elem (voxel_size g) [2]) one
       && Num.eqb (world 0) half && Num.eqb (world 1) half
       && Num.eqb (world 2) half
       && Num.eqb (h 0) half && Num.eqb (h 1) half && Num.eqb (h 2) half
       && check (transform_grid uniform_bin g (voxel_grid g) (grid_to_lidar g)
                   Scenario.identity Scenario.projection)
            (fun raw =>
               Num.eqb (elem raw [0; 0; 0; 0; 0]) one
               && Num.eqb (elem raw [0; 0; 0; 0; 1]) one
               && Num.eqb (elem raw [0; 0; 0; 0; 2]) zero
               && check (forward uniform_bin g Scenario.identity
                           Scenario.projection Scenario.image_shape)
                    (fun out =>
                       Num.eqb (elem out [0; 0; 0; 0; 0]) one
                       && Num.eqb (elem out [0; 0; 0; 0; 1]) one
                       && Num.eqb (elem out [0; 0; 0; 0; 2]) (of_Z (-1))))))
    as (g & Hg & H); [vm_compute; reflexivity|].
  cbv zeta in H. rewrite !andb_true_iff in H.
  destruct H as (((((((((V0 & V1) & V2) & W0) & W1) & W2) & I0) & I1) & I2) & H).
  destruct (check_ok _ _ H) as (raw & Hraw & Hr).
  rewrite !andb_true_iff in Hr. destruct Hr as (((R0 & R1) & R2) & Hr).
  destruct (check_ok _ _ Hr) as (out & Hout & Ho).
  rewrite !andb_true_iff in Ho. destruct Ho as ((O0 & O1) & O2).
  exists g, raw, out.
  split; [exact Hg|].
  split; [repeat split; apply eqb_eq; assumption|].
  split; [cbv zeta; repeat split; apply eqb_eq; assumption|].
  split; [cbv zeta; repeat split; apply eqb_eq; assumption|].
  split; [exact Hraw|].
  split; [repeat split; apply eqb_eq; assumption|].
  split; [apply eqb_eq; vm_compute; reflexivity|].
  split; [exact Hout|].
  split; [repeat split; vm_compute; reflexivity|].
  repeat split; apply eqb_eq; assumption.
Qed.

(* ================================================================== *)
(** * Further properties of the generator *)

(** ** What construction accepts *)

Lemma int64_all (l : list Z) :
  Forall (fun n => (- 2 ^ 63 <= n < 2 ^ 63)%Z) l <->
  forallb int64_range l = true.
Proof.
  rewrite forallb_forall, Forall_forall.
  split; intros H n Hn; apply int64_range_spec, H, Hn.
Qed.

(** The narrowing is not negative exactly when the low 32 bits are below
    [2^31]. *)
Lemma int32_nonneg (n : Z) :
  (0 <= int32 n)%Z <-> (n mod 2 ^ 32 < 2 ^ 31)%Z.
Proof.
  unfold int32.
  pose proof (Z.div_mod n (2 ^ 32) ltac:(lia)) as D.
  pose proof (Z.mod_pos_bound n (2 ^ 32) ltac:(lia)) as B.
  set (q := (n / 2 ^ 32)%Z) in *. set (r := (n mod 2 ^ 32)%Z) in *.
  destruct (Z_lt_dec r (2 ^ 31)) as [Hr|Hr].
  - rewrite <- (Z.mod_unique_pos (n + 2 ^ 31) (2 ^ 32) q (r + 2 ^ 31));
      lia.
  - rewrite <- (Z.mod_unique_pos (n + 2 ^ 31) (2 ^ 32) (q + 1) (r - 2 ^ 31));
      lia.
Qed.

Lemma init_rejects_range (grid_size : list Z) (pc_range : list Qc)
      (cfg : DepthDiscConfig) :
  forallb int64_range grid_size = true ->
  length pc_range <> 6 ->
  __init__ grid_size pc_range cfg
  = Raise (RuntimeError "shape is invalid for input size").
Proof.
  intros R H. unfold __init__. rewrite as_tensor_ok by assumption.
  simpl bind. rewrite reshape_raise; [reflexivity|].
  simpl. rewrite length_map. lia.
Qed.

Lemma init_rejects_grid (grid_size : list Z) (a b c d e f : Qc)
      (cfg : DepthDiscConfig) :
  forallb int64_range grid_size = true ->
  length grid_size <> 3 ->
  __init__ grid_size [a; b; c; d; e; f] cfg
  = (if length grid_size =? 1
     then Raise (ValueError "wrong number of values to unpack (expected 3)")
     else torch.dim_error).
Proof.
  intros R H. unfold __init__. rewrite as_tensor_ok by assumption.
  destruct grid_size as [|X [|Y [|Z [|W rest]]]]; simpl in H; try lia;
    reflexivity.
Qed.

(** X1: construction succeeds exactly when the point cloud range has six
    numbers and the grid size has three components, each a 64-bit integer
    whose narrowing to 32 bits by [grid_size.int()] is not negative, that
    is whose low 32 bits are below [2^31]: for components between [-2^31]
    and [2^31 - 1], when none is negative.  With 64-bit components, a range
    of another length fails in the reshape to (2, 3); a grid size of one
    component passes the division by broadcasting and fails in the
    unpacking into depth, width and height; a grid size of any other length
    fails in the division. *)
Theorem construction_succeeds_iff (grid_size : list Z) (pc_range : list Qc)
        (cfg : DepthDiscConfig) :
  ((exists g, __init__ grid_size pc_range cfg = Ok g)
   <-> length pc_range = 6
       /\ exists X Y Z, grid_size = [X; Y; Z]
            /\ (- 2 ^ 63 <= X < 2 ^ 63)%Z /\ (- 2 ^ 63 <= Y < 2 ^ 63)%Z
            /\ (- 2 ^ 63 <= Z < 2 ^ 63)%Z
            /\ (0 <= int32 X)%Z /\ (0 <= int32 Y)%Z /\ (0 <= int32 Z)%Z)
  /\ (forall n, (0 <= int32 n)%Z <-> (n mod 2 ^ 32 < 2 ^ 31)%Z)
  /\ (forall n, (- 2 ^ 31 <= n < 2 ^ 31)%Z -> int32 n = n)
  /\ (Forall (fun n => (- 2 ^ 63 <= n < 2 ^ 63)%Z) grid_size ->
      (length pc_range <> 6 ->
       __init__ grid_size pc_range cfg
       = Raise (RuntimeError "shape is invalid for input size"))
      /\ (length pc_range = 6 -> length grid_size = 1 ->
          __init__ grid_size pc_range cfg
          = Raise (ValueError "wrong number of values to unpack (expected 3)"))
      /\ (length pc_range = 6 -> length grid_size <> 1 ->
          length grid_size <> 3 ->
          __init__ grid_size pc_range cfg = torch.dim_error)).
Proof.
  assert (Hsix : length pc_range = 6 ->
                 exists a b c d e f, pc_range = [a; b; c; d; e; f]).
  { intros H.
    destruct pc_range as [|a [|b [|c [|d [|e [|f [|]]]]]]]; try discriminate.
    repeat eexists. }
  split; [split|].
  - intros (g & Hg).
    destruct (forallb int64_range grid_size) eqn:R;
      [|rewrite init_overflow in Hg by assumption; discriminate].
    destruct (Nat.eq_dec (length pc_range) 6) as [H6|H6];
      [|rewrite init_rejects_range in Hg by assumption; discriminate].
    split; [assumption|].
    destruct (Hsix H6) as (a & b & c & d & e & f & ->).
    destruct (Nat.eq_dec (length grid_size) 3) as [H3|H3].
    + destruct grid_size as [|X [|Y [|Z [|]]]]; try discriminate.
      exists X, Y, Z. split; [reflexivity|].
      simpl in R. rewrite !andb_true_iff in R.
      destruct R as (RX & RY & RZ & _).
      split; [apply int64_range_spec, RX|].
      split; [apply int64_range_spec, RY|].
      split; [apply int64_range_spec, RZ|].
      destruct (Z_lt_dec (int32 X) 0) as [HX|HX];
        [rewrite init_negative in Hg by auto; discriminate|].
      destruct (Z_lt_dec (int32 Y) 0) as [HY|HY];
        [rewrite init_negative in Hg by auto; discriminate|].
      destruct (Z_lt_dec (int32 Z) 0) as [HZ|HZ];
        [rewrite init_negative in Hg by auto; discriminate|].
      lia.
    + rewrite init_rejects_grid in Hg by assumption.
      destruct (length grid_size =? 1); discriminate.
  - intros (H6 & X & Y & Z & -> & RX & RY & RZ & HX & HY & HZ).
    destruct (Hsix H6) as (a & b & c & d & e & f & ->).
    apply int64_range_spec in RX. apply int64_range_spec in RY.
    apply int64_range_spec in RZ.
    destruct (init_wrapped X Y Z a b c d e f cfg RX RY RZ HX HY HZ)
      as (g & _ & _ & Hg & _).
    exists g. exact Hg.
  - split; [apply int32_nonneg|]. split; [apply int32_small|].
    intros R. apply int64_all in R.
    split; [apply init_rejects_range; assumption|]. split.
    + intros H6 H1. destruct (Hsix H6) as (a & b & c & d & e & f & ->).
      rewrite init_rejects_grid by (assumption || lia).
      rewrite H1. reflexivity.
    + intros H6 H1 H3. destruct (Hsix H6) as (a & b & c & d & e & f & ->).
      rewrite init_rejects_grid by (assumption || lia).
      apply Nat.eqb_neq in H1. rewrite H1. reflexivity.
Qed.

(** ** The unprojection matrix *)

Lemma unpack3_items {A : Type} (t : tensor A) (n : nat) :
  shape t = [n] ->
  unpack3 (map item (unbind t))
  = if n =? 3 then Ok (elem t [0], elem t [1], elem t [2])
    else Raise (ValueError "wrong number of values to unpack (expected 3)").
Proof.
  intros S. unfold unbind. rewrite S. simpl.
  destruct n as [|[|[|[|n]]]]; reflexivity.
Qed.

(** X2: [grid_to_lidar_unproject] returns exactly when both of its
    arguments have three elements, and fails in the unpacking otherwise; the
    matrix it returns is 4x4, carries the voxel size on the diagonal and the
    minimum of the range in the last column, and is zero elsewhere above the
    bottom row (0, 0, 0, 1). *)
Theorem unproject_succeeds_iff (pc_min voxel_size : tensor num) (n m : nat) :
  shape voxel_size = [n] -> shape pc_min = [m] ->
  (n = 3 /\ m = 3 ->
   exists unproject,
     grid_to_lidar_unproject pc_min voxel_size = Ok unproject
     /\ shape unproject = [4; 4]
     /\ forall i j, i < 4 -> j < 4 ->
          elem unproject [i; j]
          = if i =? 3 then (if j =? 3 then one else zero)
            else if j =? i then elem voxel_size [i]
            else if j =? 3 then elem pc_min [i]
            else zero)
  /\ (~ (n = 3 /\ m = 3) ->
      grid_to_lidar_unproject pc_min voxel_size
      = Raise (ValueError "wrong number of values to unpack (expected 3)")).
Proof.
  intros Sv Sm. unfold grid_to_lidar_unproject.
  rewrite (unpack3_items voxel_size n Sv), (unpack3_items pc_min m Sm).
  split.
  - intros (-> & ->). simpl. eexists. split; [reflexivity|].
    split; [reflexivity|].
    intros i j Hi Hj.
    destruct i as [|[|[|[|i]]]]; try lia;
      destruct j as [|[|[|[|j]]]]; try lia; reflexivity.
  - intros H. destruct (n =? 3) eqn:En; [|reflexivity].
    destruct (m =? 3) eqn:Em; [|reflexivity].
    apply Nat.eqb_eq in En, Em. tauto.
Qed.

(** ** Voxel centres in the LiDAR frame *)

Lemma centre_in_range_Q (lo hi : Q) (n x : Z) :
  (0 < n)%Z -> (0 <= x < n)%Z -> (lo < hi)%Q ->
  (lo < (inject_Z x + (1 # 2)) * ((hi - lo) / inject_Z n) + lo)%Q
  /\ ((inject_Z x + (1 # 2)) * ((hi - lo) / inject_Z n) + lo < hi)%Q.
Proof.
  intros Hn Hx Hlt.
  assert (Hn' : (0 < inject_Z n)%Q) by (unfold Qlt; simpl; lia).
  assert (Hx0 : (0 <= inject_Z x)%Q) by (unfold Qle; simpl; lia).
  assert (Hx1 : (inject_Z x + 1 <= inject_Z n)%Q).
  { change 1%Q with (inject_Z 1). rewrite <- inject_Z_plus, <- Zle_Qle. lia. }
  set (v := ((hi - lo) / inject_Z n)%Q).
  assert (Hv : (0 < v)%Q).
  { apply Qlt_shift_div_l; [assumption | lra]. }
  assert (Hnv : (inject_Z n * v == hi - lo)%Q).
  { unfold v. field. intros E. rewrite E in Hn'. lra. }
  split.
  - assert (0 < (inject_Z x + (1 # 2)) * v)%Q by (apply Qmult_lt_0_compat; lra).
    lra.
  - assert ((inject_Z x + (1 # 2)) * v < inject_Z n * v)%Q
      by (apply Qmult_lt_compat_r; lra).
    lra.
Qed.

(** The centre of the [x]-th of [n] cells of the interval from [lo] to
    [hi]. *)
Lemma centre_in_range (lo hi : Qc) (n : Z) (x : nat) :
  (Z.of_nat x < n)%Z -> (lo < hi)%Qc ->
  (lo < (Q2Qc (inject_Z (Z.of_nat x)) + Q2Qc (1 # 2))
        * ((hi - lo) / Q2Qc (inject_Z n)) + lo)%Qc
  /\ ((Q2Qc (inject_Z (Z.of_nat x)) + Q2Qc (1 # 2))
      * ((hi - lo) / Q2Qc (inject_Z n)) + lo < hi)%Qc.
Proof.
  intros Hx Hlt.
  destruct (centre_in_range_Q lo hi n (Z.of_nat x)) as [H1 H2];
    try lia; [exact Hlt|].
  unfold Qclt, Qcdiv, Qcminus, Qcplus, Qcmult, Qcopp, Qcinv, Q2Qc.
  cbn [this]. rewrite !Qred_correct. split; assumption.
Qed.

Lemma sub_div_fin (lo hi : Qc) (n : Z) :
  n <> 0%Z ->
  ((Fin hi - Fin lo) / of_Z n)%num = Fin ((hi - lo) / Q2Qc (inject_Z n))%Qc.
Proof.
  intros H. unfold Num.sub. cbn [Num.opp]. unfold Num.add.
  apply div_of_Z, H.
Qed.

(** The LiDAR coordinates of a voxel centre: the grid-to-LiDAR matrix
    applied to the entry of the voxel grid. *)
Lemma world_center (X Y Z : Z) (a b c d e f : Qc) (cfg : DepthDiscConfig)
      (g : FrustumGridGenerator) (x y z : nat) :
  (0 < X)%Z -> (0 < Y)%Z -> (0 < Z)%Z ->
  built X Y Z a b c d e f cfg g ->
  x < Z.to_nat X -> y < Z.to_nat Y -> z < Z.to_nat Z ->
  let world :=
    mat_vec (mat2 (grid_to_lidar g))
            (homogeneous (voxel_center (voxel_grid g) x y z)) in
  world 0 = Fin ((Q2Qc (inject_Z (Z.of_nat x)) + Q2Qc (1 # 2))
                 * ((d - a) / Q2Qc (inject_Z X)) + a)%Qc
  /\ world 1 = Fin ((Q2Qc (inject_Z (Z.of_nat y)) + Q2Qc (1 # 2))
                    * ((e - b) / Q2Qc (inject_Z Y)) + b)%Qc
  /\ world 2 = Fin ((Q2Qc (inject_Z (Z.of_nat z)) + Q2Qc (1 # 2))
                    * ((f - c) / Q2Qc (inject_Z Z)) + c)%Qc
  /\ world 3 = one.
Proof.
  intros HX HY HZ Hb Hx Hy Hz world. subst world.
  destruct (built_voxel_size Hb) as (_ & V0 & V1 & V2).
  destruct (built_centers Hb 0 x y z Hx Hy Hz) as (C0 & C1 & C2).
  unfold mat_vec, mat2, homogeneous, voxel_center. simpl.
  rewrite C0, C1, C2.
  rewrite (built_grid_to_lidar Hb), V0, V1, V2.
  rewrite !sub_div_fin by lia.
  unfold of_nat, of_Z, half, zero, one. simpl.
  unfold Num.mul, Num.add. cbn iota beta.
  repeat split; f_equal; ring.
Qed.

(** X3: with a positive grid size of 32-bit integers and a range whose
    maximum exceeds its minimum on every axis, the grid-to-LiDAR matrix
    sends the centre of
    every voxel (x, y, z) of the voxel grid to the point
    [pc_min + (index + 0.5) * voxel_size], which lies strictly inside the
    point cloud range on every axis. *)
Theorem voxel_centers_inside_range (X Y Z : Z) (a b c d e f : Qc)
        (cfg : DepthDiscConfig) :
  (0 < X < 2 ^ 31)%Z -> (0 < Y < 2 ^ 31)%Z -> (0 < Z < 2 ^ 31)%Z ->
  (a < d)%Qc -> (b < e)%Qc -> (c < f)%Qc ->
  exists g,
    __init__ [X; Y; Z] [a; b; c; d; e; f] cfg = Ok g
    /\ forall x y z,
         x < Z.to_nat X -> y < Z.to_nat Y -> z < Z.to_nat Z ->
         exists wx wy wz,
           let world :=
             mat_vec (mat2 (grid_to_lidar g))
                     (homogeneous (voxel_center (voxel_grid g) x y z)) in
           world 0 = Fin wx /\ world 1 = Fin wy /\ world 2 = Fin wz
           /\ wx = ((Q2Qc (inject_Z (Z.of_nat x)) + Q2Qc (1 # 2))
                    * ((d - a) / Q2Qc (inject_Z X)) + a)%Qc
           /\ wy = ((Q2Qc (inject_Z (Z.of_nat y)) + Q2Qc (1 # 2))
                    * ((e - b) / Q2Qc (inject_Z Y)) + b)%Qc
           /\ wz = ((Q2Qc (inject_Z (Z.of_nat z)) + Q2Qc (1 # 2))
                    * ((f - c) / Q2Qc (inject_Z Z)) + c)%Qc
           /\ (a < wx)%Qc /\ (wx < d)%Qc
           /\ (b < wy)%Qc /\ (wy < e)%Qc
           /\ (c < wz)%Qc /\ (wz < f)%Qc.
Proof.
  intros HX HY HZ Hx Hy Hz.
  destruct (init_spec X Y Z a b c d e f cfg) as (g & _ & _ & Hg & _ & _ & _ & Hb);
    try lia.
  exists g. split; [exact Hg|].
  intros x y z Lx Ly Lz.
  destruct (world_center X Y Z a b c d e f cfg g x y z) as (W0 & W1 & W2 & _);
    try assumption; try lia.
  eexists; eexists; eexists. cbv zeta.
  split; [exact W0|]. split; [exact W1|]. split; [exact W2|].
  split; [reflexivity|]. split; [reflexivity|]. split; [reflexivity|].
  destruct (centre_in_range a d X x) as [A1 A2]; [lia | assumption|].
  destruct (centre_in_range b e Y y) as [B1 B2]; [lia | assumption|].
  destruct (centre_in_range c f Z z) as [C1 C2]; [lia | assumption|].
  repeat split; assumption.
Qed.

(** ** A grid without voxels *)

Lemma div_by_zero_not_finite (p : Qc) :
  Num.isfinite (Fin p / of_Z 0)%num = false.
Proof.
  unfold Num.div, of_Z.
  replace (Qc_eq_bool (Q2Qc (inject_Z 0)) (Q2Qc 0)) with true
    by (symmetry; apply Qc_eq_bool_refl).
  destruct (p ?= Q2Qc 0)%Qc; reflexivity.
Qed.

Section Edges.

Variable bin_depth : DepthDiscConfig -> num -> num.

(** X4: a grid size with a zero component is accepted.  The generator has a
    voxel size that is not finite on that axis (a division by zero) and a
    voxel grid without any voxel, and a call on it returns an array without
    elements. *)
Theorem empty_grid_accepted (Ny Nz : nat)
        (x_min y_min z_min x_max y_max z_max : Qc) (cfg : DepthDiscConfig)
        (C_V I_C : tensor num) (image_shape : tensor Z) (B n : nat) :
  (Z.of_nat Ny < 2 ^ 31)%Z -> (Z.of_nat Nz < 2 ^ 31)%Z ->
  shape C_V = [B; 4; 4] -> shape I_C = [B; 3; 4] ->
  shape image_shape = [S n; 2] ->
  exists g out,
    __init__ [0%Z; Z.of_nat Ny; Z.of_nat Nz]
             [x_min; y_min; z_min; x_max; y_max; z_max] cfg = Ok g
    /\ Num.isfinite (elem (voxel_size g) [0]) = false
    /\ shape (voxel_grid g) = [1; 0; Ny; Nz; 3]
    /\ numel (shape (voxel_grid g)) = 0
    /\ forward bin_depth g C_V I_C image_shape = Ok out
    /\ shape out = [B; 0; Ny; Nz; 3]
    /\ numel (shape out) = 0.
Proof.
  intros FY FZ SC SI Sh.
  assert (FX : (Z.of_nat 0 < 2 ^ 31)%Z) by reflexivity.
  destruct (forward_built bin_depth 0 Ny Nz x_min y_min z_min x_max y_max
              z_max cfg C_V I_C image_shape B n FX FY FZ SC SI Sh)
    as (g & raw & out & Hg & Hb & _ & Hout & So & _).
  exists g, out. split; [exact Hg|].
  destruct (built_voxel_size Hb) as (_ & V0 & _).
  split.
  { rewrite V0. unfold Num.sub. cbn [Num.opp]. unfold Num.add.
    apply div_by_zero_not_finite. }
  pose proof (built_shape Hb) as Sg. rewrite !Nat2Z.id in Sg.
  split; [exact Sg|]. split; [rewrite Sg; simpl; lia|].
  split; [exact Hout|]. split; [exact So|].
  rewrite So. simpl. lia.
Qed.

(** X6: an [image_shape] without rows makes [forward] raise an
    [IndexError], in the maximum over the batch, after [transform_grid] has
    returned; so a call on an empty batch ([B = 0]) does not return an
    empty array. *)
Theorem empty_image_shape_raises (Nx Ny Nz : nat)
        (x_min y_min z_min x_max y_max z_max : Qc) (cfg : DepthDiscConfig)
        (C_V I_C : tensor num) (image_shape : tensor Z) (B : nat) :
  (Z.of_nat Nx < 2 ^ 31)%Z -> (Z.of_nat Ny < 2 ^ 31)%Z ->
  (Z.of_nat Nz < 2 ^ 31)%Z ->
  shape C_V = [B; 4; 4] -> shape I_C = [B; 3; 4] ->
  shape image_shape = [0; 2] ->
  exists g raw,
    __init__ [Z.of_nat Nx; Z.of_nat Ny; Z.of_nat Nz]
             [x_min; y_min; z_min; x_max; y_max; z_max] cfg = Ok g
    /\ transform_grid bin_depth g (voxel_grid g) (grid_to_lidar g) C_V I_C
       = Ok raw
    /\ shape raw = [B; Nx; Ny; Nz; 3]
    /\ forward bin_depth g C_V I_C image_shape
       = Raise (IndexError
                  "max(): Expected reduction dim 0 to have non-zero size.").
Proof.
  intros FX FY FZ SC SI Sh.
  destruct (init_spec (Z.of_nat Nx) (Z.of_nat Ny) (Z.of_nat Nz)
              x_min y_min z_min x_max y_max z_max cfg)
    as (g & _ & _ & Hg & _ & _ & _ & Hb); try lia.
  pose proof (built_shape Hb) as Sg. rewrite !Nat2Z.id in Sg.
  assert (SV : shape (grid_to_lidar g) = [4; 4])
    by (rewrite (built_grid_to_lidar Hb); reflexivity).
  destruct (transform_grid_spec bin_depth g (voxel_grid g) (grid_to_lidar g)
              C_V I_C B Nx Ny Nz Sg SV SC SI) as (raw & Hraw & Sraw & _).
  exists g, raw. repeat (split; [assumption|]).
  unfold forward. rewrite Hraw. simpl. unfold max_dim0. rewrite Sh.
  reflexivity.
Qed.

Lemma transform_grid_rejects_camera_shape (self : FrustumGridGenerator)
        (vg V_G C_V I_C : tensor num) (B rows cols : nat) :
  shape V_G = [4; 4] -> shape C_V = [B; rows; cols] ->
  (cols <> 4 ->
   transform_grid bin_depth self vg V_G C_V I_C
   = Raise (RuntimeError "mat1 and mat2 shapes cannot be multiplied"))
  /\ (cols = 4 -> rows <> 4 -> 0 < B ->
      transform_grid bin_depth self vg V_G C_V I_C
      = Raise (RuntimeError "shape is invalid for input size")).
Proof.
  intros SV SC. split.
  - intros Hc. unfold transform_grid, matmul. rewrite SC, SV. simpl.
    apply Nat.eqb_neq in Hc. rewrite Hc. reflexivity.
  - intros -> Hr HB. unfold transform_grid, matmul. rewrite SC, SV. simpl.
    rewrite reshape_raise; [reflexivity|]. simpl. nia.
Qed.

(** X10: a [lidar_to_cam] whose matrices are not 4x4 is rejected: with a
    last dimension other than 4 by the matrix product, and with 4 columns
    but another number of rows (and at least one camera) by the reshape to
    (B, 1, 1, 4, 4). *)
Theorem lidar_to_cam_must_be_4x4 (Nx Ny Nz : nat)
        (x_min y_min z_min x_max y_max z_max : Qc) (cfg : DepthDiscConfig)
        (C_V I_C : tensor num) (B rows cols : nat) :
  (Z.of_nat Nx < 2 ^ 31)%Z -> (Z.of_nat Ny < 2 ^ 31)%Z ->
  (Z.of_nat Nz < 2 ^ 31)%Z ->
  shape C_V = [B; rows; cols] ->
  exists g,
    __init__ [Z.of_nat Nx; Z.of_nat Ny; Z.of_nat Nz]
             [x_min; y_min; z_min; x_max; y_max; z_max] cfg = Ok g
    /\ (cols <> 4 ->
        transform_grid bin_depth g (voxel_grid g) (grid_to_lidar g) C_V I_C
        = Raise (RuntimeError "mat1 and mat2 shapes cannot be multiplied"))
    /\ (cols = 4 -> rows <> 4 -> 0 < B ->
        transform_grid bin_depth g (voxel_grid g) (grid_to_lidar g) C_V I_C
        = Raise (RuntimeError "shape is invalid for input size")).
Proof.
  intros FX FY FZ SC.
  destruct (init_spec (Z.of_nat Nx) (Z.of_nat Ny) (Z.of_nat Nz)
              x_min y_min z_min x_max y_max z_max cfg)
    as (g & _ & _ & Hg & _ & _ & _ & Hb); try lia.
  assert (SV : shape (grid_to_lidar g) = [4; 4])
    by (rewrite (built_grid_to_lidar Hb); reflexivity).
  exists g. split; [exact Hg|].
  apply (transform_grid_rejects_camera_shape g (voxel_grid g)
           (grid_to_lidar g) C_V I_C B rows cols SV SC).
Qed.

End Edges.

(** ** The identity camera *)


(** The product of a unit row with a finite vector is a component of the
    vector. *)
Lemma unit_row_dot (r v : nat -> num) (i : nat) :
  i < 4 ->
  (forall k, k < 4 -> r k = if k =? i then one else zero) ->
  (forall k, k < 4 -> exists q, v k = Fin q) ->
  sum_n 4 (fun k => r k * v k)%num = v i.
Proof.
  intros Hi Hr Hv. simpl.
  rewrite (Hr 0), (Hr 1), (Hr 2), (Hr 3) by lia.
  destruct (Hv 0) as (v0 & E0); try lia.
  destruct (Hv 1) as (v1 & E1); try lia.
  destruct (Hv 2) as (v2 & E2); try lia.
  destruct (Hv 3) as (v3 & E3); try lia.
  destruct i as [|[|[|[|i]]]]; try lia; simpl;
    rewrite ?E0, ?E1, ?E2, ?E3;
    rewrite ?mul_zero_fin, ?mul_one_l, ?add_zero_l, ?add_zero_r; reflexivity.
Qed.

Section Identity.

Variable bin_depth : DepthDiscConfig -> num -> num.

(** X5: for a camera whose [lidar_to_cam] is the identity and whose
    [cam_to_img] is the projection ((1,0,0,0),(0,1,0,0),(0,0,1,0)), the depth
    that [transform_grid] hands to the discretisation is the LiDAR z
    coordinate [wz] of the voxel centre, and the image coordinates are the
    LiDAR x and y coordinates divided by it. *)
Theorem identity_camera_depth (Nx Ny Nz : nat)
        (x_min y_min z_min x_max y_max z_max : Qc) (cfg : DepthDiscConfig)
        (C_V I_C : tensor num) (B k : nat) :
  (Z.of_nat Nx < 2 ^ 31)%Z -> (Z.of_nat Ny < 2 ^ 31)%Z ->
  (Z.of_nat Nz < 2 ^ 31)%Z ->
  shape C_V = [B; 4; 4] -> shape I_C = [B; 3; 4] -> k < B ->
  (forall i j, i < 4 -> j < 4 ->
     elem C_V [k; i; j] = if j =? i then one else zero) ->
  (forall i j, i < 3 -> j < 4 ->
     elem I_C [k; i; j] = if j =? i then one else zero) ->
  exists g out,
    __init__ [Z.of_nat Nx; Z.of_nat Ny; Z.of_nat Nz]
             [x_min; y_min; z_min; x_max; y_max; z_max] cfg = Ok g
    /\ transform_grid bin_depth g (voxel_grid g) (grid_to_lidar g) C_V I_C
       = Ok out
    /\ forall x y z, x < Nx -> y < Ny -> z < Nz ->
         let wx := ((Q2Qc (inject_Z (Z.of_nat x)) + Q2Qc (1 # 2))
                    * ((x_max - x_min) / Q2Qc (inject_Z (Z.of_nat Nx)))
                    + x_min)%Qc in
         let wy := ((Q2Qc (inject_Z (Z.of_nat y)) + Q2Qc (1 # 2))
                    * ((y_max - y_min) / Q2Qc (inject_Z (Z.of_nat Ny)))
                    + y_min)%Qc in
         let wz := ((Q2Qc (inject_Z (Z.of_nat z)) + Q2Qc (1 # 2))
                    * ((z_max - z_min) / Q2Qc (inject_Z (Z.of_nat Nz)))
                    + z_min)%Qc in
         elem out [k; x; y; z; 0] = (Fin wx / Fin wz)%num
         /\ elem out [k; x; y; z; 1] = (Fin wy / Fin wz)%num
         /\ elem out [k; x; y; z; 2] = bin_depth cfg (Fin wz).
Proof.
  intros FX FY FZ SC SI Hk HC HI.
  destruct (init_spec (Z.of_nat Nx) (Z.of_nat Ny) (Z.of_nat Nz)
              x_min y_min z_min x_max y_max z_max cfg)
    as (g & _ & _ & Hg & _ & _ & _ & Hb); try lia.
  pose proof (built_shape Hb) as Sg. rewrite !Nat2Z.id in Sg.
  assert (SV : shape (grid_to_lidar g) = [4; 4])
    by (rewrite (built_grid_to_lidar Hb); reflexivity).
  destruct (transform_grid_spec bin_depth g (voxel_grid g) (grid_to_lidar g)
              C_V I_C B Nx Ny Nz Sg SV SC SI) as (out & Hout & So & Eo).
  exists g, out. split; [exact Hg|]. split; [exact Hout|].
  intros x y z Hx Hy Hz wx wy wz.
  assert (PX : (0 < Z.of_nat Nx)%Z) by lia.
  assert (PY : (0 < Z.of_nat Ny)%Z) by lia.
  assert (PZ : (0 < Z.of_nat Nz)%Z) by lia.
  destruct (built_grid_to_lidar_affine _ _ _ _ _ _ _ _ _ _ g PX PY PZ Hb)
    as (Hfin & Hbot).
  assert (HV : forall i j, i < 4 -> j < 4 ->
             exists q, mat2 (grid_to_lidar g) i j = Fin q).
  { intros i j Hi Hj. destruct (Nat.eq_dec i 3) as [->|Hne].
    - rewrite (Hbot j Hj). destruct (j =? 3); unfold one, zero; eauto.
    - apply Hfin; lia. }
  destruct (world_center _ _ _ _ _ _ _ _ _ _ g x y z PX PY PZ Hb)
    as (W0 & W1 & W2 & W3); rewrite ?Nat2Z.id; try assumption.
  fold wx in W0. fold wy in W1. fold wz in W2.
  (* the combined matrix is the grid-to-LiDAR matrix *)
  assert (Hcomb : forall i j, i < 4 -> j < 4 ->
             mat_mul (mat C_V k) (mat2 (grid_to_lidar g)) i j
             = mat2 (grid_to_lidar g) i j).
  { intros i j Hi Hj. unfold mat_mul.
    apply (unit_row_dot (mat C_V k i)
             (fun l => mat2 (grid_to_lidar g) l j) i Hi).
    - intros l Hl. unfold mat. apply HC; assumption.
    - intros l Hl. apply HV; assumption. }
  set (combined := mat_mul (mat C_V k) (mat2 (grid_to_lidar g))) in *.
  set (center := voxel_center (voxel_grid g) x y z) in *.
  assert (Hcam : forall i, i < 4 ->
            mat_vec combined (homogeneous center) i
            = mat_vec (mat2 (grid_to_lidar g)) (homogeneous center) i).
  { intros i Hi. unfold mat_vec. simpl. rewrite !Hcomb by lia. reflexivity. }
  set (cam := dehomogenize (mat_vec combined (homogeneous center))).
  assert (E : elem out [k; x; y; z; 0]
              = (mat_vec (mat I_C k) (homogeneous cam) 0
                 / mat_vec (mat I_C k) (homogeneous cam) 2)%num
              /\ elem out [k; x; y; z; 1]
                 = (mat_vec (mat I_C k) (homogeneous cam) 1
                    / mat_vec (mat I_C k) (homogeneous cam) 2)%num
              /\ elem out [k; x; y; z; 2]
                 = bin_depth cfg (mat_vec (mat I_C k) (homogeneous cam) 2)).
  { destruct (Eo k x y z Hk Hx Hy Hz) as (E0 & E1 & E2).
    rewrite (built_disc_cfg Hb) in E2.
    repeat split; assumption. }
  destruct E as (E0 & E1 & E2).
  assert (Hc : forall i, cam i = mat_vec combined (homogeneous center) i).
  { intros c. apply dehomogenize_affine. apply affine_image_w.
    - apply affine_product_bottom_row; [|assumption|assumption].
      intros j Hj. unfold mat. apply HC; lia.
    - apply (built_center_finite _ _ _ _ _ _ _ _ _ _ g x y z Hb); lia. }
  assert (C0 : cam 0 = Fin wx) by (rewrite Hc, Hcam by lia; exact W0).
  assert (C1 : cam 1 = Fin wy) by (rewrite Hc, Hcam by lia; exact W1).
  assert (C2 : cam 2 = Fin wz) by (rewrite Hc, Hcam by lia; exact W2).
  assert (Hh : forall i, i < 3 ->
            mat_vec (mat I_C k) (homogeneous cam) i = homogeneous cam i).
  { intros i Hi. unfold mat_vec.
    apply (unit_row_dot (mat I_C k i) (homogeneous cam) i); [lia | |].
    - intros l Hl. unfold mat. apply HI; assumption.
    - intros l Hl. unfold homogeneous.
      destruct l as [|[|[|[|l]]]]; try lia; simpl;
        rewrite ?C0, ?C1, ?C2; unfold one; eauto. }
  rewrite (Hh 0), (Hh 2) in E0 by lia.
  rewrite (Hh 1), (Hh 2) in E1 by lia.
  rewrite (Hh 2) in E2 by lia.
  change (homogeneous cam 0) with (cam 0) in E0.
  change (homogeneous cam 1) with (cam 1) in E1.
  change (homogeneous cam 2) with (cam 2) in E0, E1, E2.
  rewrite C0, C2 in E0. rewrite C1, C2 in E1. rewrite C2 in E2.
  auto.
Qed.

End Identity.

(** ** One camera among others *)

Lemma image_point_ext (V_G C_V C_V' I_C I_C' vg : tensor num)
      (k k' x y z : nat) :
  (forall i j, i < 4 -> j < 4 -> elem C_V [k; i; j] = elem C_V' [k'; i; j]) ->
  (forall i j, i < 3 -> j < 4 -> elem I_C [k; i; j] = elem I_C' [k'; i; j]) ->
  forall i, i < 3 ->
    image_point V_G C_V I_C vg k x y z i
    = image_point V_G C_V' I_C' vg k' x y z i.
Proof.
  intros HC HI i Hi.
  unfold image_point, camera_point, mat_vec, mat_mul, dehomogenize,
    homogeneous, mat.
  simpl. rewrite !HC by lia. rewrite !HI by lia. reflexivity.
Qed.

Section Slices.

Variable bin_depth : DepthDiscConfig -> num -> num.

(** X8: the part of the result of [forward] that belongs to one camera
    depends on the matrices of that camera and, through the normalisation,
    on the largest image height and width of the batch, and on nothing else
    of the batch: a camera with the same two matrices, at any position of
    any other batch with the same two maxima, gets the same coordinates. *)
Theorem camera_slice_independent (Nx Ny Nz : nat)
        (x_min y_min z_min x_max y_max z_max : Qc) (cfg : DepthDiscConfig)
        (C_V I_C C_V' I_C' : tensor num) (image_shape image_shape' : tensor Z)
        (B B' n n' k k' : nat) :
  (Z.of_nat Nx < 2 ^ 31)%Z -> (Z.of_nat Ny < 2 ^ 31)%Z ->
  (Z.of_nat Nz < 2 ^ 31)%Z ->
  shape C_V = [B; 4; 4] -> shape I_C = [B; 3; 4] ->
  shape image_shape = [S n; 2] ->
  shape C_V' = [B'; 4; 4] -> shape I_C' = [B'; 3; 4] ->
  shape image_shape' = [S n'; 2] ->
  k < B -> k' < B' ->
  (forall i j, i < 4 -> j < 4 -> elem C_V [k; i; j] = elem C_V' [k'; i; j]) ->
  (forall i j, i < 3 -> j < 4 -> elem I_C [k; i; j] = elem I_C' [k'; i; j]) ->
  batch_max image_shape 0 = batch_max image_shape' 0 ->
  batch_max image_shape 1 = batch_max image_shape' 1 ->
  exists g out out',
    __init__ [Z.of_nat Nx; Z.of_nat Ny; Z.of_nat Nz]
             [x_min; y_min; z_min; x_max; y_max; z_max] cfg = Ok g
    /\ forward bin_depth g C_V I_C image_shape = Ok out
    /\ forward bin_depth g C_V' I_C' image_shape' = Ok out'
    /\ forall x y z c, x < Nx -> y < Ny -> z < Nz -> c < 3 ->
         elem out [k; x; y; z; c] = elem out' [k'; x; y; z; c].
Proof.
  intros FX FY FZ SC SI Sh SC' SI' Sh' Hk Hk' HC HI M0 M1.
  destruct (init_spec (Z.of_nat Nx) (Z.of_nat Ny) (Z.of_nat Nz)
              x_min y_min z_min x_max y_max z_max cfg)
    as (g & _ & _ & Hg & _ & _ & _ & Hb); try lia.
  pose proof (built_shape Hb) as Sg. rewrite !Nat2Z.id in Sg.
  assert (SV : shape (grid_to_lidar g) = [4; 4])
    by (rewrite (built_grid_to_lidar Hb); reflexivity).
  destruct (transform_grid_spec bin_depth g (voxel_grid g) (grid_to_lidar g)
              C_V I_C B Nx Ny Nz Sg SV SC SI) as (raw & Hraw & _ & Er).
  destruct (transform_grid_spec bin_depth g (voxel_grid g) (grid_to_lidar g)
              C_V' I_C' B' Nx Ny Nz Sg SV SC' SI') as (raw' & Hraw' & _ & Er').
  destruct (forward_spec bin_depth g C_V I_C image_shape B Nx Ny Nz n
              Sg SV SC SI Sh) as (r & out & Hr & Hout & _ & Eo).
  destruct (forward_spec bin_depth g C_V' I_C' image_shape' B' Nx Ny Nz n'
              Sg SV SC' SI' Sh') as (r' & out' & Hr' & Hout' & _ & Eo').
  rewrite Hraw in Hr. inversion Hr; subst r; clear Hr.
  rewrite Hraw' in Hr'. inversion Hr'; subst r'; clear Hr'.
  exists g, out, out'. repeat (split; [assumption|]).
  intros x y z c Hx Hy Hz Hc.
  rewrite (Eo k x y z c), (Eo' k' x y z c) by assumption.
  assert (Hext : reference_extent (disc_cfg g) image_shape c
                 = reference_extent (disc_cfg g) image_shape' c).
  { destruct c as [|[|c]]; simpl; auto. }
  rewrite Hext. f_equal. f_equal.
  destruct (Er k x y z Hk Hx Hy Hz) as (E0 & E1 & E2).
  destruct (Er' k' x y z Hk' Hx Hy Hz) as (E0' & E1' & E2').
  pose proof (image_point_ext (grid_to_lidar g) C_V C_V' I_C I_C'
                (voxel_grid g) k k' x y z HC HI) as Hp.
  destruct c as [|[|[|c]]]; try lia.
  - rewrite E0, E0', (Hp 0), (Hp 2) by lia. reflexivity.
  - rewrite E1, E1', (Hp 1), (Hp 2) by lia. reflexivity.
  - rewrite E2, E2', (Hp 2) by lia. reflexivity.
Qed.

(** ** The shape of [cam_to_img] *)

Lemma transform_grid_projection_by_size (self : FrustumGridGenerator)
        (vg V_G C_V I_C : tensor num) (B X Y Z : nat) :
  shape vg = [1; X; Y; Z; 3] -> shape V_G = [4; 4] ->
  shape C_V = [B; 4; 4] ->
  ((exists out, transform_grid bin_depth self vg V_G C_V I_C = Ok out)
   <-> numel (shape I_C) = 12 * B)
  /\ (numel (shape I_C) <> 12 * B ->
      transform_grid bin_depth self vg V_G C_V I_C
      = Raise (RuntimeError "shape is invalid for input size"))
  /\ (numel (shape I_C) = 12 * B ->
      exists out, transform_grid bin_depth self vg V_G C_V I_C = Ok out
        /\ shape out = [B; X; Y; Z; 3]
        /\ forall k x y z, k < B -> x < X -> y < Y -> z < Z ->
             let P := fun i j =>
                        elem I_C (unravel (shape I_C) (12 * k + 4 * i + j)) in
             let h := mat_vec P (homogeneous (camera_point V_G C_V vg k x y z)) in
             elem out [k; x; y; z; 0] = (h 0 / h 2)%num
             /\ elem out [k; x; y; z; 1] = (h 1 / h 2)%num
             /\ elem out [k; x; y; z; 2] = bin_depth (disc_cfg self) (h 2)).
Proof.
  intros Sg SV SC.
  destruct (trans_spec C_V V_G B SC SV)
    as (prod & trans & Hm & Hr & St & _ & Et).
  destruct (repeat_interleave_spec vg B X Y Z Sg) as (Srep & Erep).
  destruct (transform_points_spec trans _ B X Y Z St Srep)
    as (cam & Hc & Scam & Ecam).
  assert (Hbad : numel (shape I_C) <> 12 * B ->
            transform_grid bin_depth self vg V_G C_V I_C
            = Raise (RuntimeError "shape is invalid for input size")).
  { intros Hne. unfold transform_grid. rewrite SC. simpl. rewrite Hm. simpl.
    rewrite Hr. simpl. rewrite Hc. simpl.
    rewrite reshape_raise; [reflexivity|]. simpl. lia. }
  assert (Hgood : numel (shape I_C) = 12 * B ->
      exists out, transform_grid bin_depth self vg V_G C_V I_C = Ok out
        /\ shape out = [B; X; Y; Z; 3]
        /\ forall k x y z, k < B -> x < X -> y < Y -> z < Z ->
             let P := fun i j =>
                        elem I_C (unravel (shape I_C) (12 * k + 4 * i + j)) in
             let h := mat_vec P (homogeneous (camera_point V_G C_V vg k x y z)) in
             elem out [k; x; y; z; 0] = (h 0 / h 2)%num
             /\ elem out [k; x; y; z; 1] = (h 1 / h 2)%num
             /\ elem out [k; x; y; z; 2] = bin_depth (disc_cfg self) (h 2)).
  { intros Hn.
    destruct (reshape_ok I_C [B; 1; 1; 3; 4]) as (proj & Hp).
    { rewrite Hn. simpl. lia. }
    pose proof (reshape_shape _ _ _ Hp) as Sproj.
    destruct (project_to_image_spec proj cam B X Y Z Sproj Scam)
      as (img & dep & Hi & Simg & Sdep & Ei).
    unfold transform_grid. rewrite SC. simpl. rewrite Hm. simpl.
    rewrite Hr. simpl. rewrite Hc. simpl. rewrite Hp. simpl.
    rewrite Hi. simpl.
    unfold cat_last, unsqueeze_last, bin_depths. simpl.
    rewrite Simg, Sdep. simpl. rewrite !Nat.eqb_refl. simpl.
    eexists; split; [reflexivity | split; [reflexivity|]].
    intros k x y z Hk Hx Hy Hz. simpl.
    destruct (Ei k x y z Hk Hx Hy Hz) as (E0 & E1 & E2).
    assert (Hh : forall i, i < 3 ->
              mat_vec (fun i j => elem proj [k; 0; 0; i; j])
                      (homogeneous (fun l => elem cam [k; x; y; z; l])) i
              = mat_vec (fun i j =>
                           elem I_C (unravel (shape I_C) (12 * k + 4 * i + j)))
                        (homogeneous (camera_point V_G C_V vg k x y z)) i).
    { intros i Hi3. unfold mat_vec, homogeneous. simpl.
      assert (Hcam : forall l, l < 3 ->
                elem cam [k; x; y; z; l] = camera_point V_G C_V vg k x y z l).
      { intros l Hl. rewrite Ecam by assumption.
        unfold camera_point, dehomogenize, mat_vec, homogeneous, voxel_center.
        simpl. rewrite !Erep by assumption. rewrite !Et by lia. reflexivity. }
      rewrite !Hcam by lia.
      assert (Hproj : forall j,
                elem proj [k; 0; 0; i; j]
                = elem I_C (unravel (shape I_C) (12 * k + 4 * i + j))).
      { intros j. unfold reshape in Hp.
        destruct (numel (shape I_C) =? numel [B; 1; 1; 3; 4]); [|discriminate].
        inversion Hp; subst proj. simpl. f_equal. f_equal. lia. }
      rewrite !Hproj. reflexivity. }
    rewrite E0, E1, E2. rewrite !Hh by lia. auto. }
  split; [split|split]; try assumption.
  - intros (out & Hout).
    destruct (Nat.eq_dec (numel (shape I_C)) (12 * B)) as [E|E]; [exact E|].
    rewrite (Hbad E) in Hout. discriminate.
  - intros E. destruct (Hgood E) as (out & Hout & _). eauto.
Qed.

(** X9: [transform_grid] accepts a [cam_to_img] exactly when it holds
    [12 * B] numbers, whatever its shape: the only check is the reshape to
    (B, 1, 1, 3, 4).  An accepted tensor is read in row-major order, twelve
    numbers per camera, four per row of the projection matrix; so a tensor
    of shape (B, 4, 3) is not rejected but read as (B, 3, 4). *)
Theorem cam_to_img_checked_by_size (Nx Ny Nz : nat)
        (x_min y_min z_min x_max y_max z_max : Qc) (cfg : DepthDiscConfig)
        (C_V I_C : tensor num) (B : nat) :
  (Z.of_nat Nx < 2 ^ 31)%Z -> (Z.of_nat Ny < 2 ^ 31)%Z ->
  (Z.of_nat Nz < 2 ^ 31)%Z ->
  shape C_V = [B; 4; 4] ->
  exists g,
    __init__ [Z.of_nat Nx; Z.of_nat Ny; Z.of_nat Nz]
             [x_min; y_min; z_min; x_max; y_max; z_max] cfg = Ok g
    /\ ((exists out,
           transform_grid bin_depth g (voxel_grid g) (grid_to_lidar g) C_V I_C
           = Ok out)
        <-> numel (shape I_C) = 12 * B)
    /\ (numel (shape I_C) <> 12 * B ->
        transform_grid bin_depth g (voxel_grid g) (grid_to_lidar g) C_V I_C
        = Raise (RuntimeError "shape is invalid for input size"))
    /\ (numel (shape I_C) = 12 * B ->
        exists out,
          transform_grid bin_depth g (voxel_grid g) (grid_to_lidar g) C_V I_C
          = Ok out
          /\ shape out = [B; Nx; Ny; Nz; 3]
          /\ forall k x y z, k < B -> x < Nx -> y < Ny -> z < Nz ->
               let P := fun i j =>
                          elem I_C (unravel (shape I_C) (12 * k + 4 * i + j)) in
               let h :=
                 mat_vec P (homogeneous
                              (camera_point (grid_to_lidar g) C_V
                                            (voxel_grid g) k x y z)) in
               elem out [k; x; y; z; 0] = (h 0 / h 2)%num
               /\ elem out [k; x; y; z; 1] = (h 1 / h 2)%num
               /\ elem out [k; x; y; z; 2] = bin_depth cfg (h 2)).
Proof.
  intros FX FY FZ SC.
  destruct (init_spec (Z.of_nat Nx) (Z.of_nat Ny) (Z.of_nat Nz)
              x_min y_min z_min x_max y_max z_max cfg)
    as (g & _ & _ & Hg & _ & _ & _ & Hb); try lia.
  pose proof (built_shape Hb) as Sg. rewrite !Nat2Z.id in Sg.
  assert (SV : shape (grid_to_lidar g) = [4; 4])
    by (rewrite (built_grid_to_lidar Hb); reflexivity).
  destruct (transform_grid_projection_by_size g (voxel_grid g)
              (grid_to_lidar g) C_V I_C B Nx Ny Nz Sg SV SC)
    as (Hiff & Hbad & Hgood).
  exists g. split; [exact Hg|]. split; [exact Hiff|]. split; [exact Hbad|].
  rewrite (built_disc_cfg Hb) in Hgood. exact Hgood.
Qed.

End Slices.

(** ** What a call does to the heap *)

(** X7: a call writes into no tensor that existed before it: the tensors of
    the generator, the arguments and every other tensor of the heap are
    afterwards as they were, although [transform_grid] is handed the
    tensors of the generator themselves and takes a view of [cam_to_img],
    and whether or not the normalisation works in place.  The grid that a
    successful call returns is a tensor of its own, in a new storage. *)
Theorem forward_call_only_appends
        (bin_depth : DepthDiscConfig -> num -> num) (normalize_in_place : bool)
        (self : instance) (lidar_to_cam cam_to_img : obj)
        (image_shape : tensor Z) (h : heap) :
  intact self h -> valid lidar_to_cam h -> valid cam_to_img h ->
  let '(r, h') := forward_call bin_depth normalize_in_place self
                               lidar_to_cam cam_to_img image_shape h in
  (forall c, c < length h -> load c h' = load c h)
  /\ (forall o, valid o h -> value o h' = value o h)
  /\ length h <= length h'
  /\ match r with
     | Ok o => path o = [] /\ length h <= cell o < length h'
     | Raise _ => True
     end.
Proof.
  intros Hi VL VI.
  pose proof (forward_call_spec bin_depth normalize_in_place self
                lidar_to_cam cam_to_img image_shape h Hi VL VI) as H.
  destruct (forward_call bin_depth normalize_in_place self lidar_to_cam
              cam_to_img image_shape h) as (r, h').
  destruct H as (X & _ & F).
  split; [apply X|]. split; [|split; [apply X | exact F]].
  intros o Vo. apply extends_value; assumption.
Qed.

(** ** Instances *)

Lemma unproject_succeeds_iff_witness :
  exists unproject,
    grid_to_lidar_unproject (of_list NaN [zero; zero; zero])
                            (of_list NaN [one; one; one]) = Ok unproject
    /\ shape unproject = [4; 4].
Proof.
  destruct (unproject_succeeds_iff (of_list NaN [zero; zero; zero])
              (of_list NaN [one; one; one]) 3 3 eq_refl eq_refl)
    as (H & _).
  destruct (H (conj eq_refl eq_refl)) as (m & Hm & Sm & _).
  exists m. split; assumption.
Defined.

Lemma voxel_centers_inside_range_witness :
  exists g,
    __init__ [2; 2; 2]%Z Scenario.pc Scenario.cfg = Ok g
    /\ exists wx,
         mat_vec (mat2 (grid_to_lidar g))
                 (homogeneous (voxel_center (voxel_grid g) 1 0 0)) 0 = Fin wx
         /\ (Scenario.q 0 < wx)%Qc /\ (wx < Scenario.q 2)%Qc.
Proof.
  assert (H02 : (Scenario.q 0 < Scenario.q 2)%Qc)
    by (unfold Qclt, Qlt; simpl; lia).
  destruct (voxel_centers_inside_range 2 2 2
              (Scenario.q 0) (Scenario.q 0) (Scenario.q 0)
              (Scenario.q 2) (Scenario.q 2) (Scenario.q 2) Scenario.cfg)
    as (g & Hg & H); try lia; try exact H02.
  exists g. split; [exact Hg|].
  destruct (H 1 0 0) as (wx & wy & wz & W0 & _ & _ & _ & _ & _ & L & U & _);
    try (simpl; lia).
  exists wx. repeat split; assumption.
Defined.

Lemma empty_grid_accepted_witness :
  exists g out,
    __init__ [0; 2; 2]%Z Scenario.pc Scenario.cfg = Ok g
    /\ Num.isfinite (elem (voxel_size g) [0]) = false
    /\ forward uniform_bin g Scenario.identity Scenario.projection
               Scenario.image_shape = Ok out
    /\ numel (shape out) = 0.
Proof.
  destruct (empty_grid_accepted uniform_bin 2 2
              (Scenario.q 0) (Scenario.q 0) (Scenario.q 0)
              (Scenario.q 2) (Scenario.q 2) (Scenario.q 2) Scenario.cfg
              Scenario.identity Scenario.projection Scenario.image_shape 1 0
              eq_refl eq_refl eq_refl eq_refl eq_refl)
    as (g & out & Hg & Hv & _ & _ & Hout & _ & Hn).
  exists g, out. repeat split; assumption.
Defined.

Lemma identity_camera_depth_witness :
  exists g out,
    __init__ [2; 2; 2]%Z Scenario.pc Scenario.cfg = Ok g
    /\ transform_grid uniform_bin g (voxel_grid g) (grid_to_lidar g)
                      Scenario.identity Scenario.projection = Ok out
    /\ elem out [0; 0; 0; 1; 2]
       = uniform_bin Scenario.cfg
           (Fin ((Q2Qc (inject_Z 1) + Q2Qc (1 # 2))
                 * ((Scenario.q 2 - Scenario.q 0) / Q2Qc (inject_Z 2))
                 + Scenario.q 0)%Qc).
Proof.
  destruct (identity_camera_depth uniform_bin 2 2 2
              (Scenario.q 0) (Scenario.q 0) (Scenario.q 0)
              (Scenario.q 2) (Scenario.q 2) (Scenario.q 2) Scenario.cfg
              Scenario.identity Scenario.projection 1 0 eq_refl eq_refl eq_refl eq_refl eq_refl)
    as (g & out & Hg & Hout & H).
  - lia.
  - intros i j Hi Hj.
    destruct i as [|[|[|[|i]]]]; try lia;
      destruct j as [|[|[|[|j]]]]; try lia; reflexivity.
  - intros i j Hi Hj.
    destruct i as [|[|[|i]]]; try lia;
      destruct j as [|[|[|[|j]]]]; try lia; reflexivity.
  - exists g, out. split; [exact Hg|]. split; [exact Hout|].
    apply (H 0 0 1); lia.
Defined.

Lemma empty_image_shape_raises_witness :
  exists g,
    __init__ [2; 2; 2]%Z Scenario.pc Scenario.cfg = Ok g
    /\ forward uniform_bin g Scenario.identity Scenario.projection
               (of_rows 0%Z 2 [])
       = Raise (IndexError
                  "max(): Expected reduction dim 0 to have non-zero size.").
Proof.
  destruct (empty_image_shape_raises uniform_bin 2 2 2
              (Scenario.q 0) (Scenario.q 0) (Scenario.q 0)
              (Scenario.q 2) (Scenario.q 2) (Scenario.q 2) Scenario.cfg
              Scenario.identity Scenario.projection (of_rows 0%Z 2 []) 1
              eq_refl eq_refl eq_refl eq_refl eq_refl eq_refl)
    as (g & raw & Hg & _ & _ & H).
  exists g. split; assumption.
Defined.

Lemma lidar_to_cam_must_be_4x4_witness :
  exists g,
    __init__ [2; 2; 2]%Z Scenario.pc Scenario.cfg = Ok g
    /\ transform_grid uniform_bin g (voxel_grid g) (grid_to_lidar g)
                      Scenario.projection Scenario.projection
       = Raise (RuntimeError "shape is invalid for input size").
Proof.
  destruct (lidar_to_cam_must_be_4x4 uniform_bin 2 2 2
              (Scenario.q 0) (Scenario.q 0) (Scenario.q 0)
              (Scenario.q 2) (Scenario.q 2) (Scenario.q 2) Scenario.cfg
              Scenario.projection Scenario.projection 1 3 4 eq_refl eq_refl eq_refl eq_refl)
    as (g & Hg & _ & H).
  exists g. split; [exact Hg|]. apply H; lia.
Defined.

(** The batch of two cameras, the second with the identity; it holds the
    camera of the batch of one at another position. *)
Lemma camera_slice_independent_witness :
  exists g out out',
    __init__ [2; 2; 2]%Z Scenario.pc Scenario.cfg = Ok g
    /\ forward uniform_bin g Scenario.identity Scenario.projection
               Scenario.image_shape = Ok out
    /\ forward uniform_bin g
               (of_batch NaN [4; 4]
                  [select0 Scenario.shifted 0; select0 Scenario.identity 0])
               Scenario.projection2
               (of_rows 0%Z 2 [[1; 2]; [2; 1]]%Z) = Ok out'
    /\ elem out [0; 1; 1; 1; 0] = elem out' [1; 1; 1; 1; 0].
Proof.
  destruct (camera_slice_independent uniform_bin 2 2 2
              (Scenario.q 0) (Scenario.q 0) (Scenario.q 0)
              (Scenario.q 2) (Scenario.q 2) (Scenario.q 2) Scenario.cfg
              Scenario.identity Scenario.projection
              (of_batch NaN [4; 4]
                 [select0 Scenario.shifted 0; select0 Scenario.identity 0])
              Scenario.projection2
              Scenario.image_shape (of_rows 0%Z 2 [[1; 2]; [2; 1]]%Z)
              1 2 0 1 0 1 eq_refl eq_refl eq_refl eq_refl eq_refl eq_refl eq_refl eq_refl eq_refl)
    as (g & out & out' & Hg & Hout & Hout' & H);
    try lia; try reflexivity.
  exists g, out, out'. repeat (split; [assumption|]).
  apply H; lia.
Defined.

(** A [cam_to_img] of shape (1, 4, 3) is accepted. *)
Lemma cam_to_img_checked_by_size_witness :
  exists g out,
    __init__ [2; 2; 2]%Z Scenario.pc Scenario.cfg = Ok g
    /\ transform_grid uniform_bin g (voxel_grid g) (grid_to_lidar g)
                      Scenario.identity
                      (Tensor.mk [1; 4; 3] (fun _ => one)) = Ok out
    /\ shape out = [1; 2; 2; 2; 3].
Proof.
  destruct (cam_to_img_checked_by_size uniform_bin 2 2 2
              (Scenario.q 0) (Scenario.q 0) (Scenario.q 0)
              (Scenario.q 2) (Scenario.q 2) (Scenario.q 2) Scenario.cfg
              Scenario.identity (Tensor.mk [1; 4; 3] (fun _ => one)) 1 eq_refl eq_refl eq_refl eq_refl)
    as (g & Hg & _ & _ & H).
  destruct (H eq_refl) as (out & Hout & So & _).
  exists g, out. repeat split; assumption.
Defined.

Lemma forward_call_only_appends_witness :
  exists g,
    __init__ Scenario.grid Scenario.pc Scenario.cfg = Ok g
    /\ let h := [Scenario.identity; Scenario.projection;
                 voxel_grid g; grid_to_lidar g] in
       let self := {| fields := g; voxel_grid_ref := whole 2;
                      grid_to_lidar_ref := whole 3 |} in
       let '(r, h') := forward_call uniform_bin true self (whole 0) (whole 1)
                                    Scenario.image_shape h in
       load 1 h' = Scenario.projection /\ load 2 h' = voxel_grid g.
Proof.
  destruct (init_spec 2 2 2 (Scenario.q 0) (Scenario.q 0) (Scenario.q 0)
              (Scenario.q 2) (Scenario.q 2) (Scenario.q 2) Scenario.cfg)
    as (g & _ & _ & Hg & _); try lia.
  exists g. split; [exact Hg|]. cbv zeta.
  assert (Hi : intact {| fields := g; voxel_grid_ref := whole 2;
                         grid_to_lidar_ref := whole 3 |}
                      [Scenario.identity; Scenario.projection;
                       voxel_grid g; grid_to_lidar g]).
  { unfold intact, valid. simpl. repeat split; lia. }
  assert (V0 : valid (whole 0) [Scenario.identity; Scenario.projection;
                                voxel_grid g; grid_to_lidar g])
    by (unfold valid; simpl; lia).
  assert (V1 : valid (whole 1) [Scenario.identity; Scenario.projection;
                                voxel_grid g; grid_to_lidar g])
    by (unfold valid; simpl; lia).
  pose proof (forward_call_only_appends uniform_bin true
                {| fields := g; voxel_grid_ref := whole 2;
                   grid_to_lidar_ref := whole 3 |}
                (whole 0) (whole 1) Scenario.image_shape
                [Scenario.identity; Scenario.projection;
                 voxel_grid g; grid_to_lidar g] Hi V0 V1) as D.
  destruct (forward_call uniform_bin true _ (whole 0) (whole 1)
              Scenario.image_shape _) as (r, h').
  destruct D as (D & _).
  split; [apply (D 1) | apply (D 2)]; simpl; lia.
Defined.
